(** * index.js: model and verification

    The telemetry part of index.js is the pair [fetchTelemetryData] /
    [fetchTelemetryForMultipleVehicles].  They run on the JavaScript host:
    promises, the microtask queue, [setTimeout], [Math.random], the console
    and IEEE-754 binary64 numbers.  The host is modelled first, then the two
    functions are written against it as they are in the source.  The page
    part of index.js, the element look-ups and the event listeners, follows
    with a model of the document and of event dispatch, and the script as a
    whole is [index_js]. *)

From Stdlib Require Import ZArith Lia Bool String SpecFloat.
From stdpp Require Import base option list.

Open Scope Z_scope.

(** ** Numbers: IEEE-754 binary64, from the standard library's SpecFloat *)

Definition Number := spec_float.
Definition Number_mul (x y : Number) : Number := SFmul 53 1024 x y.
Definition Number_of_Z (z : Z) : Number := binary_normalize 53 1024 z 0 false.
Definition Number_ltb (x y : Number) : bool := SFltb x y.
Definition Number_leb (x y : Number) : bool := SFleb x y.
Definition is_Number (x : Number) : bool := valid_binary 53 1024 x.

Definition zero : Number := Number_of_Z 0.
Definition one : Number := Number_of_Z 1.
Definition hundred : Number := Number_of_Z 100.

(** What ECMAScript promises of [Math.random()]: a Number with positive sign,
    at least 0 and below 1. *)
Definition in_unit_interval (r : Number) : bool :=
  is_Number r && Number_leb zero r && Number_ltb r one.




(** ** JavaScript values the program handles *)

Inductive value : Type :=
  | VUndefined
  | VNumber (x : Number)
  | VTypeError                              (* a TypeError thrown by the host *)
  | VFailure (code : nat)                   (* some other rejection reason *)
  | VSample (vehicleId speed : value)       (* the object { vehicleId, speed } *)
  | VArray (a : nat)                        (* reference to an array in the heap *)
  | VPromise (p : nat).                     (* reference to a promise *)

(** Lines on the console. *)
Inductive line : Type :=
  | Log (text : string)                     (* console.log('Telemetry Data:') *)
  | LogVehicle (vehicleId speed : value)    (* `Vehicle ID: ${..}, Speed: ${..} km/h` *)
  | LogError (text : string) (error : value). (* console.error(text, error) *)

(** Functions the host calls back, as data (closure = code label + captured
    variables). *)
Inductive handler : Type :=
  | ResolveElement (all index : nat)        (* Promise.all's resolve-element function *)
  | RejectPromise (p : nat)                 (* the reject function of promise p *)
  | ResumeAfterAwait (fn : nat)             (* index.js:77-80, then the function returns *)
  | ThrowAfterAwait (fn : nat).             (* index.js:81-83, then the function returns *)

Record reaction : Type := { on_fulfilled : handler; on_rejected : handler }.

Inductive promise_state : Type :=
  | Pending (reactions : list reaction)
  | Fulfilled (v : value)
  | Rejected (reason : value).

(** Bookkeeping of one Promise.all call (ECMAScript 27.2.4.1). *)
Record all_record : Type := {
  all_values : list value;
  all_remaining : nat;
  all_promise : nat
}.

Inductive callback : Type :=
  | SimulatedResponse (p : nat) (vehicleId : value)   (* index.js:63-66 *)
  | InjectedFailure (p : nat) (reason : value).       (* not in index.js: reject(reason) *)

Record timer : Type := { due : Z; action : callback }.

Record State : Type := {
  clock : Z;                         (* virtual time, in milliseconds *)
  rng : nat;                         (* calls to Math.random() so far *)
  console : list line;
  heap : list (list value);          (* arrays, by reference *)
  promises : list promise_state;
  alls : list all_record;
  timers : list timer;               (* pending setTimeout callbacks, oldest first *)
  jobs : list (handler * value)      (* microtask queue *)
}.

Definition set_clock (f : Z -> Z) (st : State) : State :=
  {| clock := f (clock st); rng := rng st; console := console st; heap := heap st;
     promises := promises st; alls := alls st; timers := timers st; jobs := jobs st |}.
Definition set_rng (f : nat -> nat) (st : State) : State :=
  {| clock := clock st; rng := f (rng st); console := console st; heap := heap st;
     promises := promises st; alls := alls st; timers := timers st; jobs := jobs st |}.
Definition set_console (f : list line -> list line) (st : State) : State :=
  {| clock := clock st; rng := rng st; console := f (console st); heap := heap st;
     promises := promises st; alls := alls st; timers := timers st; jobs := jobs st |}.
Definition set_heap (f : list (list value) -> list (list value)) (st : State) : State :=
  {| clock := clock st; rng := rng st; console := console st; heap := f (heap st);
     promises := promises st; alls := alls st; timers := timers st; jobs := jobs st |}.
Definition set_promises (f : list promise_state -> list promise_state) (st : State) : State :=
  {| clock := clock st; rng := rng st; console := console st; heap := heap st;
     promises := f (promises st); alls := alls st; timers := timers st; jobs := jobs st |}.
Definition set_alls (f : list all_record -> list all_record) (st : State) : State :=
  {| clock := clock st; rng := rng st; console := console st; heap := heap st;
     promises := promises st; alls := f (alls st); timers := timers st; jobs := jobs st |}.
Definition set_timers (f : list timer -> list timer) (st : State) : State :=
  {| clock := clock st; rng := rng st; console := console st; heap := heap st;
     promises := promises st; alls := alls st; timers := f (timers st); jobs := jobs st |}.
Definition set_jobs (f : list (handler * value) -> list (handler * value)) (st : State) : State :=
  {| clock := clock st; rng := rng st; console := console st; heap := heap st;
     promises := promises st; alls := alls st; timers := timers st; jobs := f (jobs st) |}.

(** ** The host's operations, as state transformers *)

Definition M (A : Type) : Type := State -> A * State.
Definition ret {A} (a : A) : M A := fun st => (a, st).
Definition bind {A B} (m : M A) (k : A -> M B) : M B :=
  fun st => let (a, st') := m st in k a st'.
Definition modify (f : State -> State) : M unit := fun st => (tt, f st).

Declare Scope host_scope.
Delimit Scope host_scope with host.
Notation "'let*' x := m 'in' k" := (bind m (fun x => k))
  (at level 10, x name, m at level 100, k at level 200) : host_scope.
Notation "m ;; k" := (bind m (fun _ => k))
  (at level 100, k at level 200, right associativity) : host_scope.
Open Scope host_scope.

Definition console_log (l : line) : M unit := modify (set_console (fun c => c ++ [l])).
Definition console_error (text : string) (error : value) : M unit :=
  modify (set_console (fun c => c ++ [LogError text error])).

(** [new Array]: a fresh array holding [l]. *)
Definition new_array (l : list value) : M nat :=
  fun st => (length (heap st), set_heap (fun h => h ++ [l]) st).

(** A fresh pending promise. *)
Definition new_promise : M nat :=
  fun st => (length (promises st), set_promises (fun ps => ps ++ [Pending []]) st).

(** [setTimeout(cb, delay)]. *)
Definition setTimeout (cb : callback) (delay : Z) : M unit :=
  fun st => (tt, set_timers (fun ts => ts ++ [{| due := clock st + delay; action := cb |}]) st).

(** Settling a promise: a settled promise stays as it is; a pending one
    takes its outcome and its reactions become jobs, in registration order. *)
Definition resolve (p : nat) (v : value) : M unit :=
  fun st =>
    match promises st !! p with
    | Some (Pending rs) =>
        (tt, set_jobs (fun js => js ++ ((fun r => (on_fulfilled r, v)) <$> rs))
               (set_promises (fun ps => <[p := Fulfilled v]> ps) st))
    | _ => (tt, st)
    end.

Definition reject (p : nat) (reason : value) : M unit :=
  fun st =>
    match promises st !! p with
    | Some (Pending rs) =>
        (tt, set_jobs (fun js => js ++ ((fun r => (on_rejected r, reason)) <$> rs))
               (set_promises (fun ps => <[p := Rejected reason]> ps) st))
    | _ => (tt, st)
    end.

(** [p.then(onFulfilled, onRejected)] without the derived promise, which the
    program never looks at. *)
Definition then_ (p : nat) (r : reaction) : M unit :=
  fun st =>
    match promises st !! p with
    | Some (Pending rs) => (tt, set_promises (fun ps => <[p := Pending (rs ++ [r])]> ps) st)
    | Some (Fulfilled v) => (tt, set_jobs (fun js => js ++ [(on_fulfilled r, v)]) st)
    | Some (Rejected e) => (tt, set_jobs (fun js => js ++ [(on_rejected r, e)]) st)
    | None => (tt, st)
    end.

(** [Promise.resolve(x)]: a promise is returned as it is, anything else is
    wrapped in a fulfilled promise. *)
Definition Promise_resolve (x : value) : M nat :=
  match x with
  | VPromise p => ret p
  | _ => fun st => (length (promises st), set_promises (fun ps => ps ++ [Fulfilled x]) st)
  end.

(** The loop of Promise.all over the elements of its argument. *)
Fixpoint Promise_all_loop (all cap : nat) (index : nat) (elements : list value) : M unit :=
  match elements with
  | [] => ret tt
  | x :: rest =>
      modify (set_alls (fun rs => match rs !! all with
                | Some r => <[all := {| all_values := all_values r ++ [VUndefined];
                                        all_remaining := S (all_remaining r);
                                        all_promise := all_promise r |}]> rs
                | None => rs end)) ;;
      let* next := Promise_resolve x in
      then_ next {| on_fulfilled := ResolveElement all index; on_rejected := RejectPromise cap |} ;;
      Promise_all_loop all cap (S index) rest
  end.

(** Decrement of the remaining-elements counter; at zero the promise of the
    Promise.all call is resolved with a fresh array of the values. *)
Definition all_countdown (all : nat) : M unit :=
  fun st =>
    match alls st !! all with
    | Some r =>
        let r' := {| all_values := all_values r; all_remaining := pred (all_remaining r);
                     all_promise := all_promise r |} in
        let st' := set_alls (fun rs => <[all := r']> rs) st in
        match all_remaining r' with
        | O => (let* a := new_array (all_values r') in resolve (all_promise r') (VArray a)) st'
        | S _ => (tt, st')
        end
    | None => (tt, st)
    end.

(** [Promise.all(iterable)]. *)
Definition Promise_all (iterable : value) : M nat :=
  let* cap := new_promise in
  match iterable with
  | VArray a =>
      fun st =>
        match heap st !! a with
        | Some elements =>
            let all := length (alls st) in
            (Promise_all_loop all cap 0 elements ;;
             all_countdown all ;;
             ret cap)
              (set_alls (fun rs => rs ++ [{| all_values := []; all_remaining := 1;
                                             all_promise := cap |}]) st)
        | None => (reject cap VTypeError ;; ret cap) st
        end
  | _ => reject cap VTypeError ;; ret cap
  end.

(** Promise.all's resolve-element function, called with the value [x]. *)
Definition resolve_element (all index : nat) (x : value) : M unit :=
  modify (set_alls (fun rs => match rs !! all with
            | Some r => <[all := {| all_values := <[index := x]> (all_values r);
                                    all_remaining := all_remaining r;
                                    all_promise := all_promise r |}]> rs
            | None => rs end)) ;;
  all_countdown all.

(** ** index.js *)

(** [data.vehicleId] and [data.speed]: reading a property of [undefined]
    throws, the sample has both, any other value has neither. *)
Definition get_vehicleId (data : value) : value + value :=
  match data with
  | VSample vehicleId _ => inr vehicleId
  | VUndefined => inl VTypeError
  | _ => inr VUndefined
  end.
Definition get_speed (data : value) : value + value :=
  match data with
  | VSample _ speed => inr speed
  | VUndefined => inl VTypeError
  | _ => inr VUndefined
  end.

(** index.js:78-80, [telemetryData.forEach((data) => console.log(...))].
    [inl e]: the exception [e] left the loop. *)
Fixpoint forEach_log (telemetryData : list value) : M (value + unit) :=
  match telemetryData with
  | [] => ret (inr tt)
  | data :: rest =>
      match get_vehicleId data, get_speed data with
      | inr vehicleId, inr speed =>
          console_log (LogVehicle vehicleId speed) ;; forEach_log rest
      | inl e, _ | _, inl e => ret (inl e)
      end
  end.

(** The body of an async function has run to its end: its promise is
    resolved with [undefined]. *)
Definition return_undefined (fn : nat) : M unit := resolve fn VUndefined.

(** index.js:81-83. *)
Definition catch_block (error : value) : M unit :=
  console_error "Error fetching telemetry data:" error.

(** index.js:77-80, entered when the awaited promise is fulfilled with
    [telemetryData]. *)
Definition after_await (fn : nat) (telemetryData : value) : M unit :=
  console_log (Log "Telemetry Data:") ;;
  (fun st =>
     match telemetryData with
     | VArray a =>
         match heap st !! a with
         | Some l =>
             (let* r := forEach_log l in
              match r with inl e => catch_block e | inr _ => ret tt end) st
         | None => catch_block VTypeError st
         end
     | _ => catch_block VTypeError st
     end) ;;
  return_undefined fn.

Definition run_handler (h : handler) (x : value) : M unit :=
  match h with
  | ResolveElement all index => resolve_element all index x
  | RejectPromise p => reject p x
  | ResumeAfterAwait fn => after_await fn x
  | ThrowAfterAwait fn => catch_block x ;; return_undefined fn
  end.

Section WithRandom.

(** The values [Math.random()] returns, in call order. *)
Variable random : nat -> Number.

Definition Math_random : M Number :=
  fun st => (random (rng st), set_rng S st).

Definition run_callback (cb : callback) : M unit :=
  match cb with
  | SimulatedResponse p vehicleId =>
      (* index.js:64-65 *)
      let* randomSpeed := (let* r := Math_random in ret (Number_mul r hundred)) in
      resolve p (VSample vehicleId (VNumber randomSpeed))
  | InjectedFailure p reason => reject p reason
  end.

End WithRandom.

(** index.js:60-68.  The executor of [new Promise] runs at once and only
    calls [setTimeout]; [reject] is never used. *)
Definition fetchTelemetryData (vehicleId : value) : M value :=
  let* p := new_promise in
  setTimeout (SimulatedResponse p vehicleId) 1000 ;;
  ret (VPromise p).

(** A retrieval that fails: like [fetchTelemetryData], but its timer callback
    calls [reject(reason)].  index.js has no such path; this stand-in is what
    statements about a failing retrieval are made of. *)
Definition fetchFailing (reason : value) (vehicleId : value) : M value :=
  let* p := new_promise in
  setTimeout (InjectedFailure p reason) 1000 ;;
  ret (VPromise p).

(** [faults vehicleId = Some reason]: the retrieval for [vehicleId] fails with
    [reason]; [None]: it is the source's [fetchTelemetryData]. *)
Definition fetch_with_faults (faults : value -> option value) (vehicleId : value) : M value :=
  match faults vehicleId with
  | Some reason => fetchFailing reason vehicleId
  | None => fetchTelemetryData vehicleId
  end.

Definition no_faults : value -> option value := fun _ => None.

(** [arr.map(f)] for a callback that returns normally: the elements are
    visited in index order and the results go to a new array.  Calling
    [.map] on anything but an array throws a TypeError. *)
Fixpoint map_calls (f : value -> M value) (l : list value) : M (list value) :=
  match l with
  | [] => ret []
  | x :: rest =>
      let* y := f x in
      let* ys := map_calls f rest in
      ret (y :: ys)
  end.

Definition Array_map (f : value -> M value) (arr : value) : M (value + value) :=
  match arr with
  | VArray a =>
      fun st =>
        match heap st !! a with
        | Some l => (let* ys := map_calls f l in
                     let* b := new_array ys in
                     ret (inr (VArray b))) st
        | None => (inl VTypeError, st)
        end
  | _ => ret (inl VTypeError)
  end.

(** index.js:71-84, with the function called at line 74 as a parameter.
    The call allocates the promise the async function returns, runs the body
    up to [await], and returns that promise. *)
Definition fetchTelemetryForMultipleVehicles_with
    (fetch : value -> M value) (vehicleIds : value) : M value :=
  let* fn := new_promise in
  (let* mapped := Array_map (fun vehicleId => fetch vehicleId) vehicleIds in
   match mapped with
   | inr promisesArray =>
       let* all := Promise_all promisesArray in
       (* await *)
       then_ all {| on_fulfilled := ResumeAfterAwait fn; on_rejected := ThrowAfterAwait fn |}
   | inl error => catch_block error ;; return_undefined fn
   end) ;;
  ret (VPromise fn).

Definition fetchTelemetryForMultipleVehicles : value -> M value :=
  fetchTelemetryForMultipleVehicles_with fetchTelemetryData.

(** ** The event loop *)

Definition reactions_of (s : promise_state) : nat :=
  match s with Pending rs => length rs | _ => 0%nat end.

(** Jobs queued plus jobs that settling the pending promises can still queue:
    no handler of this program registers a reaction, so this bounds the jobs
    left to run. *)
Definition pending_work (st : State) : nat :=
  (length (jobs st) + sum_list (reactions_of <$> promises st))%nat.

Fixpoint drain_fuel (fuel : nat) (st : State) : State :=
  match fuel with
  | O => st
  | S fuel' =>
      match jobs st with
      | [] => st
      | (h, x) :: rest => drain_fuel fuel' (snd (run_handler h x (set_jobs (fun _ => rest) st)))
      end
  end.

(** Run the microtask queue until it is empty. *)
Definition drain (st : State) : State := drain_fuel (pending_work st) st.

(** Index of the timer to fire next: the earliest due, the oldest among
    equals. *)
Fixpoint earliest (ts : list timer) : nat :=
  match ts with
  | [] => 0%nat
  | t :: rest =>
      match rest !! earliest rest with
      | Some t' => if due t' <? due t then S (earliest rest) else 0%nat
      | None => 0%nat
      end
  end.

Section EventLoop.

Variable random : nat -> Number.

(** The [k]-th pending timer fires: the clock moves to its due time (never
    backwards), its callback runs, then the microtasks. *)
Definition fire (k : nat) (st : State) : State :=
  match timers st !! k with
  | Some t =>
      drain (snd (run_callback random (action t)
                    (set_clock (Z.max (due t)) (set_timers (delete k) st))))
  | None => st
  end.

(** Timers fired in an order chosen from outside: at each step the index of
    the pending timer that completes next. *)
Fixpoint fire_all (schedule : list nat) (st : State) : State :=
  match schedule with
  | [] => st
  | k :: rest => fire_all rest (fire k st)
  end.

(** One turn of the host's loop. *)
Definition tick (st : State) : State := fire (earliest (timers st)) st.

(** The host after a script: microtasks first, then one turn per timer. *)
Definition event_loop (st : State) : State :=
  let st' := drain st in Nat.iter (length (timers st')) tick st'.

(** A call made from a script, and the host run until nothing is pending. *)
Definition run_script {A} (script : M A) (st : State) : A * State :=
  let (a, st') := script st in (a, event_loop st').

End EventLoop.

(** index.js:86-88. *)
Definition vehicleIds_literal : list value :=
  [VNumber (Number_of_Z 1); VNumber (Number_of_Z 2); VNumber (Number_of_Z 3);
   VNumber (Number_of_Z 4); VNumber (Number_of_Z 5)].

Definition main : M value :=
  let* vehicleIds := new_array vehicleIds_literal in
  fetchTelemetryForMultipleVehicles (VArray vehicleIds).

Definition initial : State :=
  {| clock := 0; rng := 0; console := []; heap := []; promises := []; alls := [];
     timers := []; jobs := [] |}.


(** A complete schedule for [n] pending timers: one pick per timer, each
    within the timers still pending. *)
Fixpoint schedule_ok (n : nat) (ks : list nat) : bool :=
  match ks, n with
  | [], O => true
  | k :: rest, S n' => (k <? S n')%nat && schedule_ok n' rest
  | _, _ => false
  end.

(** The timers (named by registration index) in the order a schedule fires
    them. *)
Fixpoint firing_order (pend : list nat) (ks : list nat) : list nat :=
  match ks with
  | [] => []
  | k :: rest =>
      match pend !! k with
      | Some i => i :: firing_order (delete k pend) rest
      | None => []
      end
  end.

(** What a run added to the console. *)
Definition printed (before after : State) : list line :=
  drop (length (console before)) (console after).

(** The [(vehicleId, speed)] pairs of the vehicle lines, in print order. *)
Definition vehicle_lines (ls : list line) : list (value * value) :=
  omap (fun l => match l with LogVehicle v s => Some (v, s) | _ => None end) ls.

(** Nothing pending: no timer, no microtask.  The state a script starts in. *)
Definition quiescent (st : State) : Prop := timers st = [] /\ jobs st = [].

(** The speed of a sample. *)
Definition sample_speed (v : value) : Number :=
  match v with VSample _ (VNumber s) => s | _ => zero end.

(** The state of the script at index.js:88: the array literal of line 86 is
    at address 0 and nothing is pending. *)
Definition at_line_88 : State := snd (new_array vehicleIds_literal initial).

(** A sample stream for [Math.random()]: always one half. *)
Definition half : Number := S754_finite false 4503599627370496 (-53).
Definition always_half : nat -> Number := fun _ => half.

(** A fault plan for examples: the retrieval for vehicle 2 fails. *)
Definition vehicle_2_fails : value -> option value :=
  fun v => match v with
           | VNumber x => if SFeqb x (Number_of_Z 2) then Some (VFailure 7) else None
           | _ => None
           end.

(** The report a run printed: its [(vehicleId, speed)] entries in order. *)
Definition report_of (before after : State) : list (value * value) :=
  vehicle_lines (printed before after).

(** ** Vocabulary of the proofs *)

(** The callback [fetch_with_faults] schedules for [vehicleId] on promise [p]. *)
Definition callback_for (faults : value -> option value) (p : nat) (vehicleId : value) : callback :=
  match faults vehicleId with
  | Some reason => InjectedFailure p reason
  | None => SimulatedResponse p vehicleId
  end.

(** The reaction Promise.all registers on its element [index]. *)
Definition all_reaction (all cap index : nat) : reaction :=
  {| on_fulfilled := ResolveElement all index; on_rejected := RejectPromise cap |}.

(** The reaction [await] registers for the async function with promise [fn]. *)
Definition await_reaction (fn : nat) : reaction :=
  {| on_fulfilled := ResumeAfterAwait fn; on_rejected := ThrowAfterAwait fn |}.

Definition is_sample (v : value) : bool :=
  match v with VSample _ _ => true | _ => false end.

(** The line index.js:79 prints for a sample. *)
Definition line_of (data : value) : line :=
  match data with
  | VSample vehicleId speed => LogVehicle vehicleId speed
  | _ => LogVehicle VUndefined VUndefined
  end.

(** The line index.js:82 prints for [e]. *)
Definition error_line (e : value) : line := LogError "Error fetching telemetry data:" e.

(** [input] is an array the heap holds. *)
Definition is_array_in (st : State) (input : value) : bool :=
  match input with
  | VArray a => match heap st !! a with Some _ => true | None => false end
  | _ => false
  end.

Section ProgressModel.

(** A call on the array [ids] (at address [a]) made in state [st0]. *)
Variable random : nat -> Number.
Variable faults : value -> option value.
Variables (st0 : State) (a : nat) (ids : list value).

Local Abbreviation p0 := (length (promises st0)).
Local Abbreviation a0 := (length (alls st0)).
Local Abbreviation h0 := (length (heap st0)).
Local Abbreviation n0 := (length ids).

Definition the_call : M value :=
  fetchTelemetryForMultipleVehicles_with (fetch_with_faults faults) (VArray a).

Definition id_at (i : nat) : value := default VUndefined (ids !! i).

(** The timer of the [i]-th retrieval. *)
Definition mk_timer (i : nat) : timer :=
  {| due := clock st0 + 1000; action := callback_for faults (S p0 + i) (id_at i) |}.

Definition child_timers : list timer :=
  imap (fun j v => {| due := clock st0 + 1000; action := callback_for faults (S p0 + j) v |}) ids.

(** The state when the call returns, for a non-empty [ids]: the function's
    promise at [p0], one pending promise and one timer per identifier, the
    promise of Promise.all after them, awaited. *)
Definition after_call : State :=
  {| clock := clock st0; rng := rng st0; console := console st0;
     heap := heap st0 ++ [VPromise <$> seq (S p0) n0];
     promises := promises st0 ++ [Pending []]
                   ++ ((fun j => Pending [all_reaction a0 (S p0 + n0) j]) <$> seq 0 n0)
                   ++ [Pending [await_reaction p0]];
     alls := alls st0 ++ [{| all_values := replicate n0 VUndefined; all_remaining := n0;
                             all_promise := S p0 + n0 |}];
     timers := timers st0 ++ child_timers;
     jobs := jobs st0 |}.

(** The state once the microtasks of a call on the empty array have run. *)
Definition after_empty_call : State :=
  {| clock := clock st0; rng := rng st0;
     console := console st0 ++ [Log "Telemetry Data:"];
     heap := heap st0 ++ [[]; []];
     promises := promises st0 ++ [Fulfilled VUndefined; Fulfilled (VArray (S h0))];
     alls := alls st0 ++ [{| all_values := []; all_remaining := 0; all_promise := S p0 |}];
     timers := []; jobs := [] |}.

(** The rejection reasons of the retrievals in [fired], in that order. *)
Definition failures (fired : list nat) : list value :=
  omap (fun i => faults (id_at i)) fired.

(** The record of the call's Promise.all. *)
Definition all_rec (st : State) : all_record :=
  default {| all_values := []; all_remaining := 0; all_promise := 0 |} (alls st !! a0).

(** The states a call goes through while its timers fire.
    [fired]: the retrievals whose timer has fired, in firing order;
    [pend]: those still waiting, in registration order. *)
Record Inv (fired pend : list nat) (st : State) : Prop := {
  inv_timers : timers st = mk_timer <$> pend;
  inv_jobs : jobs st = [];
  inv_perm : fired ++ pend ≡ₚ seq 0 n0;
  inv_plen : length (promises st) = (S p0 + n0 + 1)%nat;
  inv_pframe : forall q, (q < p0)%nat -> promises st !! q = promises st0 !! q;
  inv_pending : forall i, i ∈ pend ->
    promises st !! (S p0 + i)%nat = Some (Pending [all_reaction a0 (S p0 + n0) i]);
  inv_settled : forall i, i ∈ fired ->
    promises st !! (S p0 + i)%nat =
      Some (match faults (id_at i) with
            | Some r => Rejected r
            | None => Fulfilled (default VUndefined (all_values (all_rec st) !! i))
            end);
  inv_alls : alls st !! a0 = Some (all_rec st);
  inv_alen : length (alls st) = S a0;
  inv_aframe : forall q, (q < a0)%nat -> alls st !! q = alls st0 !! q;
  inv_cap : all_promise (all_rec st) = (S p0 + n0)%nat;
  inv_vlen : length (all_values (all_rec st)) = n0;
  inv_remaining : all_remaining (all_rec st) = (length (failures fired) + length pend)%nat;
  inv_values : forall i, i ∈ fired -> faults (id_at i) = None ->
    exists n, all_values (all_rec st) !! i =
              Some (VSample (id_at i) (VNumber (Number_mul (random n) hundred)));
  inv_hframe : forall l, (l < h0)%nat -> heap st !! l = heap st0 !! l;
  inv_rng : rng st = (rng st0 + (length fired - length (failures fired)))%nat;
  inv_clock : clock st = match fired with [] => clock st0 | _ => clock st0 + 1000 end;
  inv_status :
    match failures fired, pend with
    | e :: _, _ =>
        promises st !! (S p0 + n0)%nat = Some (Rejected e) /\
        promises st !! p0 = Some (Fulfilled VUndefined) /\
        console st = console st0 ++ [error_line e] /\
        length (heap st) = S h0
    | [], [] =>
        promises st !! (S p0 + n0)%nat = Some (Fulfilled (VArray (S h0))) /\
        promises st !! p0 = Some (Fulfilled VUndefined) /\
        console st = console st0 ++ Log "Telemetry Data:" :: (line_of <$> all_values (all_rec st)) /\
        heap st !! S h0 = Some (all_values (all_rec st)) /\
        length (heap st) = S (S h0)
    | [], _ :: _ =>
        promises st !! (S p0 + n0)%nat = Some (Pending [await_reaction p0]) /\
        promises st !! p0 = Some (Pending []) /\
        console st = console st0 /\
        length (heap st) = S h0
    end
}.

End ProgressModel.

(** ** The draws behind the samples *)

(** The sample the [i]-th retrieval resolves with when its callback reads
    draw number [n] of [Math.random()]. *)
Definition sample_of (random : nat -> Number) (ids : list value) (i n : nat) : value :=
  VSample (id_at ids i) (VNumber (Number_mul (random n) hundred)).

(** The draw the [k]-th completion reads: the successful completions before
    it have each read one. *)
Definition draw_index (faults : value -> option value) (st0 : State) (ids : list value)
    (fired : list nat) (k : nat) : nat :=
  (rng st0 + (k - length (failures faults ids (take k fired))))%nat.

(** Every retrieval that has completed without failure is fulfilled with the
    sample of its own draw. *)
Definition Draws (random : nat -> Number) (faults : value -> option value) (st0 : State)
    (ids : list value) (fired : list nat) (st : State) : Prop :=
  forall k i, fired !! k = Some i -> faults (id_at ids i) = None ->
    promises st !! (S (length (promises st0)) + i)%nat =
      Some (Fulfilled (sample_of random ids i (draw_index faults st0 ids fired k))).

(** ** The console as a write-only log *)

Definition with_console (c : list line) (st : State) : State := set_console (fun _ => c) st.

(** An operation that never reads the console: run with another console it
    returns the same result, makes the same changes and appends the same
    lines. *)
Definition console_blind {A} (m : M A) : Prop :=
  forall st, exists a out st', forall c, m (with_console c st) = (a, with_console (c ++ out) st').

Definition console_blind_step (f : State -> State) : Prop :=
  forall st, exists out st', forall c, f (with_console c st) = with_console (c ++ out) st'.

(** * The page: index.js:1-57 and the script as a whole

    The first part of index.js looks up five elements of the document and
    registers eight event listeners.  The document is a list of elements in
    tree order; an event travels from its target up through the ancestors to
    the document and the window when it bubbles.  Only what the script uses
    is modelled: listeners registered without options, [alert], the inline
    background colour, [preventDefault] and [dispatchEvent]. *)

(** ** Documents and events *)

Inductive target := Window | Document | Element (n : nat).

Definition target_eqb (x y : target) : bool :=
  match x, y with
  | Window, Window => true
  | Document, Document => true
  | Element n, Element m => Nat.eqb n m
  | _, _ => false
  end.

(** An element: its [id] attribute and the position of its parent. *)
Record element := { el_id : string; el_parent : option nat }.

(** What the listeners read of an event.  [ev_key] is [None] where the event
    object has no [key] property. *)
Record event := {
  ev_type : string;
  ev_key : option string;
  ev_bubbles : bool;
  ev_cancelable : bool
}.

(** [new Event(type)]: it does not bubble and cannot be cancelled. *)
Definition new_Event (type : string) : event :=
  {| ev_type := type; ev_key := None; ev_bubbles := false; ev_cancelable := false |}.

(** The function expressions of index.js:5-57, each with the variables it
    closes over.  A variable holds the result of [getElementById]: an element
    or [null] ([None]). *)
Inductive listener :=
  | OnButtonClick                                  (* index.js:5-7 *)
  | OnDivMouseover (div : option nat)              (* index.js:12-14 *)
  | OnDivMouseout (div : option nat)               (* index.js:16-18 *)
  | OnInputKeyup                                   (* index.js:24-26 *)
  | OnFormSubmit                                   (* index.js:32-36 *)
  | OnWindowLoad                                   (* index.js:40-43 *)
  | OnCustomButtonClick (button : option nat)      (* index.js:49-53 *)
  | OnCustomEvent.                                 (* index.js:55-57 *)

Record registration := {
  reg_target : target;
  reg_type : string;
  reg_listener : listener
}.

(** The page: the host of the telemetry part, the document, the registered
    listeners, the messages shown by [alert] and the inline background colour
    of each element. *)
Record Page := {
  host : State;
  elements : list element;
  listeners : list registration;
  alerts : list string;
  backgroundColor : list (option string)
}.

Definition set_host (f : State -> State) (pg : Page) : Page :=
  {| host := f (host pg); elements := elements pg; listeners := listeners pg;
     alerts := alerts pg; backgroundColor := backgroundColor pg |}.
Definition set_listeners (f : list registration -> list registration) (pg : Page) : Page :=
  {| host := host pg; elements := elements pg; listeners := f (listeners pg);
     alerts := alerts pg; backgroundColor := backgroundColor pg |}.
Definition set_alerts (f : list string -> list string) (pg : Page) : Page :=
  {| host := host pg; elements := elements pg; listeners := listeners pg;
     alerts := f (alerts pg); backgroundColor := backgroundColor pg |}.
Definition set_backgroundColor (f : list (option string) -> list (option string))
    (pg : Page) : Page :=
  {| host := host pg; elements := elements pg; listeners := listeners pg;
     alerts := alerts pg; backgroundColor := f (backgroundColor pg) |}.

(** [alert(message)]. *)
Definition alert (message : string) (pg : Page) : Page :=
  set_alerts (fun l => l ++ [message]) pg.

(** [console.log(text)] from the page. *)
Definition log (text : string) (pg : Page) : Page :=
  set_host (fun st => snd (console_log (Log text) st)) pg.

(** [element.style.backgroundColor = colour]. *)
Definition paint (n : nat) (colour : string) (pg : Page) : Page :=
  set_backgroundColor (fun l => <[n := Some colour]> l) pg.

(** The first element in tree order with the given [id], or [null]. *)
Fixpoint find_id (s : string) (els : list element) (n : nat) : option nat :=
  match els with
  | [] => None
  | e :: rest => if String.eqb (el_id e) s then Some n else find_id s rest (S n)
  end.

(** The ancestors of element [n], nearest first. *)
Fixpoint ancestors (els : list element) (fuel n : nat) : list nat :=
  match fuel with
  | O => []
  | S fuel' =>
      match els !! n ≫= el_parent with
      | Some p => p :: ancestors els fuel' p
      | None => []
      end
  end.

(** The targets an event dispatched at [t] passes, from [t] outwards. *)
Definition path (pg : Page) (t : target) : list target :=
  match t with
  | Window => [Window]
  | Document => [Document; Window]
  | Element n =>
      Element n :: (Element <$> ancestors (elements pg) (length (elements pg)) n)
        ++ [Document; Window]
  end.

(** The listeners an event reaches, in the order they are called: those of
    the target, then, when the event bubbles, those of each target further
    out; on one target in registration order. *)
Definition listeners_on (pg : Page) (type : string) (t : target) : list listener :=
  reg_listener <$>
    List.filter (fun r => target_eqb (reg_target r) t && String.eqb (reg_type r) type)
                (listeners pg).

Definition invocation_list (pg : Page) (ev : event) (t : target) : list listener :=
  (if ev_bubbles ev then path pg t else [t]) ≫= listeners_on pg (ev_type ev).

(** [`${event.key}`]. *)
Definition key_text (ev : event) : string := default "undefined"%string (ev_key ev).

(** One listener called with [ev].  The result is paired with whether the
    listener cancelled the event; [None] only when a nested dispatch ran out
    of depth.  A listener that reads a property of [null] throws, which ends
    that listener and nothing else. *)
Definition run_listener (dispatchEvent : event -> target -> Page -> option (bool * Page))
    (l : listener) (ev : event) (pg : Page) : option (bool * Page) :=
  match l with
  | OnButtonClick => Some (false, alert "Button clicked!" pg)
  | OnDivMouseover div =>
      Some (false, match div with Some d => paint d "yellow" pg | None => pg end)
  | OnDivMouseout div =>
      Some (false, match div with Some d => paint d "red" pg | None => pg end)
  | OnInputKeyup => Some (false, log (String.append "Key pressed: " (key_text ev)) pg)
  | OnFormSubmit => Some (ev_cancelable ev, log "Form submitted!" pg)
  | OnWindowLoad => Some (false, log "Page loaded!" pg)
  | OnCustomButtonClick button =>
      let pg1 := log "hcek" pg in
      match button with
      | None => Some (false, pg1)
      | Some b =>
          match dispatchEvent (new_Event "customEvent") (Element b) pg1 with
          | Some (_, pg2) => Some (false, pg2)
          | None => None
          end
      end
  | OnCustomEvent => Some (false, alert "Custom event triggered!" pg)
  end.

Definition call_listeners (run : listener -> Page -> option (bool * Page))
    (ls : list listener) (pg : Page) : option (bool * Page) :=
  foldl (fun acc l =>
           match acc with
           | Some (cancelled, pg1) =>
               match run l pg1 with
               | Some (c, pg2) => Some (cancelled || c, pg2)
               | None => None
               end
           | None => None
           end)
        (Some (false, pg)) ls.

(** [target.dispatchEvent(ev)], also what the browser does for a user's
    action.  [depth] bounds the nesting of dispatches made by listeners. *)
Fixpoint dispatch (depth : nat) (ev : event) (t : target) (pg : Page) : option (bool * Page) :=
  match depth with
  | O => None
  | S depth' =>
      call_listeners (fun l => run_listener (dispatch depth') l ev)
                     (invocation_list pg ev t) pg
  end.

(** ** The script *)

(** A script either completes or throws. *)
Inductive completion (A : Type) := Normal (a : A) | Throw (e : value).
Arguments Normal {A} a.
Arguments Throw {A} e.

Definition Script (A : Type) : Type := Page -> completion A * Page.

Definition sret {A} (a : A) : Script A := fun pg => (Normal a, pg).
Definition sbind {A B} (m : Script A) (k : A -> Script B) : Script B :=
  fun pg => match m pg with
            | (Normal a, pg') => k a pg'
            | (Throw e, pg') => (Throw e, pg')
            end.

Declare Scope script_scope.
Delimit Scope script_scope with script.
Notation "'let*' x := m 'in' k" := (sbind m (fun x => k))
  (at level 10, x name, m at level 100, k at level 200) : script_scope.
Notation "m ;; k" := (sbind m (fun _ => k))
  (at level 100, k at level 200, right associativity) : script_scope.

(** A call into the telemetry part. *)
Definition on_host {A} (m : M A) : Script A :=
  fun pg => let (a, st) := m (host pg) in (Normal a, set_host (fun _ => st) pg).

Definition getElementById (s : string) : Script (option nat) :=
  fun pg => (Normal (find_id s (elements pg) 0), pg).

Definition register (t : target) (type : string) (l : listener) : Script unit :=
  fun pg => (Normal tt, set_listeners (fun ls => ls ++
               [{| reg_target := t; reg_type := type; reg_listener := l |}]) pg).

(** [x.addEventListener(type, l)] where [x] may be [null]. *)
Definition addEventListener (x : option nat) (type : string) (l : listener) : Script unit :=
  match x with
  | Some n => register (Element n) type l
  | None => fun pg => (Throw VTypeError, pg)
  end.

Definition window_addEventListener (type : string) (l : listener) : Script unit :=
  register Window type l.

(** index.js, top to bottom. *)
Definition index_js : Script value :=
  (on_host (console_log (Log "working")) ;;
   let* button := getElementById "myButton" in
   addEventListener button "click" OnButtonClick ;;
   let* div := getElementById "myDiv" in
   addEventListener div "mouseover" (OnDivMouseover div) ;;
   addEventListener div "mouseout" (OnDivMouseout div) ;;
   let* input := getElementById "myInput" in
   addEventListener input "keyup" OnInputKeyup ;;
   let* form := getElementById "myForm" in
   addEventListener form "submit" OnFormSubmit ;;
   window_addEventListener "load" OnWindowLoad ;;
   let* cbutton := getElementById "customButton" in
   addEventListener cbutton "click" (OnCustomButtonClick button) ;;
   addEventListener cbutton "customEvent" OnCustomEvent ;;
   on_host main)%script.

(** ** The page after the script *)

(** What happens next on the page: a timer fires, or the user (or the
    browser) causes an event at some target. *)
Inductive task := TimerFires (k : nat) | UserEvent (ev : event) (t : target).

Definition run_task (random : nat -> Number) (depth : nat) (tk : task) (pg : Page)
    : option Page :=
  match tk with
  | TimerFires k => Some (set_host (fire random k) pg)
  | UserEvent ev t => snd <$> dispatch depth ev t pg
  end.

Fixpoint run_tasks (random : nat -> Number) (depth : nat) (tks : list task) (pg : Page)
    : option Page :=
  match tks with
  | [] => Some pg
  | tk :: rest =>
      match run_task random depth tk pg with
      | Some pg' => run_tasks random depth rest pg'
      | None => None
      end
  end.

(** The script run on a page, then the microtasks it left. *)
Definition load (pg : Page) : completion value * Page :=
  let (r, pg') := index_js pg in (r, set_host drain pg').

(** A page as the browser hands it to the script: nothing registered,
    nothing shown, nothing pending. *)
Definition fresh_page (els : list element) : Page :=
  {| host := initial; elements := els; listeners := []; alerts := [];
     backgroundColor := replicate (length els) None |}.

(** A document for examples: the five elements the script looks up, the
    input inside the form. *)
Definition example_document : list element :=
  [ {| el_id := "myButton"; el_parent := None |};
    {| el_id := "myDiv"; el_parent := None |};
    {| el_id := "myForm"; el_parent := None |};
    {| el_id := "myInput"; el_parent := Some 2%nat |};
    {| el_id := "customButton"; el_parent := None |} ].

(** The registrations the script makes when all five elements exist. *)
Definition script_listeners (button div input form cbutton : nat) : list registration :=
  [ {| reg_target := Element button; reg_type := "click"; reg_listener := OnButtonClick |};
    {| reg_target := Element div; reg_type := "mouseover";
       reg_listener := OnDivMouseover (Some div) |};
    {| reg_target := Element div; reg_type := "mouseout";
       reg_listener := OnDivMouseout (Some div) |};
    {| reg_target := Element input; reg_type := "keyup"; reg_listener := OnInputKeyup |};
    {| reg_target := Element form; reg_type := "submit"; reg_listener := OnFormSubmit |};
    {| reg_target := Window; reg_type := "load"; reg_listener := OnWindowLoad |};
    {| reg_target := Element cbutton; reg_type := "click";
       reg_listener := OnCustomButtonClick (Some button) |};
    {| reg_target := Element cbutton; reg_type := "customEvent";
       reg_listener := OnCustomEvent |} ].

(** The identifiers the script looks up. *)
Definition looked_up : list string :=
  ["myButton"; "myDiv"; "myInput"; "myForm"; "customButton"]%string.

(** Tree order: every parent comes before its children. *)
Definition tree_order (els : list element) : bool :=
  forallb (fun ne => match el_parent (snd ne) with
                     | Some p => Nat.ltb p (fst ne)
                     | None => true
                     end)
          (imap pair els).

(** The messages [alert] can show: the one of the first button, and, where
    [custom] is set, the one of the custom event. *)
Definition shown (custom : bool) (messages : list string) : Prop :=
  Forall (fun m => m = "Button clicked!"%string \/
                   (custom = true /\ m = "Custom event triggered!"%string)) messages.

(** What a page may become through events: the document and the listeners
    stay, alerts are added, lines are logged, and only the element [div] is
    painted, yellow or red. *)
Record Follows (div : nat) (custom : bool) (pg pg' : Page) : Prop := {
  fo_elements : elements pg' = elements pg;
  fo_listeners : listeners pg' = listeners pg;
  fo_alerts : exists messages, alerts pg' = alerts pg ++ messages /\ shown custom messages;
  fo_host : exists texts,
    host pg' = set_console (fun c => c ++ (Log <$> texts)) (host pg);
  fo_colour_length : length (backgroundColor pg') = length (backgroundColor pg);
  fo_colour : forall n,
    backgroundColor pg' !! n = backgroundColor pg !! n \/
    (n = div /\ (backgroundColor pg' !! n = Some (Some "yellow"%string) \/
                 backgroundColor pg' !! n = Some (Some "red"%string)))
}.

(** The same without the host, which timers change as well. *)
Record Stays (div : nat) (custom : bool) (pg pg' : Page) : Prop := {
  st_elements : elements pg' = elements pg;
  st_listeners : listeners pg' = listeners pg;
  st_alerts : exists messages, alerts pg' = alerts pg ++ messages /\ shown custom messages;
  st_colour_length : length (backgroundColor pg') = length (backgroundColor pg);
  st_colour : forall n,
    backgroundColor pg' !! n = backgroundColor pg !! n \/
    (n = div /\ (backgroundColor pg' !! n = Some (Some "yellow"%string) \/
                 backgroundColor pg' !! n = Some (Some "red"%string)))
}.

(** The user events of a task list. *)
Definition user_events (tks : list task) : list (event * target) :=
  omap (fun tk => match tk with UserEvent ev t => Some (ev, t) | TimerFires _ => None end) tks.

(** The timers a task list fires, as a schedule. *)
Definition timer_picks (tks : list task) : list nat :=
  omap (fun tk => match tk with TimerFires k => Some k | UserEvent _ _ => None end) tks.

(** * Proofs *)

(** ** Binary64: [Math.random() * 100] stays below 100 *)




















(** ** The microtask queue empties *)

Lemma work_insert (ps : list promise_state) p s s' :
  ps !! p = Some s ->
  (sum_list (reactions_of <$> <[p := s']> ps) + reactions_of s =
   sum_list (reactions_of <$> ps) + reactions_of s')%nat.
Proof.
  revert p. induction ps as [|q ps IH]; intros [|p] Hp; simpl in *; try discriminate.
  - injection Hp as ->. lia.
  - specialize (IH p Hp). unfold fmap in IH. lia.
Qed.

Lemma resolve_work p v st : pending_work (snd (resolve p v st)) = pending_work st.
Proof.
  unfold resolve, pending_work.
  destruct (promises st !! p) as [[rs| |]|] eqn:Hp; simpl; try reflexivity.
  rewrite length_app, length_fmap.
  pose proof (work_insert (promises st) p (Pending rs) (Fulfilled v) Hp) as H.
  simpl in H. lia.
Qed.

Lemma reject_work p v st : pending_work (snd (reject p v st)) = pending_work st.
Proof.
  unfold reject, pending_work.
  destruct (promises st !! p) as [[rs| |]|] eqn:Hp; simpl; try reflexivity.
  rewrite length_app, length_fmap.
  pose proof (work_insert (promises st) p (Pending rs) (Rejected v) Hp) as H.
  simpl in H. lia.
Qed.

Lemma pending_work_ext st st' :
  jobs st = jobs st' -> promises st = promises st' -> pending_work st = pending_work st'.
Proof. unfold pending_work. intros -> ->. reflexivity. Qed.

Lemma all_countdown_work all st : pending_work (snd (all_countdown all st)) = pending_work st.
Proof.
  unfold all_countdown.
  destruct (alls st !! all) as [r|]; [|reflexivity].
  destruct (all_remaining r) as [|[|n]]; simpl; try reflexivity.
  - unfold bind, new_array. simpl. rewrite resolve_work. reflexivity.
  - unfold bind, new_array. simpl. rewrite resolve_work. reflexivity.
Qed.

Lemma forEach_log_queue l st :
  jobs (snd (forEach_log l st)) = jobs st /\ promises (snd (forEach_log l st)) = promises st.
Proof.
  revert st. induction l as [|d l IH]; intros st; simpl; [split; reflexivity|].
  destruct (get_vehicleId d), (get_speed d); simpl; try (split; reflexivity).
  unfold bind, console_log, modify. simpl.
  destruct (IH (set_console (fun c => c ++ [LogVehicle v v0]) st)) as [-> ->].
  split; reflexivity.
Qed.

Lemma run_handler_work h x st : pending_work (snd (run_handler h x st)) = pending_work st.
Proof.
  destruct h as [all index|p|fn|fn]; simpl.
  - unfold resolve_element, bind, modify. simpl. rewrite all_countdown_work. reflexivity.
  - apply reject_work.
  - unfold after_await, return_undefined, bind, console_log, modify. simpl.
    match goal with |- pending_work (snd (let (_, st') := ?m in resolve fn VUndefined st')) = _ =>
      destruct m as [u st1] eqn:Hm end.
    rewrite resolve_work.
    assert (jobs st1 = jobs st /\ promises st1 = promises st) as [Hj Hp].
    { destruct x; simpl in Hm; try (injection Hm as _ <-; split; reflexivity).
      destruct (heap st !! a) as [l|]; simpl in Hm; [|injection Hm as _ <-; split; reflexivity].
      unfold bind in Hm.
      match type of Hm with context [forEach_log l ?s] =>
        pose proof (forEach_log_queue l s) as Hq; destruct (forEach_log l s) as [[e|[]] s'] end;
        simpl in *; injection Hm as _ <-; exact Hq. }
    apply pending_work_ext; assumption.
  - unfold catch_block, return_undefined, bind, console_error, modify. simpl.
    rewrite resolve_work. reflexivity.
Qed.

Lemma drain_nil st : jobs st = [] -> drain st = st.
Proof.
  intros H. unfold drain. destruct (pending_work st); simpl; [reflexivity|].
  rewrite H. reflexivity.
Qed.

Lemma drain_fuel_enough n st :
  (pending_work st <= n)%nat -> drain_fuel n st = drain st.
Proof.
  revert st. induction n as [|n IH]; intros st Hn.
  - unfold drain. replace (pending_work st) with 0%nat by lia. reflexivity.
  - unfold drain. destruct (jobs st) as [|[h x] rest] eqn:Hj.
    + simpl. rewrite Hj. destruct (pending_work st); simpl; rewrite ?Hj; reflexivity.
    + assert (Hw : pending_work st = S (pending_work (set_jobs (fun _ => rest) st))).
      { unfold pending_work. rewrite Hj. reflexivity. }
      rewrite Hw. simpl. rewrite Hj.
      rewrite IH by (rewrite run_handler_work; lia).
      unfold drain. rewrite run_handler_work. reflexivity.
Qed.

Lemma drain_cons st h x rest :
  jobs st = (h, x) :: rest ->
  drain st = drain (snd (run_handler h x (set_jobs (fun _ => rest) st))).
Proof.
  intros Hj. unfold drain at 1.
  assert (Hw : pending_work st = S (pending_work (set_jobs (fun _ => rest) st))).
  { unfold pending_work. rewrite Hj. reflexivity. }
  rewrite Hw. simpl. rewrite Hj. apply drain_fuel_enough. rewrite run_handler_work. lia.
Qed.


Ltac proj :=
  cbn [clock rng console heap promises alls timers jobs set_clock set_rng set_console
       set_heap set_promises set_alls set_timers set_jobs fst snd].

(** ** The synchronous part of a call *)

Lemma State_eq (s t : State) :
  clock s = clock t -> rng s = rng t -> console s = console t -> heap s = heap t ->
  promises s = promises t -> alls s = alls t -> timers s = timers t -> jobs s = jobs t ->
  s = t.
Proof. destruct s, t; simpl; intros; subst; reflexivity. Qed.

Lemma fetch_with_faults_eq faults v st :
  fetch_with_faults faults v st =
  (VPromise (length (promises st)),
   set_timers (fun ts => ts ++ [{| due := clock st + 1000;
                                   action := callback_for faults (length (promises st)) v |}])
     (set_promises (fun ps => ps ++ [Pending []]) st)).
Proof.
  unfold fetch_with_faults, callback_for.
  destruct (faults v); reflexivity.
Qed.

Lemma map_calls_fetch faults l : forall st,
  map_calls (fetch_with_faults faults) l st =
  (VPromise <$> seq (length (promises st)) (length l),
   set_timers (fun ts => ts ++ imap (fun j v =>
       {| due := clock st + 1000;
          action := callback_for faults (length (promises st) + j) v |}) l)
     (set_promises (fun ps => ps ++ replicate (length l) (Pending [])) st)).
Proof.
  induction l as [|x l IH]; intros st.
  - simpl. f_equal. apply State_eq; simpl; rewrite ?app_nil_r; reflexivity.
  - simpl map_calls. unfold bind at 1. rewrite fetch_with_faults_eq.
    unfold bind at 1. rewrite IH. unfold ret. simpl.
    rewrite length_app. simpl. rewrite Nat.add_1_r. f_equal.
    apply State_eq; simpl; try reflexivity.
    + rewrite <- app_assoc. reflexivity.
    + rewrite <- app_assoc. simpl. rewrite Nat.add_0_r. do 2 f_equal.
      apply imap_ext. intros j y _. simpl. do 2 f_equal. lia.
Qed.

Lemma Promise_all_loop_spec all cap n : forall idx pre post r st,
  promises st = pre ++ replicate n (Pending []) ++ post ->
  alls st !! all = Some r ->
  Promise_all_loop all cap idx (VPromise <$> seq (length pre) n) st =
  (tt, set_alls (fun rs => <[all := {| all_values := all_values r ++ replicate n VUndefined;
                                      all_remaining := all_remaining r + n;
                                      all_promise := all_promise r |}]> rs)
         (set_promises (fun _ => pre ++ ((fun j => Pending [all_reaction all cap j]) <$> seq idx n)
                                   ++ post) st)).
Proof.
  induction n as [|n IH]; intros idx pre post r st Hp Ha.
  - simpl. unfold ret. f_equal. apply State_eq; simpl; try reflexivity; [exact Hp|].
    symmetry. apply list_insert_id. rewrite Ha. destruct r; simpl.
    rewrite app_nil_r, Nat.add_0_r. reflexivity.
  - simpl seq. rewrite fmap_cons. simpl Promise_all_loop.
    unfold bind, modify, ret, then_. simpl.
    rewrite Hp. rewrite (lookup_app_r pre) by lia. rewrite Nat.sub_diag. simpl.
    assert (Hlen : length (pre ++ [Pending [all_reaction all cap idx]]) = S (length pre))
      by (rewrite length_app; simpl; lia).
    rewrite <- Hlen.
    rewrite (IH (S idx) (pre ++ [Pending [all_reaction all cap idx]]) post
               {| all_values := all_values r ++ [VUndefined];
                  all_remaining := S (all_remaining r);
                  all_promise := all_promise r |}).
    + f_equal. apply State_eq; simpl; try reflexivity.
      * rewrite <- app_assoc. reflexivity.
      * rewrite Ha. rewrite list_insert_insert_eq. simpl. do 2 f_equal.
        -- rewrite <- app_assoc. reflexivity.
        -- lia.
    + simpl. rewrite Hp. simpl.
      rewrite insert_app_r_alt by lia. rewrite Nat.sub_diag. simpl.
      rewrite <- app_assoc. reflexivity.
    + simpl. rewrite Ha. apply list_lookup_insert_eq. eapply lookup_lt_Some; eauto.
Qed.

Lemma Promise_all_pending h pre n s :
  heap s !! h = Some (VPromise <$> seq (length pre) (S n)) ->
  promises s = pre ++ replicate (S n) (Pending []) ->
  Promise_all (VArray h) s =
  ((length pre + S n)%nat,
   set_alls (fun rs => rs ++ [{| all_values := replicate (S n) VUndefined;
                                 all_remaining := S n;
                                 all_promise := (length pre + S n)%nat |}])
     (set_promises (fun _ => pre
         ++ ((fun j => Pending [all_reaction (length (alls s)) (length pre + S n) j])
               <$> seq 0 (S n))
         ++ [Pending []]) s)).
Proof.
  intros Hh Hp.
  assert (Hcap : length (promises s) = (length pre + S n)%nat)
    by (rewrite Hp, length_app, length_replicate; reflexivity).
  unfold Promise_all, bind, new_promise. simpl heap. rewrite Hh. simpl promises.
  rewrite Hcap.
  set (cap := (length pre + S n)%nat).
  set (all := length (alls s)).
  set (rec0 := {| all_values := []; all_remaining := 1; all_promise := cap |}).
  rewrite (Promise_all_loop_spec all cap (S n) 0 pre [Pending []] rec0).
  - unfold all_countdown. simpl alls.
    rewrite list_lookup_insert_eq by (rewrite length_app; simpl; unfold all; lia).
    simpl. unfold ret. f_equal. apply State_eq; simpl; try reflexivity.
    rewrite list_insert_insert_eq.
    rewrite insert_app_r_alt by (unfold all; lia).
    unfold all. rewrite Nat.sub_diag. reflexivity.
  - simpl. rewrite Hp. rewrite <- app_assoc. reflexivity.
  - simpl. unfold all. rewrite lookup_app_r by lia. rewrite Nat.sub_diag. reflexivity.
Qed.

Section Call.

Variable faults : value -> option value.
Variables (st0 : State) (a : nat) (ids : list value).
Hypothesis Hheap : heap st0 !! a = Some ids.

Local Abbreviation p0 := (length (promises st0)).
Local Abbreviation a0 := (length (alls st0)).
Local Abbreviation h0 := (length (heap st0)).
Local Abbreviation n0 := (length ids).

Lemma call_nonempty :
  ids <> [] ->
  fetchTelemetryForMultipleVehicles_with (fetch_with_faults faults) (VArray a) st0
  = (VPromise p0, after_call faults st0 ids).
Proof.
  intros Hne.
  assert (HN : exists n, n0 = S n).
  { destruct ids; [contradiction|]. simpl. eauto. }
  destruct HN as [n HN].
  assert (HP1 : length (promises st0 ++ [Pending []]) = S p0)
    by (rewrite length_app; simpl; lia).
  unfold fetchTelemetryForMultipleVehicles_with, bind, new_promise.
  unfold Array_map. proj. rewrite Hheap.
  unfold bind. rewrite (map_calls_fetch faults ids). proj.
  unfold new_array, ret. proj. rewrite HN.
  erewrite (Promise_all_pending _ (promises st0 ++ [Pending []]) n).
  - unfold then_. proj. rewrite HP1.
    assert (Hlen : forall f : nat -> promise_state,
       length ((promises st0 ++ [Pending []]) ++ (f <$> seq 0 (S n))) = (S p0 + S n)%nat)
      by (intros f; rewrite length_app, length_fmap, length_seq, HP1; reflexivity).
    rewrite app_assoc. rewrite lookup_app_r by (rewrite Hlen; lia). rewrite Hlen, Nat.sub_diag.
    cbn [lookup list_lookup]. f_equal. unfold after_call.
    apply State_eq; proj; rewrite ?HN; try reflexivity.
    rewrite insert_app_r_alt by (rewrite Hlen; lia). rewrite Hlen, Nat.sub_diag.
      cbn [insert list_insert]. rewrite <- !app_assoc. reflexivity.
  - proj. rewrite lookup_app_r by lia. rewrite Nat.sub_diag. rewrite HP1. reflexivity.
  - proj. reflexivity.
Qed.

End Call.

(** ** One timer fires *)

Lemma forEach_log_samples l : forall st,
  forallb is_sample l = true ->
  forEach_log l st = (inr tt, set_console (fun c => c ++ (line_of <$> l)) st).
Proof.
  induction l as [|d l IH]; intros st Hl.
  - simpl. unfold ret. f_equal. apply State_eq; proj; rewrite ?app_nil_r; reflexivity.
  - simpl in Hl. apply andb_true_iff in Hl. destruct Hl as [Hd Hl].
    destruct d; try discriminate. simpl forEach_log.
    unfold bind, console_log, modify. rewrite (IH _ Hl). f_equal.
    apply State_eq; proj; try reflexivity.
    rewrite <- app_assoc. reflexivity.
Qed.

Section Fire.

Variable random : nat -> Number.
Variables (st : State) (k : nat) (d : Z) (p : nat).
Hypothesis Hjobs : jobs st = [].

Lemma fire_success_more v all cap idx rec n :
  timers st !! k = Some {| due := d; action := SimulatedResponse p v |} ->
  promises st !! p = Some (Pending [all_reaction all cap idx]) ->
  alls st !! all = Some rec ->
  all_remaining rec = S (S n) ->
  let sample := VSample v (VNumber (Number_mul (random (rng st)) hundred)) in
  fire random k st =
  {| clock := Z.max d (clock st); rng := S (rng st); console := console st;
     heap := heap st;
     promises := <[p := Fulfilled sample]> (promises st);
     alls := <[all := {| all_values := <[idx := sample]> (all_values rec);
                         all_remaining := S n;
                         all_promise := all_promise rec |}]> (alls st);
     timers := delete k (timers st); jobs := [] |}.
Proof.
  intros Ht Hp Ha Hr sample. unfold fire. rewrite Ht. cbn [action due].
  unfold run_callback, bind, Math_random, ret, resolve. proj. rewrite Hp.
  cbn [fmap list_fmap on_fulfilled all_reaction]. proj.
  erewrite drain_cons by (proj; rewrite Hjobs; reflexivity).
  cbn [run_handler]. unfold resolve_element, bind, modify, all_countdown. proj.
  rewrite Ha. rewrite list_lookup_insert_eq by (eapply lookup_lt_Some; eauto).
  cbn [all_remaining all_values all_promise]. rewrite Hr. cbn [pred]. proj.
  rewrite drain_nil by reflexivity.
  apply State_eq; proj; try reflexivity.
  rewrite Ha, list_insert_insert_eq. reflexivity.
Qed.

Lemma fire_success_last v all cap idx rec fn :
  timers st !! k = Some {| due := d; action := SimulatedResponse p v |} ->
  promises st !! p = Some (Pending [all_reaction all cap idx]) ->
  alls st !! all = Some rec ->
  all_remaining rec = 1%nat ->
  all_promise rec = cap ->
  promises st !! cap = Some (Pending [await_reaction fn]) ->
  promises st !! fn = Some (Pending []) ->
  p <> cap -> p <> fn -> cap <> fn ->
  let sample := VSample v (VNumber (Number_mul (random (rng st)) hundred)) in
  let values := <[idx := sample]> (all_values rec) in
  forallb is_sample values = true ->
  fire random k st =
  {| clock := Z.max d (clock st); rng := S (rng st);
     console := console st ++ Log "Telemetry Data:" :: (line_of <$> values);
     heap := heap st ++ [values];
     promises := <[fn := Fulfilled VUndefined]>
                   (<[cap := Fulfilled (VArray (length (heap st)))]>
                      (<[p := Fulfilled sample]> (promises st)));
     alls := <[all := {| all_values := values; all_remaining := 0;
                         all_promise := cap |}]> (alls st);
     timers := delete k (timers st); jobs := [] |}.
Proof.
  intros Ht Hp Ha Hr Hc Hcap Hfn Hpc Hpf Hcf sample values Hs.
  unfold fire. rewrite Ht. cbn [action due].
  unfold run_callback, bind, Math_random, ret, resolve. proj. rewrite Hp.
  cbn [fmap list_fmap on_fulfilled all_reaction]. proj.
  erewrite drain_cons by (proj; rewrite Hjobs; reflexivity).
  cbn [run_handler]. unfold resolve_element, bind, modify, all_countdown. proj.
  rewrite Ha. rewrite list_lookup_insert_eq by (eapply lookup_lt_Some; eauto).
  cbn [all_remaining all_values all_promise]. rewrite Hr, Hc. cbn [pred].
  unfold bind, new_array, resolve. proj.
  rewrite list_lookup_insert_ne by assumption. rewrite Hcap.
  cbn [fmap list_fmap on_fulfilled await_reaction]. proj.
  erewrite drain_cons by (proj; reflexivity).
  cbn [run_handler]. unfold after_await, bind, console_log, modify, return_undefined. proj.
  rewrite lookup_app_r by lia. rewrite Nat.sub_diag. cbn [lookup list_lookup].
  fold sample. fold values.
  rewrite (forEach_log_samples values _ Hs). unfold ret, resolve. proj.
  rewrite list_lookup_insert_ne by auto. rewrite list_lookup_insert_ne by auto.
  rewrite Hfn. cbn [fmap list_fmap]. proj.
  rewrite drain_nil by reflexivity.
  apply State_eq; proj; try reflexivity.
  - rewrite <- app_assoc. reflexivity.
  - rewrite Ha, list_insert_insert_eq. reflexivity.
Qed.

Lemma fire_failure_first r all cap idx fn :
  timers st !! k = Some {| due := d; action := InjectedFailure p r |} ->
  promises st !! p = Some (Pending [all_reaction all cap idx]) ->
  promises st !! cap = Some (Pending [await_reaction fn]) ->
  promises st !! fn = Some (Pending []) ->
  p <> cap -> p <> fn -> cap <> fn ->
  fire random k st =
  {| clock := Z.max d (clock st); rng := rng st;
     console := console st ++ [LogError "Error fetching telemetry data:" r];
     heap := heap st;
     promises := <[fn := Fulfilled VUndefined]>
                   (<[cap := Rejected r]> (<[p := Rejected r]> (promises st)));
     alls := alls st;
     timers := delete k (timers st); jobs := [] |}.
Proof.
  intros Ht Hp Hcap Hfn Hpc Hpf Hcf.
  unfold fire. rewrite Ht. cbn [action due].
  unfold run_callback, reject. proj. rewrite Hp.
  cbn [fmap list_fmap on_rejected all_reaction]. proj.
  erewrite drain_cons by (proj; rewrite Hjobs; reflexivity).
  cbn [run_handler]. unfold reject. proj.
  rewrite list_lookup_insert_ne by assumption. rewrite Hcap.
  cbn [fmap list_fmap on_rejected await_reaction]. proj.
  erewrite drain_cons by (proj; reflexivity).
  cbn [run_handler]. unfold catch_block, bind, console_error, modify, return_undefined, resolve.
  proj.
  rewrite list_lookup_insert_ne by auto. rewrite list_lookup_insert_ne by auto.
  rewrite Hfn. cbn [fmap list_fmap]. proj.
  rewrite drain_nil by reflexivity.
  apply State_eq; proj; reflexivity.
Qed.

Lemma fire_failure_later r all cap idx e :
  timers st !! k = Some {| due := d; action := InjectedFailure p r |} ->
  promises st !! p = Some (Pending [all_reaction all cap idx]) ->
  promises st !! cap = Some (Rejected e) ->
  p <> cap ->
  fire random k st =
  {| clock := Z.max d (clock st); rng := rng st; console := console st; heap := heap st;
     promises := <[p := Rejected r]> (promises st);
     alls := alls st;
     timers := delete k (timers st); jobs := [] |}.
Proof.
  intros Ht Hp Hcap Hpc.
  unfold fire. rewrite Ht. cbn [action due].
  unfold run_callback, reject. proj. rewrite Hp.
  cbn [fmap list_fmap on_rejected all_reaction]. proj.
  erewrite drain_cons by (proj; rewrite Hjobs; reflexivity).
  cbn [run_handler]. unfold reject. proj.
  rewrite list_lookup_insert_ne by assumption. rewrite Hcap.
  rewrite drain_nil by reflexivity.
  apply State_eq; proj; reflexivity.
Qed.

End Fire.

(** ** The state of a call while its timers fire *)

Lemma nil_or_not {X} (l : list X) : l = [] \/ l <> [].
Proof. destruct l; [left; reflexivity|right; discriminate]. Qed.

Section Progress.

Variable random : nat -> Number.
Variable faults : value -> option value.
Variables (st0 : State) (ids : list value).

Local Abbreviation p0 := (length (promises st0)).
Local Abbreviation a0 := (length (alls st0)).
Local Abbreviation h0 := (length (heap st0)).
Local Abbreviation n0 := (length ids).

Lemma child_timers_seq : child_timers faults st0 ids = (mk_timer faults st0 ids) <$> seq 0 n0.
Proof.
  unfold child_timers. apply list_eq. intros i.
  rewrite list_lookup_imap, list_lookup_fmap. 
  destruct (ids !! i) as [v|] eqn:Hi.
  - rewrite lookup_seq_lt by (apply lookup_lt_Some in Hi; exact Hi).
    simpl. unfold mk_timer, id_at. rewrite Hi. reflexivity.
  - rewrite lookup_seq_ge by (apply lookup_ge_None in Hi; exact Hi). reflexivity.
Qed.

Hypothesis Htimers : timers st0 = [].
Hypothesis Hjobs : jobs st0 = [].

Lemma Inv_after_call : ids <> [] -> (Inv random faults st0 ids) [] (seq 0 n0) (after_call faults st0 ids).
Proof.
  intros Hne.
  assert (HN : (0 < n0)%nat) by (destruct ids; [contradiction|simpl; lia]).
  assert (Hlen1 : length (promises st0 ++ [Pending []]) = S p0)
    by (rewrite length_app; simpl; lia).
  assert (Hrec : (all_rec st0) (after_call faults st0 ids) =
                 {| all_values := replicate n0 VUndefined; all_remaining := n0;
                    all_promise := S p0 + n0 |}).
  { unfold all_rec, after_call. proj. rewrite lookup_app_r by (lia).
    rewrite Nat.sub_diag. reflexivity. }
  assert (Hs : exists x0 l0, seq 0 n0 = x0 :: l0).
  { revert HN. generalize n0. intros [|n] Hn; [lia|]. simpl. eauto. }
  destruct Hs as (x0 & l0 & Hs).
  split; rewrite ?Hrec; [..|simpl failures; rewrite Hs; cbv iota];
    unfold after_call; proj.
  - rewrite Htimers. apply child_timers_seq.
  - exact Hjobs.
  - reflexivity.
  - rewrite !length_app, length_fmap, length_seq. simpl. lia.
  - intros q Hq. apply lookup_app_l. exact Hq.
  - intros i Hi. apply elem_of_seq in Hi.
    rewrite app_assoc. rewrite lookup_app_r by (rewrite Hlen1; lia).
    rewrite Hlen1. replace (S p0 + i - S p0)%nat with i by lia.
    rewrite lookup_app_l by (rewrite length_fmap, length_seq; lia).
    rewrite list_lookup_fmap, lookup_seq_lt by lia. reflexivity.
  - intros i Hi. inversion Hi.
  - rewrite lookup_app_r by (lia). rewrite Nat.sub_diag. reflexivity.
  - rewrite length_app. simpl. lia.
  - intros q Hq. apply lookup_app_l. exact Hq.
  - reflexivity.
  - apply length_replicate.
  - simpl. rewrite length_seq. reflexivity.
  - intros i Hi. inversion Hi.
  - intros l Hl. apply lookup_app_l. exact Hl.
  - simpl. lia.
  - reflexivity.
  - repeat split.
    + rewrite !app_assoc. rewrite lookup_app_r;
        rewrite !length_app, length_fmap, length_seq; cbn [length]; [|lia].
      match goal with |- [_] !! ?n = _ => replace n with 0%nat by (lia) end.
      reflexivity.
    + rewrite lookup_app_r by (lia). rewrite Nat.sub_diag. reflexivity.
    + rewrite length_app. simpl. lia.
Qed.

Lemma failures_snoc fired i :
  (failures faults ids) (fired ++ [i]) =
  (failures faults ids) fired ++ match faults ((id_at ids) i) with Some r => [r] | None => [] end.
Proof. unfold failures. rewrite omap_app. simpl. destruct (faults ((id_at ids) i)); reflexivity. Qed.

Lemma failures_length fired : (length ((failures faults ids) fired) <= length fired)%nat.
Proof.
  unfold failures. induction fired as [|j l IH]; [simpl; lia|].
  cbn [omap list_omap]. destruct (faults ((id_at ids) j)); cbn [length]; lia.
Qed.

Lemma failures_nil fired j :
  (failures faults ids) fired = [] -> j ∈ fired -> faults ((id_at ids) j) = None.
Proof.
  unfold failures. induction fired as [|x l IH]; intros Hf Hj; [inversion Hj|].
  simpl in Hf. destruct (faults ((id_at ids) x)) eqn:Hx; [discriminate|].
  apply elem_of_cons in Hj. destruct Hj as [->|Hj]; auto.
Qed.

Lemma Inv_fire fired pend st k i :
  (Inv random faults st0 ids) fired pend st -> pend !! k = Some i ->
  (Inv random faults st0 ids) (fired ++ [i]) (delete k pend) (fire random k st).
Proof.
  intros HI Hk.
  pose proof (inv_perm _ _ _ _ _ _ _ HI) as Hperm.
  assert (Hin : i ∈ pend) by (apply list_elem_of_lookup; eauto).
  assert (Hnd : NoDup (fired ++ pend)) by (rewrite Hperm; apply NoDup_seq).
  assert (HiN : (i < n0)%nat).
  { assert (Hs : i ∈ seq 0 n0) by (rewrite <- Hperm; apply elem_of_app; auto).
    apply elem_of_seq in Hs. lia. }
  apply NoDup_app in Hnd. destruct Hnd as (Hndf & Hdisj & Hndp).
  assert (Hinf : i ∉ fired) by (intros Hc; exact (Hdisj _ Hc Hin)).
  assert (Hpd : pend ≡ₚ i :: delete k pend) by (apply delete_Permutation; exact Hk).
  assert (Hperm' : (fired ++ [i]) ++ delete k pend ≡ₚ seq 0 n0).
  { rewrite <- Hperm, <- app_assoc. apply Permutation_app_head. simpl. symmetry. exact Hpd. }
  assert (Hdel : forall j, j ∈ delete k pend -> j ∈ pend /\ j <> i).
  { intros j Hj. split; [eapply list_elem_of_delete_inv; eauto|].
    intros ->. rewrite Hpd in Hndp. apply NoDup_cons in Hndp. tauto. }
  assert (Hlen : length pend = S (length (delete k pend))).
  { apply Permutation_length in Hpd. exact Hpd. }
  assert (Htk : timers st !! k = Some ((mk_timer faults st0 ids) i)).
  { rewrite (inv_timers _ _ _ _ _ _ _ HI), list_lookup_fmap, Hk. reflexivity. }
  pose proof (inv_pending _ _ _ _ _ _ _ HI i Hin) as Hpi.
  pose proof (inv_alls _ _ _ _ _ _ _ HI) as Ha.
  pose proof (inv_remaining _ _ _ _ _ _ _ HI) as Hrem.
  pose proof (inv_status _ _ _ _ _ _ _ HI) as Hst.
  pose proof (inv_plen _ _ _ _ _ _ _ HI) as Hplen.
  pose proof (inv_vlen _ _ _ _ _ _ _ HI) as Hvlen.
  pose proof (inv_alen _ _ _ _ _ _ _ HI) as Halen.
  pose proof (inv_clock _ _ _ _ _ _ _ HI) as Hclk.
  pose proof (inv_rng _ _ _ _ _ _ _ HI) as Hrng.
  pose proof (failures_length fired) as Hfl.
  pose proof (failures_snoc fired i) as Hfs.
  assert (Hclk' : Z.max (clock st0 + 1000) (clock st) = clock st0 + 1000)
    by (destruct fired; lia).
  assert (Hfne : match fired ++ [i] with [] => clock st0 | _ => clock st0 + 1000 end
                 = clock st0 + 1000) by (destruct fired; reflexivity).
  unfold mk_timer, callback_for in Htk.
  destruct (faults ((id_at ids) i)) as [r|] eqn:Hf.
  - (* the retrieval fails *)
    assert (Hrec : forall c r' co h ps ts js,
              (all_rec st0) {| clock := c; rng := r'; console := co; heap := h; promises := ps;
                         alls := alls st; timers := ts; jobs := js |} = (all_rec st0) st)
      by reflexivity.
    assert (HjN : forall j, j ∈ fired -> (j < n0)%nat /\ j <> i).
    { intros j Hj. split; [|intros ->; contradiction].
      assert (Hs : j ∈ seq 0 n0) by (rewrite <- Hperm; apply elem_of_app; auto).
      apply elem_of_seq in Hs. lia. }
    destruct ((failures faults ids) fired) as [|e fs] eqn:Hfail.
    + (* the first failure *)
      destruct pend as [|y pend'] eqn:Hpend; [inversion Hin|]. rewrite <- Hpend in *.
      destruct Hst as (Hcap & Hfn & Hcons & Hh).
      rewrite (fire_failure_first random st k _ _ (inv_jobs _ _ _ _ _ _ _ HI) _ _ _ _ _ Htk Hpi Hcap Hfn)
        by lia.
      split; rewrite ?Hrec; proj; rewrite ?Hfs.
      * rewrite (inv_timers _ _ _ _ _ _ _ HI). symmetry. apply list_fmap_delete.
      * reflexivity.
      * exact Hperm'.
      * rewrite !length_insert. exact Hplen.
      * intros q Hq. rewrite !list_lookup_insert_ne by lia.
        apply (inv_pframe _ _ _ _ _ _ _ HI); exact Hq.
      * intros j Hj. destruct (Hdel j Hj) as [Hjp Hji].
        assert (Hs : j ∈ seq 0 n0) by (rewrite <- Hperm; apply elem_of_app; auto).
        apply elem_of_seq in Hs.
        rewrite !list_lookup_insert_ne by lia. apply (inv_pending _ _ _ _ _ _ _ HI); exact Hjp.
      * intros j Hj. apply elem_of_app in Hj. destruct Hj as [Hj|Hj].
        -- destruct (HjN j Hj). rewrite !list_lookup_insert_ne by lia.
           apply (inv_settled _ _ _ _ _ _ _ HI); exact Hj.
        -- apply list_elem_of_singleton in Hj. subst j.
           rewrite !list_lookup_insert_ne by lia.
           rewrite list_lookup_insert_eq by lia. rewrite Hf. reflexivity.
      * exact Ha.
      * exact Halen.
      * apply (inv_aframe _ _ _ _ _ _ _ HI).
      * apply (inv_cap _ _ _ _ _ _ _ HI).
      * exact Hvlen.
      * rewrite Hrem. simpl. lia.
      * intros j Hj Hok. apply elem_of_app in Hj. destruct Hj as [Hj|Hj].
        -- apply (inv_values _ _ _ _ _ _ _ HI); assumption.
        -- apply list_elem_of_singleton in Hj. subst j. congruence.
      * apply (inv_hframe _ _ _ _ _ _ _ HI).
      * rewrite Hrng, length_app. simpl. lia.
      * rewrite Hclk', Hfne. reflexivity.
      * simpl. rewrite list_lookup_insert_ne by lia.
        rewrite list_lookup_insert_eq by (rewrite length_insert; lia).
        rewrite list_lookup_insert_eq by (rewrite !length_insert; lia).
        rewrite Hcons. auto.
    + (* a later failure *)
      destruct Hst as (Hcap & Hfn & Hcons & Hh).
      rewrite (fire_failure_later random st k _ _ (inv_jobs _ _ _ _ _ _ _ HI) _ _ _ _ _ Htk Hpi Hcap)
        by lia.
      split; rewrite ?Hrec; proj; rewrite ?Hfs.
      * rewrite (inv_timers _ _ _ _ _ _ _ HI). symmetry. apply list_fmap_delete.
      * reflexivity.
      * exact Hperm'.
      * rewrite !length_insert. exact Hplen.
      * intros q Hq. rewrite !list_lookup_insert_ne by lia.
        apply (inv_pframe _ _ _ _ _ _ _ HI); exact Hq.
      * intros j Hj. destruct (Hdel j Hj) as [Hjp Hji].
        rewrite !list_lookup_insert_ne by lia. apply (inv_pending _ _ _ _ _ _ _ HI); exact Hjp.
      * intros j Hj. apply elem_of_app in Hj. destruct Hj as [Hj|Hj].
        -- destruct (HjN j Hj). rewrite !list_lookup_insert_ne by lia.
           apply (inv_settled _ _ _ _ _ _ _ HI); exact Hj.
        -- apply list_elem_of_singleton in Hj. subst j.
           rewrite list_lookup_insert_eq by lia. rewrite Hf. reflexivity.
      * exact Ha.
      * exact Halen.
      * apply (inv_aframe _ _ _ _ _ _ _ HI).
      * apply (inv_cap _ _ _ _ _ _ _ HI).
      * exact Hvlen.
      * rewrite Hrem, length_app. simpl. lia.
      * intros j Hj Hok. apply elem_of_app in Hj. destruct Hj as [Hj|Hj].
        -- apply (inv_values _ _ _ _ _ _ _ HI); assumption.
        -- apply list_elem_of_singleton in Hj. subst j. congruence.
      * apply (inv_hframe _ _ _ _ _ _ _ HI).
      * rewrite Hrng, !length_app. simpl. lia.
      * rewrite Hclk', Hfne. reflexivity.
      * simpl. rewrite !list_lookup_insert_ne by lia. auto.
  - (* the retrieval succeeds *)
    rewrite app_nil_r in Hfs.
    destruct (all_remaining ((all_rec st0) st)) as [|[|n]] eqn:Hr.
    + lia.
    + (* the last result *)
      assert (Hfail : (failures faults ids) fired = []) by (destruct ((failures faults ids) fired); [reflexivity|simpl in *; lia]).
      assert (Hd : delete k pend = []) by (destruct (delete k pend); [reflexivity|simpl in *; lia]).
      rewrite Hfail in *.
      destruct pend as [|y pend'] eqn:Hpend; [inversion Hin|]. rewrite <- Hpend in *.
      destruct Hst as (Hcap & Hfn & Hcons & Hh).
      set (sample := VSample ((id_at ids) i) (VNumber (Number_mul (random (rng st)) hundred))).
      set (values := <[i := sample]> (all_values ((all_rec st0) st))).
      assert (HjN : forall j, (j < n0)%nat -> j <> i -> j ∈ fired).
      { intros j Hj Hji.
        assert (Hs : j ∈ fired ++ pend) by (rewrite Hperm; apply elem_of_seq; lia).
        apply elem_of_app in Hs. destruct Hs as [Hs|Hs]; [exact Hs|].
        rewrite Hpd, Hd in Hs. apply list_elem_of_singleton in Hs. contradiction. }
      assert (HNj : forall j, j ∈ fired -> (j < n0)%nat /\ j <> i).
      { intros j Hj. split; [|intros ->; contradiction].
        assert (Hs : j ∈ seq 0 n0) by (rewrite <- Hperm; apply elem_of_app; auto).
        apply elem_of_seq in Hs. lia. }
      assert (Hsamples : forallb is_sample values = true).
      { apply Is_true_true, forallb_True, Forall_lookup_2. intros j x Hx.
        destruct (decide (j = i)) as [->|Hji].
        - unfold values in Hx. rewrite list_lookup_insert_eq in Hx by lia.
          injection Hx as <-. exact I.
        - unfold values in Hx. rewrite list_lookup_insert_ne in Hx by auto.
          assert (Hj : (j < n0)%nat) by (apply lookup_lt_Some in Hx; lia).
          destruct (inv_values _ _ _ _ _ _ _ HI j (HjN j Hj Hji)
                      (failures_nil fired j Hfail (HjN j Hj Hji))) as [m Hm].
          rewrite Hm in Hx. injection Hx as <-. exact I. }
      rewrite (fire_success_last random st k _ _ (inv_jobs _ _ _ _ _ _ _ HI) _ _ _ _ _ p0
                 Htk Hpi Ha Hr (inv_cap _ _ _ _ _ _ _ HI) Hcap Hfn) by (lia || exact Hsamples).
      fold sample. fold values.
      set (rec' := {| all_values := values; all_remaining := 0; all_promise := (S p0 + n0)%nat |}).
      assert (Hrec : forall c r co h ps ts js,
                (all_rec st0) {| clock := c; rng := r; console := co; heap := h; promises := ps;
                           alls := <[a0 := rec']> (alls st); timers := ts; jobs := js |} = rec').
      { intros. unfold all_rec. proj. rewrite list_lookup_insert_eq by lia. reflexivity. }
      split; rewrite ?Hrec; proj; rewrite ?Hfs, ?Hd.
      * rewrite (inv_timers _ _ _ _ _ _ _ HI). rewrite <- list_fmap_delete, Hd. reflexivity.
      * reflexivity.
      * rewrite Hd in Hperm'. exact Hperm'.
      * rewrite !length_insert. exact Hplen.
      * intros q Hq. rewrite !list_lookup_insert_ne by lia.
        apply (inv_pframe _ _ _ _ _ _ _ HI); exact Hq.
      * intros j Hj. inversion Hj.
      * intros j Hj. apply elem_of_app in Hj. destruct Hj as [Hj|Hj].
        -- destruct (HNj j Hj). rewrite !list_lookup_insert_ne by lia.
           cbn [all_values rec']. unfold values. rewrite list_lookup_insert_ne by auto.
           apply (inv_settled _ _ _ _ _ _ _ HI); exact Hj.
        -- apply list_elem_of_singleton in Hj. subst j.
           rewrite !list_lookup_insert_ne by lia.
           rewrite list_lookup_insert_eq by lia. rewrite Hf.
           cbn [all_values rec']. unfold values.
           rewrite list_lookup_insert_eq by lia. reflexivity.
      * apply list_lookup_insert_eq. lia.
      * rewrite length_insert. exact Halen.
      * intros q Hq. rewrite list_lookup_insert_ne by lia. apply (inv_aframe _ _ _ _ _ _ _ HI); exact Hq.
      * reflexivity.
      * cbn [all_values rec']. unfold values. rewrite length_insert. exact Hvlen.
      * reflexivity.
      * intros j Hj Hok. apply elem_of_app in Hj. destruct Hj as [Hj|Hj].
        -- destruct (HNj j Hj).
           cbn [all_values rec']. unfold values. rewrite list_lookup_insert_ne by auto.
           apply (inv_values _ _ _ _ _ _ _ HI); assumption.
        -- apply list_elem_of_singleton in Hj. subst j.
           exists (rng st). cbn [all_values rec']. apply list_lookup_insert_eq. lia.
      * intros l Hl. rewrite lookup_app_l by lia. apply (inv_hframe _ _ _ _ _ _ _ HI); exact Hl.
      * rewrite Hrng, length_app. simpl. lia.
      * rewrite Hclk', Hfne. reflexivity.
      * simpl. rewrite list_lookup_insert_ne by lia.
        rewrite list_lookup_insert_eq by (rewrite length_insert; lia).
        rewrite list_lookup_insert_eq by (rewrite !length_insert; lia).
        rewrite Hh, Hcons, length_app. simpl.
        rewrite lookup_app_r by lia. rewrite Hh, Nat.sub_diag.
        repeat split; try reflexivity. lia.
    + (* more results are awaited *)
      rewrite (fire_success_more random st k _ _ (inv_jobs _ _ _ _ _ _ _ HI) _ _ _ _ _ _ Htk Hpi Ha Hr).
      set (sample := VSample ((id_at ids) i) (VNumber (Number_mul (random (rng st)) hundred))).
      set (rec' := {| all_values := <[i := sample]> (all_values ((all_rec st0) st));
                      all_remaining := S n; all_promise := all_promise ((all_rec st0) st) |}).
      assert (Hrec : forall c r co h ps ts js,
                (all_rec st0) {| clock := c; rng := r; console := co; heap := h; promises := ps;
                           alls := <[a0 := rec']> (alls st); timers := ts; jobs := js |} = rec').
      { intros. unfold all_rec. proj. rewrite list_lookup_insert_eq by lia. reflexivity. }
      split; rewrite ?Hrec; proj; rewrite ?Hfs.
      * rewrite (inv_timers _ _ _ _ _ _ _ HI). symmetry. apply list_fmap_delete.
      * reflexivity.
      * exact Hperm'.
      * rewrite length_insert. exact Hplen.
      * intros q Hq. rewrite list_lookup_insert_ne by lia. apply (inv_pframe _ _ _ _ _ _ _ HI); exact Hq.
      * intros j Hj. destruct (Hdel j Hj) as [Hjp Hji].
        rewrite list_lookup_insert_ne by lia. apply (inv_pending _ _ _ _ _ _ _ HI); exact Hjp.
      * intros j Hj. apply elem_of_app in Hj. destruct Hj as [Hj|Hj].
        -- assert (j <> i) by (intros ->; contradiction).
           rewrite list_lookup_insert_ne by lia.
           cbn [all_values rec']. rewrite list_lookup_insert_ne by auto.
           apply (inv_settled _ _ _ _ _ _ _ HI); exact Hj.
        -- apply list_elem_of_singleton in Hj. subst j.
           rewrite list_lookup_insert_eq by lia. rewrite Hf.
           cbn [all_values rec']. rewrite list_lookup_insert_eq by lia. reflexivity.
      * apply list_lookup_insert_eq. lia.
      * rewrite length_insert. exact Halen.
      * intros q Hq. rewrite list_lookup_insert_ne by lia. apply (inv_aframe _ _ _ _ _ _ _ HI); exact Hq.
      * apply (inv_cap _ _ _ _ _ _ _ HI).
      * cbn [all_values rec']. rewrite length_insert. exact Hvlen.
      * cbn [all_remaining rec']. lia.
      * intros j Hj Hok. apply elem_of_app in Hj. destruct Hj as [Hj|Hj].
        -- assert (j <> i) by (intros ->; contradiction).
           cbn [all_values rec']. rewrite list_lookup_insert_ne by auto.
           apply (inv_values _ _ _ _ _ _ _ HI); assumption.
        -- apply list_elem_of_singleton in Hj. subst j.
           exists (rng st). cbn [all_values rec']. apply list_lookup_insert_eq. lia.
      * apply (inv_hframe _ _ _ _ _ _ _ HI).
      * rewrite Hrng, length_app. simpl. lia.
      * rewrite Hclk', Hfne. reflexivity.
      * rewrite !list_lookup_insert_ne by lia.
        destruct ((failures faults ids) fired) as [|e fs] eqn:Hfail.
        -- destruct (delete k pend) as [|x l] eqn:Hd; [simpl in *; lia|].
           destruct pend as [|y pend']; [inversion Hin|]. exact Hst.
        -- exact Hst.
Qed.

Lemma fire_all_Inv ks : forall fired pend st,
  (Inv random faults st0 ids) fired pend st -> schedule_ok (length pend) ks = true ->
  (Inv random faults st0 ids) (fired ++ firing_order pend ks) [] (fire_all random ks st).
Proof.
  induction ks as [|k ks IH]; intros fired pend st HI Hok.
  - destruct pend; [|discriminate]. simpl. rewrite app_nil_r. exact HI.
  - simpl in Hok. destruct (length pend) as [|n] eqn:Hn; [discriminate|].
    apply andb_true_iff in Hok. destruct Hok as [Hk Hok].
    apply Nat.ltb_lt in Hk.
    destruct (lookup_lt_is_Some_2 pend k ltac:(lia)) as [i Hi].
    simpl. rewrite Hi.
    replace (fired ++ i :: firing_order (delete k pend) ks)
      with ((fired ++ [i]) ++ firing_order (delete k pend) ks)
      by (rewrite <- app_assoc; reflexivity).
    apply IH; [apply Inv_fire; assumption|].
    rewrite length_delete by eauto. rewrite Hn. simpl. rewrite Nat.sub_0_r. exact Hok.
Qed.

Lemma earliest_same_due (ts : list timer) d :
  (forall t, t ∈ ts -> due t = d) -> earliest ts = 0%nat.
Proof.
  intros Hd. destruct ts as [|t rest]; [reflexivity|]. simpl.
  destruct (rest !! earliest rest) as [t'|] eqn:Ht; [|reflexivity].
  assert (due t' = d) by (apply Hd; right; apply list_elem_of_lookup; eauto).
  assert (due t = d) by (apply Hd; left).
  replace (due t' <? due t) with false by (symmetry; apply Z.ltb_ge; lia).
  reflexivity.
Qed.

Lemma tick_Inv fired i pend st :
  (Inv random faults st0 ids) fired (i :: pend) st -> (Inv random faults st0 ids) (fired ++ [i]) pend (tick random st).
Proof.
  intros HI. unfold tick.
  rewrite (earliest_same_due (timers st) (clock st0 + 1000)).
  - apply (Inv_fire fired (i :: pend) st 0 i HI). reflexivity.
  - intros t Ht. rewrite (inv_timers _ _ _ _ _ _ _ HI) in Ht.
    apply list_elem_of_fmap in Ht. destruct Ht as (j & -> & _). reflexivity.
Qed.

Lemma iter_tick_Inv pend : forall fired st,
  (Inv random faults st0 ids) fired pend st -> (Inv random faults st0 ids) (fired ++ pend) [] (Nat.iter (length pend) (tick random) st).
Proof.
  induction pend as [|i pend IH]; intros fired st HI.
  - simpl. rewrite app_nil_r. exact HI.
  - cbn [length]. rewrite Nat.iter_succ_r.
    replace (fired ++ i :: pend) with ((fired ++ [i]) ++ pend)
      by (rewrite <- app_assoc; reflexivity).
    apply IH. apply tick_Inv. exact HI.
Qed.

Lemma event_loop_Inv pend st :
  (Inv random faults st0 ids) [] pend st -> (Inv random faults st0 ids) pend [] (event_loop random st).
Proof.
  intros HI. unfold event_loop. rewrite (drain_nil st (inv_jobs _ _ _ _ _ _ _ HI)).
  cbv zeta. rewrite (inv_timers _ _ _ _ _ _ _ HI), length_fmap.
  apply (iter_tick_Inv pend [] st HI).
Qed.

Variable a : nat.
Hypothesis Hheap : heap st0 !! a = Some ids.

Lemma call_empty_eq :
  ids = [] ->
  (the_call faults a) st0 =
  (VPromise p0,
   {| clock := clock st0; rng := rng st0; console := console st0;
      heap := heap st0 ++ [[]; []];
      promises := promises st0 ++ [Pending []; Fulfilled (VArray (S h0))];
      alls := alls st0 ++ [{| all_values := []; all_remaining := 0; all_promise := S p0 |}];
      timers := []; jobs := [(ResumeAfterAwait p0, VArray (S h0))] |}).
Proof.
  intros Hnil. rewrite Hnil in Hheap.
  unfold the_call, fetchTelemetryForMultipleVehicles_with, bind, new_promise, Array_map.
    proj. rewrite Hheap. cbn [map_calls]. unfold bind, ret, new_array. proj.
    unfold Promise_all, bind, new_promise. proj.
    rewrite lookup_app_r by lia. rewrite Nat.sub_diag. cbn [lookup list_lookup].
    cbn [Promise_all_loop]. unfold bind, ret, all_countdown. proj.
    rewrite lookup_app_r by lia. rewrite Nat.sub_diag. cbn [lookup list_lookup].
    cbn [all_remaining all_values all_promise pred].
    unfold bind, new_array, resolve. proj.
    rewrite lookup_app_r by (rewrite length_app; simpl; lia).
    rewrite length_app. cbn [length].
    replace (length (promises st0) + 1 - (length (promises st0) + 1))%nat with 0%nat by lia.
    cbn [lookup list_lookup fmap list_fmap]. proj.
    unfold then_. proj.
    rewrite list_lookup_insert_eq by (rewrite !length_app; simpl; lia).
    cbn [on_fulfilled]. 
    f_equal. apply State_eq; proj; rewrite ?Htimers, ?Hjobs; try reflexivity.
    - rewrite <- app_assoc. reflexivity.
    - rewrite insert_app_r_alt by (rewrite length_app; simpl; lia).
      rewrite !length_app. cbn [length].
      replace (p0 + 1 - (length (promises st0) + 1))%nat with 0%nat by (lia).
      cbn [insert list_insert]. rewrite <- app_assoc. simpl.
      replace (length (heap st0) + 1)%nat with (S h0) by (lia). reflexivity.
    - rewrite insert_app_r_alt by lia. rewrite Nat.sub_diag. simpl.
      replace (p0 + 1)%nat with (S p0) by lia. reflexivity.
    - rewrite length_app. simpl.
      replace (length (heap st0) + 1)%nat with (S h0) by (lia). reflexivity.
Qed.

Lemma call_empty :
  ids = [] ->
  fst ((the_call faults a) st0) = VPromise p0 /\ drain (snd ((the_call faults a) st0)) = (after_empty_call st0).
Proof.
  intros Hnil. rewrite (call_empty_eq Hnil). split; [reflexivity|]. cbn [snd].
  erewrite drain_cons by (proj; reflexivity).
  cbn [run_handler]. unfold after_await, bind, console_log, modify, return_undefined. proj.
  rewrite lookup_app_r by (lia).
  replace (S h0 - length (heap st0))%nat with 1%nat by (lia).
  cbn [lookup list_lookup forEach_log]. unfold ret, resolve. proj.
  rewrite lookup_app_r by (lia). rewrite Nat.sub_diag.
  cbn [lookup list_lookup fmap list_fmap]. proj.
  rewrite drain_nil by reflexivity.
  apply State_eq; proj; try reflexivity.
  rewrite insert_app_r_alt by (lia). rewrite Nat.sub_diag. reflexivity.
Qed.

Lemma Inv_after_empty_call : ids = [] -> (Inv random faults st0 ids) [] [] (after_empty_call st0).
Proof.
  intros Hnil.
  assert (HN : n0 = 0%nat) by (rewrite Hnil; reflexivity).
  assert (Hrec : (all_rec st0) (after_empty_call st0) =
                 {| all_values := []; all_remaining := 0; all_promise := S p0 |}).
  { unfold all_rec, after_empty_call. proj. rewrite lookup_app_r by (lia).
    rewrite Nat.sub_diag. reflexivity. }
  split; rewrite ?Hrec, ?HN; unfold after_empty_call; proj.
  - reflexivity.
  - reflexivity.
  - reflexivity.
  - rewrite length_app. simpl. lia.
  - intros q Hq. apply lookup_app_l. exact Hq.
  - intros i Hi. inversion Hi.
  - intros i Hi. inversion Hi.
  - rewrite lookup_app_r by (lia). rewrite Nat.sub_diag. reflexivity.
  - rewrite length_app. simpl. lia.
  - intros q Hq. apply lookup_app_l. exact Hq.
  - simpl. lia.
  - reflexivity.
  - reflexivity.
  - intros i Hi. inversion Hi.
  - intros l Hl. apply lookup_app_l. exact Hl.
  - simpl. lia.
  - reflexivity.
  - simpl failures. cbv iota.
    rewrite !lookup_app_r by (lia).
    replace (S p0 + 0 - length (promises st0))%nat with 1%nat by (lia).
    replace (p0 - length (promises st0))%nat with 0%nat by (lia).
    replace (S h0 - length (heap st0))%nat with 1%nat by (lia).
    rewrite length_app. simpl. repeat split; try reflexivity. lia.
Qed.

Lemma Inv_start :
  fst ((the_call faults a) st0) = VPromise p0 /\ (Inv random faults st0 ids) [] (seq 0 n0) (drain (snd ((the_call faults a) st0))).
Proof.
  destruct (nil_or_not ids) as [Hnil|Hne].
  - destruct (call_empty Hnil) as [Hv Hd]. split; [exact Hv|].
    assert (HN : n0 = 0%nat) by (rewrite Hnil; reflexivity).
    rewrite Hd, HN. apply Inv_after_empty_call. exact Hnil.
  - unfold the_call. rewrite (call_nonempty faults st0 a ids Hheap Hne).
    split; [reflexivity|]. cbn [snd].
    rewrite drain_nil by (unfold after_call; proj; exact Hjobs).
    apply Inv_after_call. exact Hne.
Qed.

(** The host run to the end, timers in due order. *)
Lemma run_Inv :
  fst (run_script random (the_call faults a) st0) = VPromise p0 /\
  (Inv random faults st0 ids) (seq 0 n0) [] (snd (run_script random (the_call faults a) st0)).
Proof.
  destruct Inv_start as [Hv HI]. unfold run_script.
  destruct ((the_call faults a) st0) as [v st1] eqn:Hc. cbn [fst snd] in *.
  split; [exact Hv|].
  unfold event_loop. cbv zeta.
  rewrite (inv_timers _ _ _ _ _ _ _ HI), length_fmap.
  apply (iter_tick_Inv (seq 0 n0) [] _ HI).
Qed.

(** The host run to the end, timers in any order. *)
Lemma schedule_Inv ks :
  schedule_ok n0 ks = true ->
  (Inv random faults st0 ids) (firing_order (seq 0 n0) ks) [] (fire_all random ks (drain (snd ((the_call faults a) st0)))).
Proof.
  intros Hok. destruct Inv_start as [_ HI].
  apply (fire_all_Inv ks [] (seq 0 n0) _ HI). rewrite length_seq. exact Hok.
Qed.

End Progress.

(** ** What a finished run looks like *)

Lemma line_of_zip ids : forall xs,
  line_of <$> zip_with VSample ids xs = zip_with LogVehicle ids xs.
Proof.
  induction ids as [|v ids IH]; intros [|x xs]; simpl; try reflexivity.
  f_equal. apply IH.
Qed.

Lemma vehicle_lines_zip ids : forall xs,
  vehicle_lines (zip_with LogVehicle ids xs) = zip ids xs.
Proof.
  induction ids as [|v ids IH]; intros [|x xs]; simpl; try reflexivity.
  f_equal. apply IH.
Qed.

Lemma id_at_seq ids : id_at ids <$> seq 0 (length ids) = ids.
Proof.
  apply list_eq. intros i. rewrite list_lookup_fmap.
  destruct (ids !! i) as [v|] eqn:Hi.
  - rewrite lookup_seq_lt by (eapply lookup_lt_Some; eauto).
    simpl. unfold id_at. rewrite Hi. reflexivity.
  - rewrite lookup_seq_ge by (apply lookup_ge_None; exact Hi). reflexivity.
Qed.

Lemma omap_fmap_compose {X Y Z} (f : Y -> option Z) (g : X -> Y) (l : list X) :
  omap f (g <$> l) = omap (fun x => f (g x)) l.
Proof.
  induction l as [|x l IH]; [reflexivity|].
  rewrite fmap_cons. cbn [omap list_omap]. rewrite <- IH. reflexivity.
Qed.

Lemma failures_seq faults ids :
  failures faults ids (seq 0 (length ids)) = omap faults ids.
Proof.
  unfold failures. rewrite <- omap_fmap_compose, id_at_seq. reflexivity.
Qed.

Section Final.

Variable random : nat -> Number.
Variable faults : value -> option value.
Variables (st0 : State) (ids : list value) (fired : list nat) (st : State).
Hypothesis HI : Inv random faults st0 ids fired [] st.

Lemma fired_all i : (i < length ids)%nat -> i ∈ fired.
Proof.
  intros Hi. pose proof (inv_perm _ _ _ _ _ _ _ HI) as Hp.
  rewrite app_nil_r in Hp. rewrite Hp. apply elem_of_seq. lia.
Qed.

Lemma final_frame :
  timers st = [] /\ jobs st = [] /\
  (forall l, (l < length (heap st0))%nat -> heap st !! l = heap st0 !! l) /\
  (forall q, (q < length (promises st0))%nat -> promises st !! q = promises st0 !! q) /\
  (forall q, (q < length (alls st0))%nat -> alls st !! q = alls st0 !! q) /\
  promises st !! length (promises st0) = Some (Fulfilled VUndefined).
Proof.
  split; [rewrite (inv_timers _ _ _ _ _ _ _ HI); reflexivity|].
  split; [apply (inv_jobs _ _ _ _ _ _ _ HI)|].
  split; [apply (inv_hframe _ _ _ _ _ _ _ HI)|].
  split; [apply (inv_pframe _ _ _ _ _ _ _ HI)|].
  split; [apply (inv_aframe _ _ _ _ _ _ _ HI)|].
  pose proof (inv_status _ _ _ _ _ _ _ HI) as Hst.
  destruct (failures faults ids fired); tauto.
Qed.

Lemma final_failure e fs :
  failures faults ids fired = e :: fs ->
  console st = console st0 ++ [error_line e] /\
  length (heap st) = S (length (heap st0)).
Proof.
  intros Hf. pose proof (inv_status _ _ _ _ _ _ _ HI) as Hst.
  rewrite Hf in Hst. tauto.
Qed.

Lemma final_success :
  failures faults ids fired = [] ->
  exists speeds,
    length speeds = length ids /\
    Forall (fun s => exists n, s = Number_mul (random n) hundred) speeds /\
    console st = console st0 ++
                 Log "Telemetry Data:" :: zip_with LogVehicle ids (VNumber <$> speeds) /\
    heap st !! S (length (heap st0)) = Some (zip_with VSample ids (VNumber <$> speeds)).
Proof.
  intros Hf. pose proof (inv_status _ _ _ _ _ _ _ HI) as Hst.
  rewrite Hf in Hst. destruct Hst as (_ & _ & Hcons & Hheap & _).
  pose proof (inv_vlen _ _ _ _ _ _ _ HI) as Hvlen.
  set (values := all_values (all_rec st0 st)) in *.
  assert (Hval : forall i, (i < length ids)%nat ->
            exists n, values !! i =
              Some (VSample (id_at ids i) (VNumber (Number_mul (random n) hundred)))).
  { intros i Hi. apply (inv_values _ _ _ _ _ _ _ HI); [apply fired_all; exact Hi|].
    apply (failures_nil faults ids fired i Hf). apply fired_all; exact Hi. }
  exists (sample_speed <$> values).
  assert (Hzip : values = zip_with VSample ids (VNumber <$> (sample_speed <$> values))).
  { apply list_eq. intros i. rewrite lookup_zip_with, !list_lookup_fmap.
    destruct (decide (i < length ids)%nat) as [Hi|Hi].
    - destruct (Hval i Hi) as [n Hn]. rewrite Hn.
      destruct (lookup_lt_is_Some_2 ids i Hi) as [v Hv].
      unfold id_at. rewrite Hv. reflexivity.
    - rewrite (lookup_ge_None_2 values) by lia.
      rewrite (lookup_ge_None_2 ids) by lia. reflexivity. }
  split; [rewrite length_fmap; exact Hvlen|].
  split.
  - apply Forall_lookup_2. intros i s Hs. rewrite list_lookup_fmap in Hs.
    destruct (values !! i) as [v|] eqn:Hv; [|discriminate].
    injection Hs as <-.
    assert (Hi : (i < length ids)%nat) by (apply lookup_lt_Some in Hv; lia).
    destruct (Hval i Hi) as [n Hn]. rewrite Hn in Hv. injection Hv as <-.
    exists n. reflexivity.
  - split.
    + rewrite Hcons. rewrite Hzip at 1. rewrite line_of_zip. reflexivity.
    + rewrite Hheap. f_equal. exact Hzip.
Qed.

End Final.

(** ** One retrieval, and a call on something that is not an array *)

Lemma fetchTelemetryData_eq v st :
  fetchTelemetryData v st =
  (VPromise (length (promises st)),
   {| clock := clock st; rng := rng st; console := console st; heap := heap st;
      promises := promises st ++ [Pending []]; alls := alls st;
      timers := timers st ++ [{| due := clock st + 1000;
                                 action := SimulatedResponse (length (promises st)) v |}];
      jobs := jobs st |}).
Proof. reflexivity. Qed.

Lemma fetchTelemetryData_run random v st :
  quiescent st ->
  run_script random (fetchTelemetryData v) st =
  (VPromise (length (promises st)),
   {| clock := clock st + 1000; rng := S (rng st); console := console st; heap := heap st;
      promises := promises st ++
        [Fulfilled (VSample v (VNumber (Number_mul (random (rng st)) hundred)))];
      alls := alls st; timers := []; jobs := [] |}).
Proof.
  intros [Ht Hj]. unfold run_script. rewrite fetchTelemetryData_eq. f_equal.
  unfold event_loop. rewrite drain_nil by exact Hj. cbv zeta. proj. rewrite Ht.
  cbn [app length Nat.iter nat_rect]. unfold tick. proj. cbn [earliest lookup list_lookup].
  unfold fire. proj. cbn [lookup list_lookup action due].
  unfold run_callback, bind, Math_random, ret, resolve. proj.
  rewrite lookup_app_r by lia. rewrite Nat.sub_diag. cbn [lookup list_lookup fmap list_fmap].
  proj. rewrite Hj. rewrite drain_nil by reflexivity.
  apply State_eq; proj; try reflexivity.
  - lia.
  - rewrite insert_app_r_alt by lia. rewrite Nat.sub_diag. reflexivity.
Qed.

Lemma call_not_array random fetch input st :
  quiescent st -> is_array_in st input = false ->
  run_script random (fetchTelemetryForMultipleVehicles_with fetch input) st =
  (VPromise (length (promises st)),
   {| clock := clock st; rng := rng st;
      console := console st ++ [error_line VTypeError]; heap := heap st;
      promises := promises st ++ [Fulfilled VUndefined];
      alls := alls st; timers := []; jobs := [] |}).
Proof.
  intros [Ht Hj] Hin.
  assert (Hmap : forall s, heap s = heap st ->
            Array_map (fun vehicleId => fetch vehicleId) input s = (inl VTypeError, s)).
  { intros s Hs. unfold Array_map. destruct input; try reflexivity.
    rewrite Hs. simpl in Hin. destruct (heap st !! a); [discriminate|reflexivity]. }
  unfold run_script, fetchTelemetryForMultipleVehicles_with, bind, new_promise.
  rewrite Hmap by reflexivity.
  unfold catch_block, bind, console_error, modify, return_undefined, resolve, ret. proj.
  rewrite lookup_app_r by lia. rewrite Nat.sub_diag. cbn [lookup list_lookup fmap list_fmap].
  f_equal. unfold event_loop. proj. rewrite drain_nil by (proj; rewrite Hj; reflexivity).
  cbv zeta. proj. rewrite Ht. cbn [length Nat.iter nat_rect].
  apply State_eq; proj; rewrite ?Hj; try reflexivity.
  - rewrite insert_app_r_alt by lia. rewrite Nat.sub_diag. reflexivity.
  - exact Ht.
Qed.

(** ** The claims *)

Lemma printed_app st0 st out : console st = console st0 ++ out -> printed st0 st = out.
Proof. intros H. unfold printed. rewrite H. apply drop_app_length. Qed.

Lemma omap_faults_nil {X} (faults : X -> option value) (ids : list X) :
  Forall (fun v => faults v = None) ids -> omap faults ids = [].
Proof.
  induction 1 as [|v l Hv _ IH]; [reflexivity|].
  cbn [omap list_omap]. rewrite Hv. exact IH.
Qed.

Lemma run_success random faults st0 a ids :
  quiescent st0 -> heap st0 !! a = Some ids -> omap faults ids = [] ->
  exists speeds,
    length speeds = length ids /\
    Forall (fun s => exists n, s = Number_mul (random n) hundred) speeds /\
    printed st0 (snd (run_script random
       (fetchTelemetryForMultipleVehicles_with (fetch_with_faults faults) (VArray a)) st0))
      = Log "Telemetry Data:" :: zip_with LogVehicle ids (VNumber <$> speeds) /\
    heap (snd (run_script random
       (fetchTelemetryForMultipleVehicles_with (fetch_with_faults faults) (VArray a)) st0))
      !! S (length (heap st0)) = Some (zip_with VSample ids (VNumber <$> speeds)).
Proof.
  intros [Ht Hj] Hh Hok.
  destruct (run_Inv random faults st0 ids Ht Hj a Hh) as [_ HI].
  destruct (final_success random faults st0 ids _ _ HI) as (speeds & Hl & Hs & Hc & Hr).
  { rewrite failures_seq. exact Hok. }
  exists speeds. repeat split; try assumption.
  apply printed_app. exact Hc.
Qed.

Lemma schedule_success random st0 a ids ks :
  quiescent st0 -> heap st0 !! a = Some ids -> schedule_ok (length ids) ks = true ->
  exists speeds,
    length speeds = length ids /\
    printed st0 (fire_all random ks
       (drain (snd (fetchTelemetryForMultipleVehicles (VArray a) st0))))
      = Log "Telemetry Data:" :: zip_with LogVehicle ids (VNumber <$> speeds).
Proof.
  intros [Ht Hj] Hh Hok.
  pose proof (schedule_Inv random no_faults st0 ids Ht Hj a Hh ks Hok) as HI.
  destruct (final_success random no_faults st0 ids _ _ HI) as (speeds & Hl & Hs & Hc & Hr).
  { apply (omap_faults_nil (fun i => no_faults (id_at ids i))).
    apply Forall_forall. reflexivity. }
  exists speeds. split; [exact Hl|]. apply printed_app. exact Hc.
Qed.

Lemma report_of_lines st0 st ids xs :
  length xs = length ids ->
  printed st0 st = Log "Telemetry Data:" :: zip_with LogVehicle ids xs ->
  report_of st0 st = zip ids xs.
Proof.
  intros Hl Hp. unfold report_of. rewrite Hp.
  change (vehicle_lines (Log "Telemetry Data:" :: ?l)) with (vehicle_lines l).
  apply vehicle_lines_zip.
Qed.

Lemma run_failure random faults st0 a ids e fs :
  quiescent st0 -> heap st0 !! a = Some ids -> omap faults ids = e :: fs ->
  printed st0 (snd (run_script random
     (fetchTelemetryForMultipleVehicles_with (fetch_with_faults faults) (VArray a)) st0))
    = [error_line e] /\
  length (heap (snd (run_script random
     (fetchTelemetryForMultipleVehicles_with (fetch_with_faults faults) (VArray a)) st0)))
    = S (length (heap st0)).
Proof.
  intros [Ht Hj] Hh Hf.
  destruct (run_Inv random faults st0 ids Ht Hj a Hh) as [_ HI].
  destruct (final_failure random faults st0 ids _ _ HI e fs) as [Hc Hl].
  { rewrite failures_seq. exact Hf. }
  split; [apply printed_app; exact Hc|exact Hl].
Qed.

Lemma run_promise random faults st0 input :
  quiescent st0 ->
  fst (run_script random
     (fetchTelemetryForMultipleVehicles_with (fetch_with_faults faults) input) st0)
    = VPromise (length (promises st0)) /\
  promises (snd (run_script random
     (fetchTelemetryForMultipleVehicles_with (fetch_with_faults faults) input) st0))
    !! length (promises st0) = Some (Fulfilled VUndefined).
Proof.
  intros Hq.
  destruct (is_array_in st0 input) eqn:Hin.
  - destruct input; try discriminate. simpl in Hin.
    destruct (heap st0 !! a) as [ids|] eqn:Hh; [|discriminate].
    destruct Hq as [Ht Hj].
    destruct (run_Inv random faults st0 ids Ht Hj a Hh) as [Hv HI].
    split; [exact Hv|].
    apply (final_frame random faults st0 ids _ _ HI).
  - rewrite (call_not_array random _ input st0 Hq Hin). split; [reflexivity|].
    proj. rewrite lookup_app_r by lia. rewrite Nat.sub_diag. reflexivity.
Qed.

Lemma always_half_ok : forall n, in_unit_interval (always_half n) = true.
Proof. intros n. reflexivity. Qed.

Lemma at_line_88_quiescent : quiescent at_line_88.
Proof. split; reflexivity. Qed.

(** C1.  When every retrieval succeeds, the report has exactly one entry per
    input identifier, in input order; the awaited array [telemetryData] holds
    these same entries. *)
Theorem fetchAll_report_complete_and_ordered random faults st0 a ids :
  quiescent st0 -> heap st0 !! a = Some ids ->
  Forall (fun vehicleId => faults vehicleId = None) ids ->
  let st := snd (run_script random
      (fetchTelemetryForMultipleVehicles_with (fetch_with_faults faults) (VArray a)) st0) in
  length (report_of st0 st) = length ids /\
  (report_of st0 st).*1 = ids /\
  exists telemetryData,
    heap st !! telemetryData = Some (uncurry VSample <$> report_of st0 st).
Proof.
  intros Hq Hh Hok st.
  destruct (run_success random faults st0 a ids Hq Hh (omap_faults_nil _ _ Hok))
    as (speeds & Hl & _ & Hp & Hr).
  fold st in Hp, Hr.
  rewrite (report_of_lines st0 st ids (VNumber <$> speeds))
    by (rewrite ?length_fmap; assumption).
  split; [rewrite length_zip, length_fmap, Hl; lia|].
  split; [apply fst_zip; rewrite length_fmap; lia|].
  exists (S (length (heap st0))). rewrite Hr. f_equal.
  rewrite zip_with_zip. reflexivity.
Qed.

Lemma fetchAll_report_complete_and_ordered_witness :
  length (report_of at_line_88
     (snd (run_script always_half
        (fetchTelemetryForMultipleVehicles_with (fetch_with_faults no_faults) (VArray 0))
        at_line_88))) = 5%nat.
Proof.
  apply (fetchAll_report_complete_and_ordered always_half no_faults at_line_88 0
           vehicleIds_literal).
  - split; reflexivity.
  - reflexivity.
  - apply Forall_forall. reflexivity.
Defined.


Lemma run_script_bind {X Y} random (m : M X) (k : X -> M Y) st x st' :
  m st = (x, st') -> run_script random (bind m k) st = run_script random (k x) st'.
Proof. intros H. unfold run_script, bind. rewrite H. reflexivity. Qed.

Lemma at_line_88_heap : heap at_line_88 !! 0%nat = Some vehicleIds_literal.
Proof. reflexivity. Qed.

Lemma printed_same_console st0 st0' st :
  console st0 = console st0' -> printed st0 st = printed st0' st.
Proof. unfold printed. intros ->. reflexivity. Qed.

Lemma main_eq random :
  run_script random main initial =
  run_script random (fetchTelemetryForMultipleVehicles (VArray 0)) at_line_88.
Proof.
  unfold main.
  apply (run_script_bind random (new_array vehicleIds_literal)
           (fun vehicleIds => fetchTelemetryForMultipleVehicles (VArray vehicleIds))).
  reflexivity.
Qed.

Lemma source_is_fault_free :
  fetchTelemetryForMultipleVehicles_with (fetch_with_faults no_faults)
  = fetchTelemetryForMultipleVehicles.
Proof. reflexivity. Qed.

(** C2.  The i-th entry of the report carries the i-th input identifier; the
    script's own call on [1,2,3,4,5] prints five entries with these
    identifiers in this order. *)
Theorem report_entry_carries_its_identifier random st0 a ids :
  quiescent st0 -> heap st0 !! a = Some ids ->
  (forall i vehicleId, ids !! i = Some vehicleId ->
     exists speed,
       report_of st0 (snd (run_script random (fetchTelemetryForMultipleVehicles (VArray a)) st0))
         !! i = Some (vehicleId, speed)) /\
  length (report_of initial (snd (run_script random main initial))) = 5%nat /\
  (report_of initial (snd (run_script random main initial))).*1 = vehicleIds_literal.
Proof.
  intros Hq Hh.
  assert (Hnf : forall l, omap no_faults l = []).
  { intros l. apply omap_faults_nil, Forall_forall. reflexivity. }
  split.
  - intros i v Hi.
    destruct (run_success random no_faults st0 a ids Hq Hh (Hnf ids))
      as (speeds & Hl & _ & Hp & _).
    rewrite source_is_fault_free in Hp.
    rewrite (report_of_lines _ _ ids (VNumber <$> speeds) ltac:(rewrite length_fmap; exact Hl) Hp).
    assert (His : is_Some (speeds !! i)).
    { apply lookup_lt_is_Some. rewrite Hl. eapply lookup_lt_Some; eauto. }
    destruct His as [s Hs]. exists (VNumber s).
    apply lookup_zip_Some. split; [exact Hi|].
    rewrite list_lookup_fmap, Hs. reflexivity.
  - destruct (run_success random no_faults at_line_88 0 vehicleIds_literal
                at_line_88_quiescent at_line_88_heap (Hnf _)) as (speeds & Hl & _ & Hp & _).
    rewrite source_is_fault_free in Hp.
    rewrite main_eq.
    assert (Hr : report_of initial
              (snd (run_script random (fetchTelemetryForMultipleVehicles (VArray 0)) at_line_88))
              = zip vehicleIds_literal (VNumber <$> speeds)).
    { apply report_of_lines; [rewrite length_fmap; exact Hl|].
      rewrite <- Hp. apply printed_same_console. reflexivity. }
    rewrite Hr. split.
    + rewrite length_zip, length_fmap, Hl. reflexivity.
    + apply fst_zip. rewrite length_fmap, Hl. reflexivity.
Qed.

Lemma report_entry_carries_its_identifier_witness :
  exists speed,
    report_of at_line_88
      (snd (run_script always_half (fetchTelemetryForMultipleVehicles (VArray 0)) at_line_88))
      !! 2%nat = Some (VNumber (Number_of_Z 3), speed).
Proof.
  apply (proj1 (report_entry_carries_its_identifier always_half at_line_88 0
                  vehicleIds_literal at_line_88_quiescent at_line_88_heap)).
  reflexivity.
Defined.

(** C3, as the code has it.  When a retrieval fails, the first error (in
    completion order, which for equal delays is input order) is written to
    the console as the only line of the call, no entry is printed and no
    report array is built; the promise of the call itself is fulfilled with
    [undefined]. *)
Theorem first_failure_is_logged_not_surfaced random faults st0 a ids e others :
  quiescent st0 -> heap st0 !! a = Some ids ->
  omap faults ids = e :: others ->
  let r := run_script random
      (fetchTelemetryForMultipleVehicles_with (fetch_with_faults faults) (VArray a)) st0 in
  printed st0 (snd r) = [LogError "Error fetching telemetry data:" e] /\
  report_of st0 (snd r) = [] /\
  length (heap (snd r)) = S (length (heap st0)) /\
  exists p, fst r = VPromise p /\ promises (snd r) !! p = Some (Fulfilled VUndefined).
Proof.
  intros Hq Hh Hf r.
  destruct (run_failure random faults st0 a ids e others Hq Hh Hf) as [Hp Hl].
  destruct (run_promise random faults st0 (VArray a) Hq) as [Hv Hfn].
  fold r in Hp, Hl, Hv, Hfn.
  split; [exact Hp|]. split; [unfold report_of; rewrite Hp; reflexivity|].
  split; [exact Hl|]. eauto.
Qed.

Lemma vehicle_2_fails_first : omap vehicle_2_fails vehicleIds_literal = [VFailure 7].
Proof. reflexivity. Qed.

Lemma first_failure_is_logged_not_surfaced_witness :
  printed at_line_88
    (snd (run_script always_half
       (fetchTelemetryForMultipleVehicles_with (fetch_with_faults vehicle_2_fails) (VArray 0))
       at_line_88))
  = [LogError "Error fetching telemetry data:" (VFailure 7)].
Proof.
  apply (first_failure_is_logged_not_surfaced always_half vehicle_2_fails at_line_88 0
           vehicleIds_literal (VFailure 7) []).
  - split; reflexivity.
  - reflexivity.
  - reflexivity.
Defined.

(** C3, as the claim states it, fails: with the retrieval for vehicle 2
    failing, the promise the call returned is not rejected with that error. *)
Lemma aggregate_failure_not_surfaced_counterexample :
  fst (run_script always_half
         (fetchTelemetryForMultipleVehicles_with (fetch_with_faults vehicle_2_fails) (VArray 0))
         at_line_88) = VPromise 0 /\
  promises (snd (run_script always_half
         (fetchTelemetryForMultipleVehicles_with (fetch_with_faults vehicle_2_fails) (VArray 0))
         at_line_88)) !! 0%nat <> Some (Rejected (VFailure 7)).
Proof. split; [vm_compute; reflexivity|vm_compute; discriminate]. Qed.





(** C6.  A retrieval always ends with its promise fulfilled by a sample for
    the identifier it was called with, and it rejects nothing: a promise
    found rejected afterwards was rejected before. *)
Theorem fetchTelemetryData_always_resolves random vehicleId st :
  quiescent st ->
  let r := run_script random (fetchTelemetryData vehicleId) st in
  (exists p speed,
     fst r = VPromise p /\
     promises (snd r) !! p = Some (Fulfilled (VSample vehicleId speed))) /\
  (forall q reason,
     promises (snd r) !! q = Some (Rejected reason) ->
     promises st !! q = Some (Rejected reason)).
Proof.
  intros Hq r. unfold r. rewrite (fetchTelemetryData_run random vehicleId st Hq). proj.
  split.
  - eexists _, _. split; [reflexivity|].
    rewrite lookup_app_r by lia. rewrite Nat.sub_diag. reflexivity.
  - intros q reason Hrej.
    destruct (decide (q < length (promises st))%nat) as [Hlt|Hge].
    + rewrite lookup_app_l in Hrej by exact Hlt. exact Hrej.
    + rewrite lookup_app_r in Hrej by lia.
      destruct (q - length (promises st))%nat as [|n]; simpl in Hrej; discriminate.
Qed.

Lemma fetchTelemetryData_always_resolves_witness :
  exists p speed,
    fst (run_script always_half (fetchTelemetryData (VNumber (Number_of_Z 3))) initial)
      = VPromise p /\
    promises (snd (run_script always_half (fetchTelemetryData (VNumber (Number_of_Z 3)))
                     initial))
      !! p = Some (Fulfilled (VSample (VNumber (Number_of_Z 3)) speed)).
Proof.
  apply (fetchTelemetryData_always_resolves always_half (VNumber (Number_of_Z 3)) initial).
  split; reflexivity.
Defined.

(** C7.  Whatever the order in which the retrievals complete, the report
    lists one entry per identifier, in input order. *)
Theorem report_order_is_input_order_for_every_schedule random st0 a ids schedule :
  quiescent st0 -> heap st0 !! a = Some ids ->
  schedule_ok (length ids) schedule = true ->
  let st := fire_all random schedule
              (drain (snd (fetchTelemetryForMultipleVehicles (VArray a) st0))) in
  (report_of st0 st).*1 = ids /\ length (report_of st0 st) = length ids.
Proof.
  intros Hq Hh Hok st.
  destruct (schedule_success random st0 a ids schedule Hq Hh Hok) as (speeds & Hl & Hp).
  fold st in Hp.
  rewrite (report_of_lines st0 st ids (VNumber <$> speeds))
    by (rewrite ?length_fmap; assumption).
  split; [apply fst_zip; rewrite length_fmap; lia|].
  rewrite length_zip, length_fmap, Hl. lia.
Qed.

Lemma report_order_is_input_order_for_every_schedule_witness :
  (report_of at_line_88
     (fire_all always_half [4; 3; 2; 1; 0]%nat
        (drain (snd (fetchTelemetryForMultipleVehicles (VArray 0) at_line_88))))).*1
  = vehicleIds_literal.
Proof.
  apply (report_order_is_input_order_for_every_schedule always_half at_line_88 0
           vehicleIds_literal [4; 3; 2; 1; 0]%nat).
  - split; reflexivity.
  - reflexivity.
  - reflexivity.
Defined.

(** C8.  A retrieval sets exactly one timer, due 1000 time units after the
    call; its promise is pending until then, and the host settles it when the
    clock reads exactly call time + 1000. *)
Theorem fetchTelemetryData_delay_is_1000 random vehicleId st :
  quiescent st ->
  let p := length (promises st) in
  let st1 := snd (fetchTelemetryData vehicleId st) in
  timers st1 = [{| due := clock st + 1000; action := SimulatedResponse p vehicleId |}] /\
  clock st1 = clock st /\
  promises st1 !! p = Some (Pending []) /\
  clock (event_loop random st1) = clock st + 1000 /\
  timers (event_loop random st1) = [] /\
  exists sample, promises (event_loop random st1) !! p = Some (Fulfilled sample).
Proof.
  intros Hq p st1.
  pose proof (fetchTelemetryData_run random vehicleId st Hq) as Hrun.
  unfold run_script in Hrun. rewrite fetchTelemetryData_eq in Hrun.
  injection Hrun as Hloop.
  unfold st1. rewrite fetchTelemetryData_eq. cbn [snd]. rewrite Hloop. proj.
  destruct Hq as [Ht Hj]. rewrite Ht.
  repeat split; try reflexivity.
  - unfold p. rewrite lookup_app_r by lia. rewrite Nat.sub_diag. reflexivity.
  - eexists. unfold p. rewrite lookup_app_r by lia. rewrite Nat.sub_diag. reflexivity.
Qed.

Lemma fetchTelemetryData_delay_is_1000_witness :
  clock (event_loop always_half
           (snd (fetchTelemetryData (VNumber (Number_of_Z 1)) initial))) = clock initial + 1000.
Proof.
  apply (fetchTelemetryData_delay_is_1000 always_half (VNumber (Number_of_Z 1)) initial).
  split; reflexivity.
Defined.

(** C9.  A call changes nothing the program can see except the console: every
    array that existed before, the input list among them, every promise and
    every Promise.all record that existed before are as they were, the
    console only grows, and nothing is left pending.  The same holds for a
    single retrieval, which prints nothing. *)
Theorem calls_only_write_to_the_console random st0 a ids vehicleId :
  quiescent st0 -> heap st0 !! a = Some ids ->
  let st := snd (run_script random (fetchTelemetryForMultipleVehicles (VArray a)) st0) in
  let st' := snd (run_script random (fetchTelemetryData vehicleId) st0) in
  (heap st !! a = Some ids /\
   (forall l, (l < length (heap st0))%nat -> heap st !! l = heap st0 !! l) /\
   (forall q, (q < length (promises st0))%nat -> promises st !! q = promises st0 !! q) /\
   (forall q, (q < length (alls st0))%nat -> alls st !! q = alls st0 !! q) /\
   console st = console st0 ++ printed st0 st /\
   quiescent st) /\
  (heap st' = heap st0 /\
   (forall q, (q < length (promises st0))%nat -> promises st' !! q = promises st0 !! q) /\
   alls st' = alls st0 /\
   console st' = console st0 /\
   quiescent st').
Proof.
  intros Hq Hh st st'. split.
  - destruct Hq as [Ht Hj].
    destruct (run_Inv random no_faults st0 ids Ht Hj a Hh) as [_ HI].
    change (the_call no_faults a) with (fetchTelemetryForMultipleVehicles (VArray a)) in HI.
    fold st in HI.
    destruct (final_frame random no_faults st0 ids _ _ HI) as (Ht' & Hj' & Hhf & Hpf & Haf & _).
    split; [rewrite Hhf; [exact Hh|eapply lookup_lt_Some; eauto]|].
    split; [exact Hhf|]. split; [exact Hpf|]. split; [exact Haf|].
    split; [|split; assumption].
    pose proof (inv_status _ _ _ _ _ _ _ HI) as Hst.
    destruct (failures no_faults ids (seq 0 (length ids))) as [|e fs];
      destruct Hst as (_ & _ & Hc & _); rewrite (printed_app st0 st _ Hc); exact Hc.
  - unfold st'. rewrite (fetchTelemetryData_run random vehicleId st0 Hq). proj.
    repeat split; try reflexivity.
    intros q Hlt. apply lookup_app_l. exact Hlt.
Qed.

Lemma calls_only_write_to_the_console_witness :
  heap (snd (run_script always_half (fetchTelemetryForMultipleVehicles (VArray 0)) at_line_88))
    !! 0%nat = Some vehicleIds_literal.
Proof.
  destruct (calls_only_write_to_the_console always_half at_line_88 0 vehicleIds_literal
              VUndefined) as [[Hinput _] _].
  - split; reflexivity.
  - reflexivity.
  - exact Hinput.
Defined.

(** C10.  Whatever it is called with, and whichever retrievals fail, the
    call returns a promise that ends fulfilled with [undefined], never
    rejected; a failure shows only as the error line on the console. *)
Theorem fetchAll_never_rejects random faults input st0 :
  quiescent st0 ->
  let r := run_script random
      (fetchTelemetryForMultipleVehicles_with (fetch_with_faults faults) input) st0 in
  exists p,
    fst r = VPromise p /\
    promises (snd r) !! p = Some (Fulfilled VUndefined) /\
    (forall reason, promises (snd r) !! p <> Some (Rejected reason)) /\
    (forall a ids e others,
       input = VArray a -> heap st0 !! a = Some ids -> omap faults ids = e :: others ->
       printed st0 (snd r) = [LogError "Error fetching telemetry data:" e]) /\
    (is_array_in st0 input = false ->
       printed st0 (snd r) = [LogError "Error fetching telemetry data:" VTypeError]).
Proof.
  intros Hq r.
  destruct (run_promise random faults st0 input Hq) as [Hv Hfn]. fold r in Hv, Hfn.
  exists (length (promises st0)). split; [exact Hv|]. split; [exact Hfn|].
  split; [intros reason; rewrite Hfn; discriminate|]. split.
  - intros a ids e others -> Hh Hf.
    apply (run_failure random faults st0 a ids e others Hq Hh Hf).
  - intros Hin. unfold r. rewrite (call_not_array random _ input st0 Hq Hin). proj.
    apply printed_app. reflexivity.
Qed.

Lemma fetchAll_never_rejects_witness :
  exists p,
    fst (run_script always_half
           (fetchTelemetryForMultipleVehicles_with (fetch_with_faults vehicle_2_fails)
              (VArray 0)) at_line_88) = VPromise p /\
    promises (snd (run_script always_half
           (fetchTelemetryForMultipleVehicles_with (fetch_with_faults vehicle_2_fails)
              (VArray 0)) at_line_88)) !! p = Some (Fulfilled VUndefined).
Proof.
  destruct (fetchAll_never_rejects always_half vehicle_2_fails (VArray 0) at_line_88)
    as (p & Hv & Hp & _).
  - split; reflexivity.
  - exists p. split; assumption.
Defined.

(** ** More about the two functions *)

Lemma seq_0_length_nil {X} (ids : list X) : seq 0 (length ids) = [] -> ids = [].
Proof. destruct ids; [reflexivity|discriminate]. Qed.

(** X2.  The whole batch takes one delay: however many identifiers, the host is
    done 1000 time units after the call (at once for the empty list). *)
Theorem batch_completes_after_one_delay random faults st0 a ids :
  quiescent st0 -> heap st0 !! a = Some ids ->
  clock (snd (run_script random
     (fetchTelemetryForMultipleVehicles_with (fetch_with_faults faults) (VArray a)) st0))
  = match ids with [] => clock st0 | _ :: _ => clock st0 + 1000 end.
Proof.
  intros [Ht Hj] Hh.
  destruct (run_Inv random faults st0 ids Ht Hj a Hh) as [_ HI]. unfold the_call in HI.
  rewrite (inv_clock _ _ _ _ _ _ _ HI).
  destruct ids; reflexivity.
Qed.

Lemma batch_completes_after_one_delay_witness :
  clock (snd (run_script always_half
     (fetchTelemetryForMultipleVehicles_with (fetch_with_faults no_faults) (VArray 0))
     at_line_88)) = clock at_line_88 + 1000.
Proof.
  apply (batch_completes_after_one_delay always_half no_faults at_line_88 0 vehicleIds_literal).
  - split; reflexivity.
  - reflexivity.
Defined.



(** X1.  The call returns before anything happens: at return nothing has been
    printed, no time has passed, no random number has been drawn and the
    returned promise is pending; one timer per identifier is waiting. *)
Theorem call_returns_a_pending_promise faults st0 a ids :
  quiescent st0 -> heap st0 !! a = Some ids ->
  let r := fetchTelemetryForMultipleVehicles_with (fetch_with_faults faults) (VArray a) st0 in
  fst r = VPromise (length (promises st0)) /\
  promises (snd r) !! length (promises st0) = Some (Pending []) /\
  console (snd r) = console st0 /\
  clock (snd r) = clock st0 /\
  rng (snd r) = rng st0 /\
  length (timers (snd r)) = length ids.
Proof.
  intros [Ht Hj] Hh r. unfold r.
  destruct (nil_or_not ids) as [Hnil|Hne].
  - pose proof (call_empty_eq faults st0 ids Ht Hj a Hh Hnil) as Hc.
    unfold the_call in Hc. rewrite Hc. proj. rewrite Hnil.
    rewrite lookup_app_r by lia. rewrite Nat.sub_diag. simpl.
    repeat split; reflexivity.
  - rewrite (call_nonempty faults st0 a ids Hh Hne). unfold after_call. proj.
    rewrite lookup_app_r by lia. rewrite Nat.sub_diag. simpl.
    repeat split; try reflexivity.
    rewrite Ht. unfold child_timers. simpl. rewrite length_imap. reflexivity.
Qed.

Lemma call_returns_a_pending_promise_witness :
  promises (snd (fetchTelemetryForMultipleVehicles_with (fetch_with_faults no_faults)
                   (VArray 0) at_line_88)) !! length (promises at_line_88)
  = Some (Pending []).
Proof.
  apply (call_returns_a_pending_promise no_faults at_line_88 0 vehicleIds_literal).
  - split; reflexivity.
  - reflexivity.
Defined.

(** *** Arrays are only ever allocated, never changed *)

Lemma resolve_heap p v st : heap (snd (resolve p v st)) = heap st.
Proof. unfold resolve. destruct (promises st !! p) as [[| |]|]; reflexivity. Qed.

Lemma reject_heap p v st : heap (snd (reject p v st)) = heap st.
Proof. unfold reject. destruct (promises st !! p) as [[| |]|]; reflexivity. Qed.

Lemma then_heap p r st : heap (snd (then_ p r st)) = heap st.
Proof. unfold then_. destruct (promises st !! p) as [[| |]|]; reflexivity. Qed.

Lemma all_countdown_heap all st : heap st `prefix_of` heap (snd (all_countdown all st)).
Proof.
  unfold all_countdown. destruct (alls st !! all) as [r|]; [|reflexivity].
  destruct (all_remaining r) as [|[|n]]; simpl; try reflexivity.
  - unfold bind, new_array. proj. rewrite resolve_heap. proj. apply prefix_app_r. reflexivity.
  - unfold bind, new_array. proj. rewrite resolve_heap. proj. apply prefix_app_r. reflexivity.
Qed.

Lemma forEach_log_heap l : forall st, heap (snd (forEach_log l st)) = heap st.
Proof.
  induction l as [|d l IH]; intros st; simpl; [reflexivity|].
  destruct (get_vehicleId d), (get_speed d); simpl; try reflexivity.
  unfold bind, console_log, modify. rewrite IH. reflexivity.
Qed.

Lemma run_handler_heap h x st : heap st `prefix_of` heap (snd (run_handler h x st)).
Proof.
  destruct h as [all index|p|fn|fn]; simpl.
  - unfold resolve_element, bind, modify.
    etransitivity; [|apply all_countdown_heap]. reflexivity.
  - rewrite reject_heap. reflexivity.
  - unfold after_await, return_undefined, bind, console_log, modify. proj.
    match goal with |- _ `prefix_of` heap (snd (let (_, st') := ?m in resolve fn VUndefined st')) =>
      destruct m as [u st1] eqn:Hm end.
    rewrite resolve_heap.
    assert (Heq : heap st1 = heap st); [|rewrite Heq; reflexivity].
    destruct x; simpl in Hm; try (injection Hm as _ <-; reflexivity).
    destruct (heap st !! a) as [l|]; simpl in Hm; [|injection Hm as _ <-; reflexivity].
    unfold bind in Hm.
    match type of Hm with context [forEach_log l ?s] =>
      pose proof (forEach_log_heap l s) as Hq; destruct (forEach_log l s) as [[e|[]] s'] end;
      simpl in *; injection Hm as _ <-; exact Hq.
  - unfold catch_block, return_undefined, bind, console_error, modify.
    rewrite resolve_heap. reflexivity.
Qed.

Lemma drain_heap st : heap st `prefix_of` heap (drain st).
Proof.
  unfold drain. generalize (pending_work st). intros n. revert st.
  induction n as [|n IH]; intros st; simpl; [reflexivity|].
  destruct (jobs st) as [|[h x] rest]; [reflexivity|].
  etransitivity; [|apply IH].
  apply (run_handler_heap h x (set_jobs (fun _ => rest) st)).
Qed.

Lemma fire_heap random k st : heap st `prefix_of` heap (fire random k st).
Proof.
  unfold fire. destruct (timers st !! k) as [t|]; [|reflexivity].
  etransitivity; [|apply drain_heap].
  destruct (action t) as [p v|p r]; simpl.
  - unfold bind, Math_random, ret. rewrite resolve_heap. reflexivity.
  - rewrite reject_heap. reflexivity.
Qed.

Lemma iter_tick_heap random n : forall st,
  heap st `prefix_of` heap (Nat.iter n (tick random) st).
Proof.
  induction n as [|n IH]; intros st; [reflexivity|].
  rewrite Nat.iter_succ_r. etransitivity; [|apply IH]. apply fire_heap.
Qed.

Lemma event_loop_heap random st :
  heap st `prefix_of` heap (event_loop random st).
Proof. unfold event_loop. etransitivity; [apply drain_heap|]. apply iter_tick_heap. Qed.

(** X8.  From any state and in any firing order, the host and the program's
    callbacks leave every existing array as it is: the heap only grows. *)
Theorem existing_arrays_are_never_modified random st schedule :
  heap st `prefix_of` heap (fire_all random schedule st) /\
  heap st `prefix_of` heap (event_loop random st).
Proof.
  split.
  - revert st. induction schedule as [|k ks IH]; intros st; simpl; [reflexivity|].
    etransitivity; [|apply IH]. apply fire_heap.
  - apply event_loop_heap.
Qed.

(** X6.  A failing retrieval cancels nothing: every timer still fires and every
    retrieval settles its own promise, the failing ones rejected with their
    reason, the others fulfilled with a sample for their identifier. *)
Theorem a_failure_cancels_nothing random faults st0 a ids :
  quiescent st0 -> heap st0 !! a = Some ids ->
  let st := snd (run_script random
      (fetchTelemetryForMultipleVehicles_with (fetch_with_faults faults) (VArray a)) st0) in
  timers st = [] /\
  exists retrievals,
    heap st !! length (heap st0) = Some retrievals /\
    length retrievals = length ids /\
    forall i vehicleId, ids !! i = Some vehicleId ->
      exists p, retrievals !! i = Some (VPromise p) /\
        match faults vehicleId with
        | Some reason => promises st !! p = Some (Rejected reason)
        | None => exists speed,
            promises st !! p = Some (Fulfilled (VSample vehicleId (VNumber speed)))
        end.
Proof.
  intros Hq Hh st. destruct Hq as [Ht Hj].
  destruct (run_Inv random faults st0 ids Ht Hj a Hh) as [_ HI].
  unfold the_call in HI. fold st in HI.
  split; [rewrite (inv_timers _ _ _ _ _ _ _ HI); reflexivity|].
  exists (VPromise <$> seq (S (length (promises st0))) (length ids)).
  split; [|split].
  - unfold st, run_script.
    destruct (nil_or_not ids) as [Hnil|Hne].
    + pose proof (call_empty_eq faults st0 ids Ht Hj a Hh Hnil) as Hc.
      unfold the_call in Hc. rewrite Hc. cbn [snd].
      eapply prefix_lookup_Some; [|apply event_loop_heap].
      proj. rewrite lookup_app_r by lia. rewrite Nat.sub_diag, Hnil. reflexivity.
    + rewrite (call_nonempty faults st0 a ids Hh Hne). cbn [snd].
      eapply prefix_lookup_Some; [|apply event_loop_heap].
      unfold after_call. proj. rewrite lookup_app_r by lia. rewrite Nat.sub_diag. reflexivity.
  - rewrite length_fmap, length_seq. reflexivity.
  - intros i v Hi.
    assert (HiN : (i < length ids)%nat) by (eapply lookup_lt_Some; eauto).
    exists (S (length (promises st0)) + i)%nat. split.
    + rewrite list_lookup_fmap, lookup_seq_lt by exact HiN. reflexivity.
    + assert (Hfired : i ∈ seq 0 (length ids)) by (apply elem_of_seq; lia).
      pose proof (inv_settled _ _ _ _ _ _ _ HI i Hfired) as Hs.
      assert (Hid : id_at ids i = v) by (unfold id_at; rewrite Hi; reflexivity).
      rewrite Hid in Hs. destruct (faults v) as [r|] eqn:Hf; [exact Hs|].
      destruct (inv_values _ _ _ _ _ _ _ HI i Hfired) as [n Hn]; [rewrite Hid; exact Hf|].
      rewrite Hn, Hid in Hs. eexists. exact Hs.
Qed.

Lemma a_failure_cancels_nothing_witness :
  timers (snd (run_script always_half
      (fetchTelemetryForMultipleVehicles_with (fetch_with_faults vehicle_2_fails) (VArray 0))
      at_line_88)) = [].
Proof.
  apply (a_failure_cancels_nothing always_half vehicle_2_fails at_line_88 0 vehicleIds_literal).
  - split; reflexivity.
  - reflexivity.
Defined.

(** X7.  Called with anything that is not an array, the function only logs the
    TypeError that [.map] throws: no retrieval starts, no timer is set, no
    random number is drawn, no array is allocated. *)
Theorem call_on_a_non_array_only_logs random fetch input st0 :
  quiescent st0 -> is_array_in st0 input = false ->
  let st := snd (run_script random (fetchTelemetryForMultipleVehicles_with fetch input) st0) in
  console st = console st0 ++ [LogError "Error fetching telemetry data:" VTypeError] /\
  heap st = heap st0 /\ rng st = rng st0 /\ clock st = clock st0 /\
  alls st = alls st0 /\ timers st = [] /\ jobs st = [] /\
  promises st = promises st0 ++ [Fulfilled VUndefined].
Proof.
  intros Hq Hin st. unfold st. rewrite (call_not_array random fetch input st0 Hq Hin).
  repeat split; reflexivity.
Qed.

Lemma call_on_a_non_array_only_logs_witness :
  console (snd (run_script always_half
     (fetchTelemetryForMultipleVehicles_with fetchTelemetryData VUndefined) initial))
  = console initial ++ [LogError "Error fetching telemetry data:" VTypeError].
Proof.
  apply (call_on_a_non_array_only_logs always_half fetchTelemetryData VUndefined initial).
  - split; reflexivity.
  - reflexivity.
Defined.

(** *** A fulfilled promise keeps its value *)

Lemma resolve_keeps q w p v st :
  promises st !! p = Some (Fulfilled v) ->
  promises (snd (resolve q w st)) !! p = Some (Fulfilled v).
Proof.
  intros Hp. unfold resolve. destruct (promises st !! q) as [[rs|x|e]|] eqn:Hq; try exact Hp.
  proj. rewrite list_lookup_insert_ne; [exact Hp|]. intros ->. congruence.
Qed.

Lemma reject_keeps q w p v st :
  promises st !! p = Some (Fulfilled v) ->
  promises (snd (reject q w st)) !! p = Some (Fulfilled v).
Proof.
  intros Hp. unfold reject. destruct (promises st !! q) as [[rs|x|e]|] eqn:Hq; try exact Hp.
  proj. rewrite list_lookup_insert_ne; [exact Hp|]. intros ->. congruence.
Qed.

Lemma forEach_log_promises l : forall st, promises (snd (forEach_log l st)) = promises st.
Proof.
  induction l as [|d l IH]; intros st; simpl; [reflexivity|].
  destruct (get_vehicleId d), (get_speed d); simpl; try reflexivity.
  unfold bind, console_log, modify. rewrite IH. reflexivity.
Qed.

Lemma all_countdown_keeps all p v st :
  promises st !! p = Some (Fulfilled v) ->
  promises (snd (all_countdown all st)) !! p = Some (Fulfilled v).
Proof.
  intros Hp. unfold all_countdown. destruct (alls st !! all) as [r|]; [|exact Hp].
  destruct (all_remaining r) as [|[|n]]; simpl; try exact Hp.
  - unfold bind, new_array. proj. apply resolve_keeps. exact Hp.
  - unfold bind, new_array. proj. apply resolve_keeps. exact Hp.
Qed.

Lemma run_handler_keeps h x p v st :
  promises st !! p = Some (Fulfilled v) ->
  promises (snd (run_handler h x st)) !! p = Some (Fulfilled v).
Proof.
  intros Hp. destruct h as [all index|q|fn|fn]; simpl.
  - unfold resolve_element, bind, modify. apply all_countdown_keeps. exact Hp.
  - apply reject_keeps. exact Hp.
  - unfold after_await, return_undefined, bind, console_log, modify. proj.
    match goal with |- promises (snd (let (_, st') := ?m in resolve fn VUndefined st')) !! _ = _ =>
      destruct m as [u st1] eqn:Hm end.
    apply resolve_keeps.
    assert (Heq : promises st1 = promises st); [|rewrite Heq; exact Hp].
    destruct x; simpl in Hm; try (injection Hm as _ <-; reflexivity).
    destruct (heap st !! a) as [l|]; simpl in Hm; [|injection Hm as _ <-; reflexivity].
    unfold bind in Hm.
    match type of Hm with context [forEach_log l ?s] =>
      pose proof (forEach_log_promises l s) as Hq; destruct (forEach_log l s) as [[e|[]] s'] end;
      simpl in *; injection Hm as _ <-; exact Hq.
  - unfold catch_block, return_undefined, bind, console_error, modify.
    apply resolve_keeps. exact Hp.
Qed.

Lemma drain_keeps p v st :
  promises st !! p = Some (Fulfilled v) -> promises (drain st) !! p = Some (Fulfilled v).
Proof.
  unfold drain. generalize (pending_work st). intros n. revert st.
  induction n as [|n IH]; intros st Hp; simpl; [exact Hp|].
  destruct (jobs st) as [|[h x] rest]; [exact Hp|].
  apply IH. apply (run_handler_keeps h x p v (set_jobs (fun _ => rest) st)). exact Hp.
Qed.

Lemma fire_keeps random k p v st :
  promises st !! p = Some (Fulfilled v) ->
  promises (fire random k st) !! p = Some (Fulfilled v).
Proof.
  intros Hp. unfold fire. destruct (timers st !! k) as [t|]; [|exact Hp].
  apply drain_keeps.
  destruct (action t) as [q w|q r]; simpl.
  - unfold bind, Math_random, ret. apply resolve_keeps. exact Hp.
  - apply reject_keeps. exact Hp.
Qed.

(** The response of a retrieval fulfils its promise with the next draw. *)
Lemma fire_fulfils random k d p v rs st :
  timers st !! k = Some {| due := d; action := SimulatedResponse p v |} ->
  promises st !! p = Some (Pending rs) ->
  promises (fire random k st) !! p =
    Some (Fulfilled (VSample v (VNumber (Number_mul (random (rng st)) hundred)))).
Proof.
  intros Ht Hp. unfold fire. rewrite Ht. cbn [action due].
  apply drain_keeps. simpl.
  unfold bind, Math_random, ret, resolve. proj. rewrite Hp. proj.
  apply list_lookup_insert_eq. apply lookup_lt_Some in Hp. exact Hp.
Qed.

Lemma Draws_fire random faults st0 ids fired pend st k i :
  Inv random faults st0 ids fired pend st -> Draws random faults st0 ids fired st ->
  pend !! k = Some i ->
  Draws random faults st0 ids (fired ++ [i]) (fire random k st).
Proof.
  intros HI HD Hk k' j Hk' Hok.
  apply lookup_app_Some in Hk'. destruct Hk' as [Hk'|[Hlen Hk']].
  - unfold draw_index. rewrite take_app_le by (apply lookup_lt_Some in Hk'; lia).
    apply fire_keeps. apply (HD k' j Hk' Hok).
  - destruct (k' - length fired)%nat as [|m] eqn:Hm; [|destruct m; discriminate].
    injection Hk' as <-.
    assert (k' = length fired) by lia. subst k'.
    unfold draw_index. rewrite take_app_length.
    rewrite <- (inv_rng _ _ _ _ _ _ _ HI).
    assert (Hin : i ∈ pend) by (apply list_elem_of_lookup; eauto).
    assert (Htk : timers st !! k = Some (mk_timer faults st0 ids i)).
    { rewrite (inv_timers _ _ _ _ _ _ _ HI), list_lookup_fmap, Hk. reflexivity. }
    unfold mk_timer, callback_for in Htk. rewrite Hok in Htk.
    apply (fire_fulfils random k _ _ _ _ st Htk (inv_pending _ _ _ _ _ _ _ HI i Hin)).
Qed.

Lemma fire_all_Draws random faults st0 ids ks : forall fired pend st,
  Inv random faults st0 ids fired pend st -> Draws random faults st0 ids fired st ->
  schedule_ok (length pend) ks = true ->
  Draws random faults st0 ids (fired ++ firing_order pend ks) (fire_all random ks st).
Proof.
  induction ks as [|k ks IH]; intros fired pend st HI HD Hok.
  - destruct pend; [|discriminate]. simpl. rewrite app_nil_r. exact HD.
  - simpl in Hok. destruct (length pend) as [|n] eqn:Hn; [discriminate|].
    apply andb_true_iff in Hok. destruct Hok as [Hk Hok].
    apply Nat.ltb_lt in Hk.
    destruct (lookup_lt_is_Some_2 pend k ltac:(lia)) as [i Hi].
    simpl. rewrite Hi.
    replace (fired ++ i :: firing_order (delete k pend) ks)
      with ((fired ++ [i]) ++ firing_order (delete k pend) ks)
      by (rewrite <- app_assoc; reflexivity).
    apply IH; [apply Inv_fire; assumption|eapply Draws_fire; eassumption|].
    rewrite length_delete by eauto. rewrite Hn. simpl. rewrite Nat.sub_0_r. exact Hok.
Qed.

Lemma earliest_of_equal_dues (ts : list timer) d :
  (forall t, t ∈ ts -> due t = d) -> earliest ts = 0%nat.
Proof.
  intros Hd. destruct ts as [|t rest]; [reflexivity|]. simpl.
  destruct (rest !! earliest rest) as [t'|] eqn:Ht; [|reflexivity].
  assert (due t' = d) by (apply Hd; right; apply list_elem_of_lookup; eauto).
  assert (due t = d) by (apply Hd; left).
  replace (due t' <? due t) with false by (symmetry; apply Z.ltb_ge; lia).
  reflexivity.
Qed.

Lemma tick_is_fire_0 random faults st0 ids fired pend st :
  Inv random faults st0 ids fired pend st -> tick random st = fire random 0 st.
Proof.
  intros HI. unfold tick.
  rewrite (earliest_of_equal_dues (timers st) (clock st0 + 1000)); [reflexivity|].
  intros t Ht. rewrite (inv_timers _ _ _ _ _ _ _ HI) in Ht.
  apply list_elem_of_fmap in Ht. destruct Ht as (j & -> & _). reflexivity.
Qed.

Lemma iter_tick_Draws random faults st0 ids pend : forall fired st,
  Inv random faults st0 ids fired pend st -> Draws random faults st0 ids fired st ->
  Draws random faults st0 ids (fired ++ pend) (Nat.iter (length pend) (tick random) st).
Proof.
  induction pend as [|i pend IH]; intros fired st HI HD.
  - simpl. rewrite app_nil_r. exact HD.
  - cbn [length]. rewrite Nat.iter_succ_r.
    replace (fired ++ i :: pend) with ((fired ++ [i]) ++ pend)
      by (rewrite <- app_assoc; reflexivity).
    rewrite (tick_is_fire_0 random faults st0 ids fired (i :: pend) st HI).
    apply IH.
    + apply (Inv_fire random faults st0 ids fired (i :: pend) st 0 i HI). reflexivity.
    + apply (Draws_fire random faults st0 ids fired (i :: pend) st 0 i HI HD). reflexivity.
Qed.

Lemma failures_no_faults ids l : failures no_faults ids l = [].
Proof. unfold failures. induction l as [|i l IH]; [reflexivity|exact IH]. Qed.

(** With every timer fired, the value Promise.all holds for a successful
    retrieval is the sample of that retrieval's own draw. *)
Lemma final_values random faults st0 ids fired st :
  Inv random faults st0 ids fired [] st -> Draws random faults st0 ids fired st ->
  forall k i, fired !! k = Some i -> faults (id_at ids i) = None ->
    all_values (all_rec st0 st) !! i =
      Some (sample_of random ids i (draw_index faults st0 ids fired k)).
Proof.
  intros HI HD k i Hk Hok.
  assert (Hin : i ∈ fired) by (apply list_elem_of_lookup; eauto).
  pose proof (inv_settled _ _ _ _ _ _ _ HI i Hin) as Hs.
  rewrite Hok, (HD k i Hk Hok) in Hs.
  assert (Hi : (i < length ids)%nat).
  { pose proof (inv_perm _ _ _ _ _ _ _ HI) as Hp. rewrite app_nil_r in Hp.
    rewrite Hp in Hin. apply elem_of_seq in Hin. lia. }
  pose proof (inv_vlen _ _ _ _ _ _ _ HI) as Hv.
  destruct (lookup_lt_is_Some_2 (all_values (all_rec st0 st)) i ltac:(lia)) as [x Hx].
  rewrite Hx in Hs |- *. simpl in Hs. congruence.
Qed.

Lemma draw_index_no_faults st0 ids fired k :
  draw_index no_faults st0 ids fired k = (rng st0 + k)%nat.
Proof. unfold draw_index. rewrite failures_no_faults. simpl. lia. Qed.

(** X5.  In whatever order the retrievals complete, the one that completes [k]-th
    reads draw number [k] of [Math.random()] after the call, and the report
    shows one hundred times that draw at the position of its identifier. *)
Theorem each_speed_is_the_draw_of_its_completion random st0 a ids schedule :
  quiescent st0 -> heap st0 !! a = Some ids ->
  schedule_ok (length ids) schedule = true ->
  let st := fire_all random schedule
              (drain (snd (fetchTelemetryForMultipleVehicles (VArray a) st0))) in
  forall k i, firing_order (seq 0 (length ids)) schedule !! k = Some i ->
    report_of st0 st !! i =
      Some (id_at ids i, VNumber (Number_mul (random (rng st0 + k)%nat) hundred)).
Proof.
  intros [Ht Hj] Hh Hok st k i Hk.
  destruct (Inv_start random no_faults st0 ids Ht Hj a Hh) as [_ HI0].
  pose proof (schedule_Inv random no_faults st0 ids Ht Hj a Hh schedule Hok) as HI.
  assert (HD : Draws random no_faults st0 ids (firing_order (seq 0 (length ids)) schedule) st).
  { apply (fire_all_Draws random no_faults st0 ids schedule [] _ _ HI0).
    - intros k' j Hk'. discriminate.
    - rewrite length_seq. exact Hok. }
  change (fire_all random schedule (drain (snd (the_call no_faults a st0)))) with st in HI.
  pose proof (final_values random no_faults st0 ids _ st HI HD k i Hk eq_refl) as Hv.
  rewrite draw_index_no_faults in Hv.
  destruct (final_success random no_faults st0 ids _ _ HI) as (speeds & Hl & _ & Hc & Hr).
  { apply failures_no_faults. }
  pose proof (inv_status _ _ _ _ _ _ _ HI) as Hst.
  rewrite failures_no_faults in Hst. destruct Hst as (_ & _ & _ & Hheap & _).
  rewrite Hr in Hheap. injection Hheap as Hvals.
  rewrite (report_of_lines st0 st ids (VNumber <$> speeds))
    by (rewrite ?length_fmap; (exact Hl || (apply printed_app; exact Hc))).
  rewrite <- Hvals in Hv. rewrite lookup_zip_with, list_lookup_fmap in Hv.
  unfold id_at, sample_of in *.
  destruct (ids !! i) as [v|] eqn:Hi; [|discriminate]. simpl in Hv.
  destruct (speeds !! i) as [s|] eqn:Hs; [|discriminate]. simpl in Hv.
  injection Hv as Hv Hs'.
  apply lookup_zip_with_Some. exists v, (VNumber s). repeat split.
  - rewrite Hv, Hs'. reflexivity.
  - exact Hi.
  - rewrite list_lookup_fmap, Hs. reflexivity.
Qed.

Lemma each_speed_is_the_draw_of_its_completion_witness :
  report_of at_line_88
    (fire_all always_half [4; 0; 0; 0; 0]%nat
       (drain (snd (fetchTelemetryForMultipleVehicles (VArray 0) at_line_88)))) !! 4%nat
  = Some (VNumber (Number_of_Z 5), VNumber (Number_mul (always_half 0%nat) hundred)).
Proof.
  apply (each_speed_is_the_draw_of_its_completion always_half at_line_88 0
           vehicleIds_literal [4; 0; 0; 0; 0]%nat).
  - split; reflexivity.
  - reflexivity.
  - reflexivity.
  - reflexivity.
Defined.

Lemma run_Draws random faults st0 ids a :
  timers st0 = [] -> jobs st0 = [] -> heap st0 !! a = Some ids ->
  Draws random faults st0 ids (seq 0 (length ids))
    (snd (run_script random (the_call faults a) st0)).
Proof.
  intros Ht Hj Hh.
  destruct (Inv_start random faults st0 ids Ht Hj a Hh) as [_ HI0].
  unfold run_script. destruct (the_call faults a st0) as [v st1]. cbn [fst snd] in *.
  unfold event_loop. cbv zeta.
  rewrite (inv_timers _ _ _ _ _ _ _ HI0), length_fmap.
  apply (iter_tick_Draws random faults st0 ids (seq 0 (length ids)) [] _ HI0).
  intros k j Hk. discriminate.
Qed.

Lemma run_console random st0 a ids :
  quiescent st0 -> heap st0 !! a = Some ids ->
  console (snd (run_script random (fetchTelemetryForMultipleVehicles (VArray a)) st0)) =
    console st0 ++ Log "Telemetry Data:" ::
    imap (fun i v => LogVehicle v (VNumber (Number_mul (random (rng st0 + i)%nat) hundred))) ids.
Proof.
  intros [Ht Hj] Hh.
  destruct (run_Inv random no_faults st0 ids Ht Hj a Hh) as [_ HI].
  pose proof (run_Draws random no_faults st0 ids a Ht Hj Hh) as HD.
  change (the_call no_faults a) with (fetchTelemetryForMultipleVehicles (VArray a)) in HI, HD.
  set (st := snd (run_script random (fetchTelemetryForMultipleVehicles (VArray a)) st0)) in *.
  pose proof (inv_status _ _ _ _ _ _ _ HI) as Hst.
  rewrite failures_no_faults in Hst. destruct Hst as (_ & _ & Hc & _).
  rewrite Hc. f_equal. f_equal.
  pose proof (inv_vlen _ _ _ _ _ _ _ HI) as Hv.
  apply list_eq. intros i. rewrite list_lookup_fmap, list_lookup_imap.
  destruct (ids !! i) as [v|] eqn:Hi.
  - assert (Hlt : (i < length ids)%nat) by (apply lookup_lt_Some in Hi; exact Hi).
    assert (Hk : seq 0 (length ids) !! i = Some i) by (apply lookup_seq; lia).
    rewrite (final_values random no_faults st0 ids _ st HI HD i i Hk eq_refl).
    rewrite draw_index_no_faults. unfold sample_of, id_at. rewrite Hi. reflexivity.
  - apply lookup_ge_None in Hi.
    rewrite (lookup_ge_None_2 (all_values (all_rec st0 st))) by lia. reflexivity.
Qed.

(** X4.  The whole output of a call, with the host running the timers in due
    order: the header, then for the [i]-th identifier a line with one hundred
    times draw number [i] of [Math.random()] after the call. *)
Theorem printed_report_is_determined_by_the_draws random st0 a ids :
  quiescent st0 -> heap st0 !! a = Some ids ->
  printed st0 (snd (run_script random (fetchTelemetryForMultipleVehicles (VArray a)) st0)) =
    Log "Telemetry Data:" ::
    imap (fun i v => LogVehicle v (VNumber (Number_mul (random (rng st0 + i)%nat) hundred))) ids.
Proof.
  intros Hq Hh. apply printed_app. apply run_console; assumption.
Qed.

Lemma printed_report_is_determined_by_the_draws_witness :
  printed at_line_88
    (snd (run_script always_half (fetchTelemetryForMultipleVehicles (VArray 0)) at_line_88)) =
    Log "Telemetry Data:" ::
    imap (fun i v => LogVehicle v (VNumber (Number_mul (always_half (0 + i)%nat) hundred)))
      vehicleIds_literal.
Proof.
  apply (printed_report_is_determined_by_the_draws always_half at_line_88 0 vehicleIds_literal).
  - split; reflexivity.
  - reflexivity.
Defined.

(** *** Nothing reads the console *)

Lemma blind_frame {X} (m : M X) :
  (forall st c, m (with_console c st) = (fst (m st), with_console c (snd (m st)))) ->
  console_blind m.
Proof.
  intros H st. exists (fst (m st)), [], (snd (m st)). intros c.
  rewrite app_nil_r. apply H.
Qed.

Lemma blind_ret {X} (x : X) : console_blind (ret x).
Proof. apply blind_frame. reflexivity. Qed.

Lemma blind_bind {X Y} (m : M X) (k : X -> M Y) :
  console_blind m -> (forall x, console_blind (k x)) -> console_blind (bind m k).
Proof.
  intros Hm Hk st. destruct (Hm st) as (x & out & st1 & H1).
  destruct (Hk x st1) as (y & out' & st2 & H2).
  exists y, (out ++ out'), st2. intros c. unfold bind. rewrite H1.
  specialize (H2 (c ++ out)). rewrite H2. rewrite app_assoc. reflexivity.
Qed.

Lemma blind_console_log l : console_blind (console_log l).
Proof. intros st. exists tt, [l], st. reflexivity. Qed.

Lemma blind_console_error text e : console_blind (console_error text e).
Proof. intros st. exists tt, [LogError text e], st. reflexivity. Qed.

Lemma blind_new_array l : console_blind (new_array l).
Proof. apply blind_frame. reflexivity. Qed.

Lemma blind_resolve p v : console_blind (resolve p v).
Proof.
  apply blind_frame. intros st c. unfold resolve, with_console. proj.
  destruct (promises st !! p) as [[rs|x|e]|]; reflexivity.
Qed.

Lemma blind_reject p v : console_blind (reject p v).
Proof.
  apply blind_frame. intros st c. unfold reject, with_console. proj.
  destruct (promises st !! p) as [[rs|x|e]|]; reflexivity.
Qed.

Lemma blind_all_countdown all : console_blind (all_countdown all).
Proof.
  apply blind_frame. intros st c. unfold all_countdown, with_console. proj.
  destruct (alls st !! all) as [r|]; [|reflexivity].
  cbn [all_remaining all_values all_promise].
  destruct (pred (all_remaining r)); [|reflexivity].
  unfold bind, new_array, resolve. proj.
  destruct (promises st !! all_promise r) as [[rs|x|e]|]; reflexivity.
Qed.

Lemma blind_resolve_element all index x : console_blind (resolve_element all index x).
Proof.
  unfold resolve_element. apply blind_bind; [|intros _; apply blind_all_countdown].
  apply blind_frame. reflexivity.
Qed.

Lemma blind_forEach_log l : console_blind (forEach_log l).
Proof.
  induction l as [|d l IH]; cbn [forEach_log]; [apply blind_ret|].
  destruct (get_vehicleId d), (get_speed d); try apply blind_ret.
  apply blind_bind; [apply blind_console_log|intros _; exact IH].
Qed.

Lemma blind_catch_block e : console_blind (catch_block e).
Proof. apply blind_console_error. Qed.

Lemma blind_return_undefined fn : console_blind (return_undefined fn).
Proof. apply blind_resolve. Qed.

(** A choice made on the heap is the same choice under any console. *)
Lemma blind_heap_lookup {X} a (found : list value -> M X) (missing : M X) :
  (forall l, console_blind (found l)) -> console_blind missing ->
  console_blind (fun st => match heap st !! a with
                           | Some l => found l st
                           | None => missing st
                           end).
Proof.
  intros Hf Hm st. destruct (heap st !! a) as [l|] eqn:Hl.
  - destruct (Hf l st) as (x & out & st' & H). exists x, out, st'. intros c.
    unfold with_console. proj. rewrite Hl. apply H.
  - destruct (Hm st) as (x & out & st' & H). exists x, out, st'. intros c.
    unfold with_console. proj. rewrite Hl. apply H.
Qed.

Lemma blind_after_await fn x : console_blind (after_await fn x).
Proof.
  unfold after_await.
  apply blind_bind; [apply blind_console_log|intros _].
  apply blind_bind; [|intros _; apply blind_return_undefined].
  destruct x; try apply blind_catch_block.
  apply (blind_heap_lookup a
           (fun l => let* r := forEach_log l in
                     match r with inl e => catch_block e | inr _ => ret tt end)
           (catch_block VTypeError)).
  - intros l. apply blind_bind; [apply blind_forEach_log|].
    intros [e|u]; [apply blind_catch_block|apply blind_ret].
  - apply blind_catch_block.
Qed.

Lemma blind_run_handler h x : console_blind (run_handler h x).
Proof.
  destruct h as [all index|p|fn|fn]; cbn [run_handler].
  - apply blind_resolve_element.
  - apply blind_reject.
  - apply blind_after_await.
  - apply blind_bind; [apply blind_catch_block|intros _; apply blind_return_undefined].
Qed.

Lemma blind_run_callback random cb : console_blind (run_callback random cb).
Proof.
  destruct cb as [p v|p r]; cbn [run_callback].
  - apply blind_bind; [|intros s; apply blind_resolve].
    apply blind_bind; [|intros r; apply blind_ret].
    apply blind_frame. reflexivity.
  - apply blind_reject.
Qed.

Lemma blind_drain_fuel n : console_blind_step (drain_fuel n).
Proof.
  induction n as [|n IH]; intros st.
  - exists [], st. intros c. rewrite app_nil_r. reflexivity.
  - destruct (jobs st) as [|[h x] rest] eqn:Hj.
    + exists [], st. intros c. rewrite app_nil_r.
      cbn [drain_fuel]. change (jobs (with_console c st)) with (jobs st).
      rewrite Hj. reflexivity.
    + destruct (blind_run_handler h x (set_jobs (fun _ => rest) st)) as (u & out & st1 & H1).
      destruct (IH st1) as (out' & st2 & H2).
      exists (out ++ out'), st2. intros c.
      cbn [drain_fuel].
      change (jobs (with_console c st)) with (jobs st). rewrite Hj.
      change (set_jobs (fun _ => rest) (with_console c st))
        with (with_console c (set_jobs (fun _ => rest) st)).
      rewrite H1. cbn [snd]. rewrite H2, app_assoc. reflexivity.
Qed.

Lemma blind_drain : console_blind_step drain.
Proof.
  intros st. destruct (blind_drain_fuel (pending_work st) st) as (out & st' & H).
  exists out, st'. intros c. unfold drain.
  change (pending_work (with_console c st)) with (pending_work st). apply H.
Qed.

Lemma blind_fire random k : console_blind_step (fire random k).
Proof.
  intros st. destruct (timers st !! k) as [t|] eqn:Ht.
  - destruct (blind_run_callback random (action t)
                (set_clock (Z.max (due t)) (set_timers (delete k) st))) as (u & out & st1 & H1).
    destruct (blind_drain st1) as (out' & st2 & H2).
    exists (out ++ out'), st2. intros c. unfold fire.
    change (timers (with_console c st)) with (timers st). rewrite Ht.
    change (set_clock (Z.max (due t)) (set_timers (delete k) (with_console c st)))
      with (with_console c (set_clock (Z.max (due t)) (set_timers (delete k) st))).
    rewrite H1. cbn [snd]. rewrite H2, app_assoc. reflexivity.
  - exists [], st. intros c. rewrite app_nil_r. unfold fire.
    change (timers (with_console c st)) with (timers st). rewrite Ht. reflexivity.
Qed.

Lemma with_console_same st : with_console (console st) st = st.
Proof. apply State_eq; reflexivity. Qed.

(** A timer firing under another console: the same lines are appended and
    everything else is the same. *)
Lemma fire_with_console random k st :
  exists out,
    console (fire random k st) = console st ++ out /\
    forall c, fire random k (with_console c st) = with_console (c ++ out) (fire random k st).
Proof.
  destruct (blind_fire random k st) as (out & st' & H).
  pose proof (H (console st)) as H0. rewrite with_console_same in H0.
  exists out. split.
  - rewrite H0. reflexivity.
  - intros c. rewrite H, H0. reflexivity.
Qed.

(** ** The page *)

Ltac pproj :=
  cbn [host elements listeners alerts backgroundColor set_host set_listeners set_alerts
       set_backgroundColor alert log paint fst snd].

Ltac sstep :=
  cbn [addEventListener register window_addEventListener set_listeners set_host host
       elements listeners alerts backgroundColor fst snd].

Lemma Page_eq (p q : Page) :
  host p = host q -> elements p = elements q -> listeners p = listeners q ->
  alerts p = alerts q -> backgroundColor p = backgroundColor q -> p = q.
Proof. destruct p, q; simpl; intros; subst; reflexivity. Qed.

Lemma find_id_Some s els : forall k n,
  find_id s els k = Some n ->
  (k <= n)%nat /\ exists e, els !! (n - k)%nat = Some e /\ el_id e = s.
Proof.
  induction els as [|e els IH]; intros k n H; simpl in H; [discriminate|].
  destruct (String.eqb (el_id e) s) eqn:He.
  - injection H as <-. split; [lia|]. exists e. rewrite Nat.sub_diag.
    split; [reflexivity|]. apply String.eqb_eq. exact He.
  - destruct (IH _ _ H) as (Hle & e' & Hl & Hid). split; [lia|].
    exists e'. split; [|exact Hid].
    replace (n - k)%nat with (S (n - S k)) by lia. exact Hl.
Qed.

Lemma find_id_distinct s s' els n n' :
  find_id s els 0 = Some n -> find_id s' els 0 = Some n' -> s <> s' -> n <> n'.
Proof.
  intros H H' Hs ->.
  destruct (find_id_Some _ _ _ _ H) as (_ & e & He & Hi).
  destruct (find_id_Some _ _ _ _ H') as (_ & e' & He' & Hi').
  rewrite He in He'. injection He' as <-. congruence.
Qed.

(** The script when all five elements exist. *)
Lemma index_js_complete pg button div input form cbutton :
  find_id "myButton" (elements pg) 0 = Some button ->
  find_id "myDiv" (elements pg) 0 = Some div ->
  find_id "myInput" (elements pg) 0 = Some input ->
  find_id "myForm" (elements pg) 0 = Some form ->
  find_id "customButton" (elements pg) 0 = Some cbutton ->
  index_js pg =
    (Normal (fst (main (snd (console_log (Log "working") (host pg))))),
     {| host := snd (main (snd (console_log (Log "working") (host pg))));
        elements := elements pg;
        listeners := listeners pg ++ script_listeners button div input form cbutton;
        alerts := alerts pg;
        backgroundColor := backgroundColor pg |}).
Proof.
  destruct pg as [h els ls al bg]. cbn [host elements listeners alerts backgroundColor].
  intros Hb Hd Hi Hf Hc.
  unfold index_js, sbind, getElementById, on_host, console_log, modify.
  sstep. rewrite Hb. sstep. rewrite Hd. sstep. rewrite Hi. sstep. rewrite Hf. sstep.
  rewrite Hc. sstep.
  destruct (main _) as [v st]. f_equal.
  apply Page_eq; sstep; try reflexivity.
  rewrite <- !app_assoc. reflexivity.
Qed.

(** The script when one of them is missing: it throws on the first use of
    [null], having printed its first line and registered what comes before. *)
Lemma index_js_missing pg :
  (exists s, In s looked_up /\ find_id s (elements pg) 0 = None) ->
  fst (index_js pg) = Throw VTypeError /\
  host (snd (index_js pg)) = set_console (fun c => c ++ [Log "working"]) (host pg) /\
  elements (snd (index_js pg)) = elements pg /\
  alerts (snd (index_js pg)) = alerts pg /\
  backgroundColor (snd (index_js pg)) = backgroundColor pg /\
  exists regs, listeners (snd (index_js pg)) = listeners pg ++ regs /\
               Forall (fun r => reg_listener r <> OnCustomEvent) regs.
Proof.
  intros (s & Hin & Hs).
  unfold index_js, sbind, getElementById, on_host, console_log, modify. pproj.
  destruct (find_id "myButton" (elements pg) 0) as [b|] eqn:Hb;
    cbn [addEventListener register]; pproj.
  2:{ repeat split; try reflexivity. exists []. rewrite app_nil_r. split; [reflexivity|constructor]. }
  destruct (find_id "myDiv" (elements pg) 0) as [d|] eqn:Hd;
    cbn [addEventListener register]; pproj.
  2:{ repeat split; try reflexivity. eexists. split; [reflexivity|].
      repeat constructor; discriminate. }
  destruct (find_id "myInput" (elements pg) 0) as [i|] eqn:Hi;
    cbn [addEventListener register]; pproj.
  2:{ repeat split; try reflexivity. eexists. rewrite <- !app_assoc. split; [reflexivity|].
      repeat constructor; discriminate. }
  destruct (find_id "myForm" (elements pg) 0) as [f|] eqn:Hf;
    cbn [addEventListener register window_addEventListener]; pproj.
  2:{ repeat split; try reflexivity. eexists. rewrite <- !app_assoc. split; [reflexivity|].
      repeat constructor; discriminate. }
  destruct (find_id "customButton" (elements pg) 0) as [c|] eqn:Hc;
    cbn [addEventListener register]; pproj.
  2:{ repeat split; try reflexivity. eexists. rewrite <- !app_assoc. split; [reflexivity|].
      repeat constructor; discriminate. }
  exfalso. unfold looked_up in Hin. simpl in Hin.
  destruct Hin as [<-|[<-|[<-|[<-|[<-|[]]]]]]; congruence.
Qed.

(** The script completes only when all five elements exist. *)
Lemma index_js_Normal pg v pg' :
  index_js pg = (Normal v, pg') ->
  exists button div input form cbutton,
    find_id "myButton" (elements pg) 0 = Some button /\
    find_id "myDiv" (elements pg) 0 = Some div /\
    find_id "myInput" (elements pg) 0 = Some input /\
    find_id "myForm" (elements pg) 0 = Some form /\
    find_id "customButton" (elements pg) 0 = Some cbutton.
Proof.
  intros H.
  assert (Hall : forall s, In s looked_up -> find_id s (elements pg) 0 <> None).
  { intros s Hin Hs.
    destruct (index_js_missing pg) as [Ht _]; [exists s; auto|].
    rewrite H in Ht. discriminate. }
  destruct (find_id "myButton" (elements pg) 0) as [b|] eqn:Hb;
    [|exfalso; apply (Hall "myButton"%string); [simpl; auto|exact Hb]].
  destruct (find_id "myDiv" (elements pg) 0) as [d|] eqn:Hd;
    [|exfalso; apply (Hall "myDiv"%string); [simpl; auto|exact Hd]].
  destruct (find_id "myInput" (elements pg) 0) as [i|] eqn:Hi;
    [|exfalso; apply (Hall "myInput"%string); [simpl; auto|exact Hi]].
  destruct (find_id "myForm" (elements pg) 0) as [f|] eqn:Hf;
    [|exfalso; apply (Hall "myForm"%string); [simpl; auto|exact Hf]].
  destruct (find_id "customButton" (elements pg) 0) as [c|] eqn:Hc;
    [|exfalso; apply (Hall "customButton"%string); [simpl; auto 10|exact Hc]].
  exists b, d, i, f, c. repeat split; reflexivity.
Qed.

(** *** What events can change *)

Lemma set_console_nil st : set_console (fun c => c ++ (Log <$> [])) st = st.
Proof. apply State_eq; proj; try reflexivity. apply app_nil_r. Qed.

Lemma shown_nil custom : shown custom [].
Proof. constructor. Qed.

Lemma Follows_refl div custom pg : Follows div custom pg pg.
Proof.
  split; try reflexivity.
  - exists []. rewrite app_nil_r. split; [reflexivity|apply shown_nil].
  - exists []. symmetry. apply set_console_nil.
  - intros n. left. reflexivity.
Qed.

Lemma Follows_trans div custom pg1 pg2 pg3 :
  Follows div custom pg1 pg2 -> Follows div custom pg2 pg3 -> Follows div custom pg1 pg3.
Proof.
  intros [He Hl (m & Ha & Hm) [ts Hh] Hcl Hc] [He' Hl' (m' & Ha' & Hm') [ts' Hh'] Hcl' Hc'].
  split.
  - congruence.
  - congruence.
  - exists (m ++ m'). rewrite Ha', Ha, app_assoc. split; [reflexivity|].
    apply Forall_app. split; assumption.
  - exists (ts ++ ts'). rewrite Hh', Hh.
    apply State_eq; proj; try reflexivity.
    rewrite fmap_app, app_assoc. reflexivity.
  - congruence.
  - intros k. destruct (Hc' k) as [E|[-> E]].
    + rewrite E. apply Hc.
    + right. split; [reflexivity|exact E].
Qed.

Lemma Follows_alert div custom message pg :
  shown custom [message] -> Follows div custom pg (alert message pg).
Proof.
  intros Hs. split; pproj; try reflexivity.
  - exists [message]. split; [reflexivity|exact Hs].
  - exists []. symmetry. apply set_console_nil.
  - intros n. left. reflexivity.
Qed.

Lemma Follows_log div custom text pg : Follows div custom pg (log text pg).
Proof.
  split; pproj; try reflexivity.
  - exists []. rewrite app_nil_r. split; [reflexivity|apply shown_nil].
  - exists [text]. reflexivity.
  - intros n. left. reflexivity.
Qed.

Lemma Follows_paint div custom colour pg :
  colour = "yellow"%string \/ colour = "red"%string ->
  Follows div custom pg (paint div colour pg).
Proof.
  intros Hc. split; pproj; try reflexivity.
  - exists []. rewrite app_nil_r. split; [reflexivity|apply shown_nil].
  - exists []. symmetry. apply set_console_nil.
  - apply length_insert.
  - intros n. destruct (decide (n = div)) as [->|Hn].
    + destruct (decide (div < length (backgroundColor pg))%nat) as [Hlt|Hge].
      * right. split; [reflexivity|]. rewrite list_lookup_insert_eq by exact Hlt.
        destruct Hc as [-> | ->]; auto.
      * left. rewrite list_insert_ge by lia. reflexivity.
    + left. apply list_lookup_insert_ne. auto.
Qed.

Lemma Follows_Stays div custom pg pg' : Follows div custom pg pg' -> Stays div custom pg pg'.
Proof. intros [He Hl Ha _ Hcl Hc]. split; assumption. Qed.

Lemma Stays_refl div custom pg : Stays div custom pg pg.
Proof. apply Follows_Stays, Follows_refl. Qed.

Lemma Stays_trans div custom pg1 pg2 pg3 :
  Stays div custom pg1 pg2 -> Stays div custom pg2 pg3 -> Stays div custom pg1 pg3.
Proof.
  intros [He Hl (m & Ha & Hm) Hcl Hc] [He' Hl' (m' & Ha' & Hm') Hcl' Hc'].
  split.
  - congruence.
  - congruence.
  - exists (m ++ m'). rewrite Ha', Ha, app_assoc. split; [reflexivity|].
    apply Forall_app. split; assumption.
  - congruence.
  - intros k. destruct (Hc' k) as [E|[-> E]].
    + rewrite E. apply Hc.
    + right. split; [reflexivity|exact E].
Qed.

Lemma Stays_set_host div custom f pg : Stays div custom pg (set_host f pg).
Proof.
  split; pproj; try reflexivity.
  - exists []. rewrite app_nil_r. split; [reflexivity|apply shown_nil].
  - intros n. left. reflexivity.
Qed.

(** *** Which listeners an event reaches *)

Lemma target_eqb_eq x y : target_eqb x y = true <-> x = y.
Proof.
  destruct x, y; simpl; split; intros H; try discriminate; try reflexivity.
  - apply Nat.eqb_eq in H. congruence.
  - injection H as ->. apply Nat.eqb_refl.
Qed.

Lemma elem_of_listeners_on pg type t l :
  l ∈ listeners_on pg type t <->
  exists r, r ∈ listeners pg /\ reg_listener r = l /\ reg_target r = t /\ reg_type r = type.
Proof.
  unfold listeners_on. rewrite list_elem_of_fmap. split.
  - intros (r & -> & Hr). apply list_elem_of_In, filter_In in Hr.
    destruct Hr as [Hin Hb]. apply andb_true_iff in Hb. destruct Hb as [Ht Hs].
    exists r. repeat split.
    + apply list_elem_of_In. exact Hin.
    + apply target_eqb_eq. exact Ht.
    + apply String.eqb_eq. exact Hs.
  - intros (r & Hin & <- & Ht & Hs). exists r. split; [reflexivity|].
    apply list_elem_of_In, filter_In. split; [apply list_elem_of_In; exact Hin|].
    apply andb_true_iff. split; [apply target_eqb_eq; exact Ht|apply String.eqb_eq; exact Hs].
Qed.

Lemma elem_of_invocation_list pg ev t l :
  l ∈ invocation_list pg ev t ->
  exists r, r ∈ listeners pg /\ reg_listener r = l /\ reg_type r = ev_type ev.
Proof.
  unfold invocation_list. rewrite list_elem_of_bind.
  intros (tg & Hl & _). apply elem_of_listeners_on in Hl.
  destruct Hl as (r & Hin & Hl & _ & Hs). exists r. auto.
Qed.

(** The event the custom button dispatches reaches no listener: the only
    listener for its type is on the custom button, and it is dispatched at
    the first button. *)
Lemma custom_event_reaches_nothing pg button div input form cbutton :
  listeners pg = script_listeners button div input form cbutton ->
  button <> cbutton ->
  invocation_list pg (new_Event "customEvent") (Element button) = [].
Proof.
  intros Hl Hne. unfold invocation_list, new_Event. cbn [ev_bubbles ev_type].
  cbn [mbind list_bind]. rewrite app_nil_r.
  destruct (listeners_on pg "customEvent" (Element button)) as [|l ls] eqn:E; [reflexivity|].
  assert (Hin : l ∈ listeners_on pg "customEvent" (Element button)) by (rewrite E; left).
  apply elem_of_listeners_on in Hin. destruct Hin as (r & Hr & _ & Ht & Hs).
  rewrite Hl in Hr. unfold script_listeners in Hr.
  repeat (apply elem_of_cons in Hr; destruct Hr as [->|Hr]);
    try (inversion Hr); simpl in Hs, Ht; try discriminate.
  congruence.
Qed.

(** *** Dispatch on the page the script leaves *)

Lemma dispatch_custom_event n pg button div input form cbutton :
  listeners pg = script_listeners button div input form cbutton ->
  button <> cbutton ->
  dispatch (S n) (new_Event "customEvent") (Element button) pg = Some (false, pg).
Proof.
  intros Hl Hne. cbn [dispatch].
  rewrite (custom_event_reaches_nothing pg button div input form cbutton Hl Hne).
  reflexivity.
Qed.

Lemma run_listener_follows n ev pg button div input form cbutton custom r :
  listeners pg = script_listeners button div input form cbutton ->
  button <> cbutton ->
  r ∈ script_listeners button div input form cbutton ->
  reg_type r <> "customEvent"%string \/ custom = true ->
  exists c pg', run_listener (dispatch (S n)) (reg_listener r) ev pg = Some (c, pg') /\
                Follows div custom pg pg'.
Proof.
  intros Hl Hne Hr Hty. unfold script_listeners in Hr.
  repeat (apply elem_of_cons in Hr; destruct Hr as [->|Hr]); try (inversion Hr);
    cbn [reg_listener reg_type run_listener] in *.
  - eexists _, _. split; [reflexivity|]. apply Follows_alert.
    constructor; [left; reflexivity|constructor].
  - eexists _, _. split; [reflexivity|]. apply Follows_paint. auto.
  - eexists _, _. split; [reflexivity|]. apply Follows_paint. auto.
  - eexists _, _. split; [reflexivity|]. apply Follows_log.
  - eexists _, _. split; [reflexivity|]. apply Follows_log.
  - eexists _, _. split; [reflexivity|]. apply Follows_log.
  - rewrite (dispatch_custom_event n (log "hcek" pg) button div input form cbutton Hl Hne).
    eexists _, _. split; [reflexivity|]. apply Follows_log.
  - eexists _, _. split; [reflexivity|]. apply Follows_alert.
    constructor; [|constructor]. right. split; [|reflexivity].
    destruct Hty as [Hty|Hty]; [contradiction|exact Hty].
Qed.

Lemma call_listeners_follows n ev button div input form cbutton custom ls :
  button <> cbutton ->
  forall pg c0,
    listeners pg = script_listeners button div input form cbutton ->
    (forall l, l ∈ ls -> exists r, r ∈ script_listeners button div input form cbutton /\
                                   reg_listener r = l /\
                                   (reg_type r <> "customEvent"%string \/ custom = true)) ->
    exists c pg',
      foldl (fun acc l =>
               match acc with
               | Some (cancelled, pg1) =>
                   match run_listener (dispatch (S n)) l ev pg1 with
                   | Some (c, pg2) => Some (cancelled || c, pg2)
                   | None => None
                   end
               | None => None
               end) (Some (c0, pg)) ls = Some (c, pg') /\
      Follows div custom pg pg'.
Proof.
  intros Hne. induction ls as [|l ls IH]; intros pg c0 Hl Hls.
  - exists c0, pg. split; [reflexivity|apply Follows_refl].
  - destruct (Hls l) as (r & Hr & <- & Hty); [left|].
    destruct (run_listener_follows n ev pg button div input form cbutton custom r
                Hl Hne Hr Hty) as (c1 & pg1 & Hrun & Hf).
    cbn [foldl]. rewrite Hrun.
    destruct (IH pg1 (c0 || c1)) as (c2 & pg2 & Hfold & Hf2).
    + rewrite (fo_listeners _ _ _ _ Hf). exact Hl.
    + intros l' Hl'. apply Hls. right. exact Hl'.
    + exists c2, pg2. split; [exact Hfold|]. eapply Follows_trans; eassumption.
Qed.

(** With depth for one nested dispatch, every dispatch returns. *)
Lemma dispatch_follows n ev t pg button div input form cbutton custom :
  listeners pg = script_listeners button div input form cbutton ->
  button <> cbutton ->
  ev_type ev <> "customEvent"%string \/ custom = true ->
  exists c pg', dispatch (S (S n)) ev t pg = Some (c, pg') /\ Follows div custom pg pg'.
Proof.
  intros Hl Hne Hty.
  change (dispatch (S (S n)) ev t pg)
    with (call_listeners (fun l => run_listener (dispatch (S n)) l ev)
            (invocation_list pg ev t) pg).
  unfold call_listeners.
  apply (call_listeners_follows n ev button div input form cbutton custom _ Hne pg false Hl).
  intros l Hin. apply elem_of_invocation_list in Hin.
  destruct Hin as (r & Hr & Hrl & Hrt). exists r. rewrite <- Hl. repeat split; try assumption.
  rewrite Hrt. exact Hty.
Qed.

Lemma run_tasks_stays random n button div input form cbutton custom tks :
  button <> cbutton ->
  (custom = true \/ Forall (fun et => ev_type (fst et) <> "customEvent"%string) (user_events tks)) ->
  forall pg,
    listeners pg = script_listeners button div input form cbutton ->
    exists pg', run_tasks random (S (S n)) tks pg = Some pg' /\ Stays div custom pg pg'.
Proof.
  intros Hne. induction tks as [|tk tks IH]; intros Hty pg Hl.
  - exists pg. split; [reflexivity|apply Stays_refl].
  - destruct tk as [k|ev t].
    + cbn [run_tasks run_task].
      destruct (IH Hty (set_host (fire random k) pg) Hl) as (pg' & Hrun & Hs).
      exists pg'. split; [exact Hrun|].
      eapply Stays_trans; [apply Stays_set_host|exact Hs].
    + assert (Hev : ev_type ev <> "customEvent"%string \/ custom = true).
      { destruct Hty as [Hc|Hall]; [right; exact Hc|left].
        cbn [user_events omap list_omap] in Hall. apply Forall_cons in Hall. apply Hall. }
      assert (Hrest : custom = true \/
                Forall (fun et => ev_type (fst et) <> "customEvent"%string) (user_events tks)).
      { destruct Hty as [Hc|Hall]; [left; exact Hc|right].
        cbn [user_events omap list_omap] in Hall. apply Forall_cons in Hall. apply Hall. }
      destruct (dispatch_follows n ev t pg button div input form cbutton custom Hl Hne Hev)
        as (c & pg1 & Hd & Hf).
      cbn [run_tasks run_task]. rewrite Hd. cbn [fmap option_fmap option_map snd].
      destruct (IH Hrest pg1) as (pg' & Hrun & Hs).
      { rewrite (fo_listeners _ _ _ _ Hf). exact Hl. }
      exists pg'. split; [exact Hrun|].
      eapply Stays_trans; [apply Follows_Stays; exact Hf|exact Hs].
Qed.

(** The page the script leaves. *)
Lemma load_scripted pg0 v pg1 :
  listeners pg0 = [] -> load pg0 = (Normal v, pg1) ->
  exists button div input form cbutton,
    find_id "myButton" (elements pg0) 0 = Some button /\
    find_id "myDiv" (elements pg0) 0 = Some div /\
    find_id "myInput" (elements pg0) 0 = Some input /\
    find_id "myForm" (elements pg0) 0 = Some form /\
    find_id "customButton" (elements pg0) 0 = Some cbutton /\
    button <> cbutton /\
    listeners pg1 = script_listeners button div input form cbutton /\
    elements pg1 = elements pg0 /\ alerts pg1 = alerts pg0 /\
    backgroundColor pg1 = backgroundColor pg0 /\
    host pg1 = drain (snd (main (snd (console_log (Log "working") (host pg0))))).
Proof.
  intros Hnil Hload. unfold load in Hload.
  destruct (index_js pg0) as [r pg'] eqn:Hjs. injection Hload as -> <-.
  destruct (index_js_Normal pg0 v pg' Hjs) as (b & d & i & f & c & Hb & Hd & Hi & Hf & Hc).
  rewrite (index_js_complete pg0 b d i f c Hb Hd Hi Hf Hc) in Hjs.
  injection Hjs as _ <-. exists b, d, i, f, c. pproj. rewrite Hnil.
  repeat split; try assumption; try reflexivity.
  apply (find_id_distinct _ _ _ _ _ Hb Hc). discriminate.
Qed.

Lemma shown_false messages :
  shown false messages ->
  messages = replicate (length messages) "Button clicked!"%string.
Proof.
  induction 1 as [|m l Hm _ IH]; [reflexivity|]. simpl. rewrite <- IH.
  destruct Hm as [->|[Hc _]]; [reflexivity|discriminate].
Qed.

(** X11.  The alert of index.js:56 is never shown: the click listener of the custom
    button dispatches its event at the first button, where nothing listens
    for it.  Whatever timers fire and whatever the user does, short of an
    event of type customEvent from elsewhere, the only alerts are those of
    the first button. *)
Theorem custom_event_alert_is_never_shown random depth pg0 v pg1 tks :
  listeners pg0 = [] -> load pg0 = (Normal v, pg1) -> (2 <= depth)%nat ->
  Forall (fun et => ev_type (fst et) <> "customEvent"%string) (user_events tks) ->
  exists pg2 n,
    run_tasks random depth tks pg1 = Some pg2 /\
    alerts pg2 = alerts pg0 ++ replicate n "Button clicked!"%string.
Proof.
  intros Hnil Hload Hdepth Hev.
  destruct (load_scripted pg0 v pg1 Hnil Hload)
    as (b & d & i & f & c & _ & _ & _ & _ & _ & Hne & Hl & _ & Ha & _).
  destruct depth as [|[|n]]; try lia.
  destruct (run_tasks_stays random n b d i f c false tks Hne (or_intror Hev) pg1 Hl)
    as (pg2 & Hrun & Hs).
  destruct (st_alerts _ _ _ _ Hs) as (m & Hm & Hshown).
  exists pg2, (length m). split; [exact Hrun|].
  rewrite Hm, Ha, <- (shown_false m Hshown). reflexivity.
Qed.

Lemma custom_event_alert_is_never_shown_witness :
  exists pg2 n,
    run_tasks always_half 2
      [UserEvent {| ev_type := "click"; ev_key := None; ev_bubbles := true;
                    ev_cancelable := true |} (Element 4);
       TimerFires 0;
       UserEvent {| ev_type := "click"; ev_key := None; ev_bubbles := true;
                    ev_cancelable := true |} (Element 0)]
      (snd (load (fresh_page example_document))) = Some pg2 /\
    alerts pg2 = alerts (fresh_page example_document) ++ replicate n "Button clicked!"%string.
Proof.
  apply (custom_event_alert_is_never_shown always_half 2 (fresh_page example_document)
           (VPromise 0) (snd (load (fresh_page example_document)))).
  - reflexivity.
  - vm_compute. reflexivity.
  - lia.
  - repeat constructor; discriminate.
Defined.

(** X16.  Events and timers paint nothing but the element myDiv, and that only
    yellow or red; and no sequence of them ever fails to return. *)
Theorem only_myDiv_is_ever_painted random depth pg0 v pg1 tks :
  listeners pg0 = [] -> load pg0 = (Normal v, pg1) -> (2 <= depth)%nat ->
  exists pg2 div,
    run_tasks random depth tks pg1 = Some pg2 /\
    find_id "myDiv" (elements pg0) 0 = Some div /\
    forall n,
      (n <> div -> backgroundColor pg2 !! n = backgroundColor pg0 !! n) /\
      (backgroundColor pg2 !! n = backgroundColor pg0 !! n \/
       backgroundColor pg2 !! n = Some (Some "yellow"%string) \/
       backgroundColor pg2 !! n = Some (Some "red"%string)).
Proof.
  intros Hnil Hload Hdepth.
  destruct (load_scripted pg0 v pg1 Hnil Hload)
    as (b & d & i & f & c & _ & Hd & _ & _ & _ & Hne & Hl & _ & _ & Hbg & _).
  destruct depth as [|[|n]]; try lia.
  destruct (run_tasks_stays random n b d i f c true tks Hne (or_introl eq_refl) pg1 Hl)
    as (pg2 & Hrun & Hs).
  exists pg2, d. split; [exact Hrun|]. split; [exact Hd|].
  intros k. rewrite <- Hbg.
  destruct (st_colour _ _ _ _ Hs k) as [E|[-> E]].
  - split; [intros _; exact E|left; exact E].
  - split; [intros Hk; contradiction|right; exact E].
Qed.

Lemma only_myDiv_is_ever_painted_witness :
  exists pg2 div,
    run_tasks always_half 2
      [UserEvent {| ev_type := "mouseover"; ev_key := None; ev_bubbles := true;
                    ev_cancelable := true |} (Element 1);
       UserEvent {| ev_type := "customEvent"; ev_key := None; ev_bubbles := false;
                    ev_cancelable := false |} (Element 4)]
      (snd (load (fresh_page example_document))) = Some pg2 /\
    find_id "myDiv" (elements (fresh_page example_document)) 0 = Some div /\
    forall n,
      (n <> div -> backgroundColor pg2 !! n =
                   backgroundColor (fresh_page example_document) !! n) /\
      (backgroundColor pg2 !! n = backgroundColor (fresh_page example_document) !! n \/
       backgroundColor pg2 !! n = Some (Some "yellow"%string) \/
       backgroundColor pg2 !! n = Some (Some "red"%string)).
Proof.
  apply (only_myDiv_is_ever_painted always_half 2 (fresh_page example_document)
           (VPromise 0) (snd (load (fresh_page example_document)))).
  - reflexivity.
  - vm_compute. reflexivity.
  - lia.
Defined.

(** *** Single events *)

Lemma reachable_scripted random depth pg0 v pg1 tks pg2 :
  listeners pg0 = [] -> load pg0 = (Normal v, pg1) -> (2 <= depth)%nat ->
  run_tasks random depth tks pg1 = Some pg2 ->
  exists button div input form cbutton,
    find_id "myButton" (elements pg0) 0 = Some button /\
    find_id "myDiv" (elements pg0) 0 = Some div /\
    find_id "myInput" (elements pg0) 0 = Some input /\
    find_id "myForm" (elements pg0) 0 = Some form /\
    find_id "customButton" (elements pg0) 0 = Some cbutton /\
    button <> cbutton /\
    listeners pg2 = script_listeners button div input form cbutton /\
    elements pg2 = elements pg0.
Proof.
  intros Hnil Hload Hdepth Hrun.
  destruct (load_scripted pg0 v pg1 Hnil Hload)
    as (b & d & i & f & c & Hb & Hd & Hi & Hf & Hc & Hne & Hl & He & _).
  destruct depth as [|[|n]]; try lia.
  destruct (run_tasks_stays random n b d i f c true tks Hne (or_introl eq_refl) pg1 Hl)
    as (pg2' & Hrun' & Hs).
  rewrite Hrun in Hrun'. injection Hrun' as <-.
  exists b, d, i, f, c. repeat split; try assumption.
  - rewrite (st_listeners _ _ _ _ Hs). exact Hl.
  - rewrite (st_elements _ _ _ _ Hs). exact He.
Qed.

Lemma tree_order_parent els n e p :
  tree_order els = true -> els !! n = Some e -> el_parent e = Some p -> (p < n)%nat.
Proof.
  intros Ht Hn Hp. unfold tree_order in Ht.
  rewrite forallb_forall in Ht.
  assert (Hin : In (n, e) (imap pair els)).
  { apply list_elem_of_In, list_elem_of_lookup. exists n.
    rewrite list_lookup_imap, Hn. reflexivity. }
  specialize (Ht _ Hin). cbn [fst snd] in Ht. rewrite Hp in Ht.
  apply Nat.ltb_lt. exact Ht.
Qed.

Lemma ancestors_lt els : tree_order els = true ->
  forall fuel n m, m ∈ ancestors els fuel n -> (m < n)%nat.
Proof.
  intros Ht. induction fuel as [|fuel IH]; intros n m Hm; [inversion Hm|].
  cbn [ancestors] in Hm.
  destruct (els !! n) as [e|] eqn:Hn; cbn [mbind option_bind] in Hm; [|inversion Hm].
  destruct (el_parent e) as [p|] eqn:Hp; [|inversion Hm].
  pose proof (tree_order_parent els n e p Ht Hn Hp) as Hlt.
  apply elem_of_cons in Hm. destruct Hm as [->|Hm]; [exact Hlt|].
  specialize (IH p m Hm). lia.
Qed.

Lemma bind_nil {X Y} (g : X -> list Y) (l : list X) :
  (forall x, x ∈ l -> g x = []) -> l ≫= g = [].
Proof.
  induction l as [|x l IH]; intros H; [reflexivity|].
  cbn [mbind list_bind]. rewrite (H x) by left.
  apply IH. intros y Hy. apply H. right. exact Hy.
Qed.

Lemma listeners_on_nil pg type t :
  (forall r, r ∈ listeners pg -> reg_type r = type -> reg_target r <> t) ->
  listeners_on pg type t = [].
Proof.
  intros H. destruct (listeners_on pg type t) as [|l ls] eqn:E; [reflexivity|].
  assert (Hin : l ∈ listeners_on pg type t) by (rewrite E; left).
  apply elem_of_listeners_on in Hin. destruct Hin as (r & Hr & _ & Ht & Hs).
  destruct (H r Hr Hs Ht).
Qed.

(** An event at [Element n] reaches, further out, only ancestors of [n],
    the document and the window. *)
Lemma invocation_list_at pg ev n :
  tree_order (elements pg) = true ->
  (forall r, r ∈ listeners pg -> reg_type r = ev_type ev ->
     reg_target r = Element n \/
     exists m, reg_target r = Element m /\
               m ∉ ancestors (elements pg) (length (elements pg)) n) ->
  invocation_list pg ev (Element n) = listeners_on pg (ev_type ev) (Element n).
Proof.
  intros Ht Hregs. unfold invocation_list.
  destruct (ev_bubbles ev); [|cbn [mbind list_bind]; apply app_nil_r].
  cbn [path mbind list_bind]. rewrite bind_nil; [apply app_nil_r|].
  intros tg Htg. apply listeners_on_nil. intros r Hr Hty Heq.
  apply elem_of_app in Htg. destruct Htg as [Htg|Htg].
  - apply list_elem_of_fmap in Htg. destruct Htg as (m & -> & Hm).
    destruct (Hregs r Hr Hty) as [E|(m' & E & Hm')].
    + rewrite E in Heq. injection Heq as <-.
      pose proof (ancestors_lt _ Ht _ _ _ Hm). lia.
    + rewrite E in Heq. injection Heq as <-. contradiction.
  - destruct (Hregs r Hr Hty) as [E|(m' & E & _)]; rewrite E in Heq; subst tg;
      repeat (apply elem_of_cons in Htg; destruct Htg as [Htg|Htg]; try discriminate);
      inversion Htg.
Qed.

(** X13.  A submit event at the form is always cancelled, so the browser never
    submits the form, and one line is logged. *)
Theorem submit_is_always_cancelled random depth pg0 v pg1 tks pg2 form ev :
  listeners pg0 = [] -> load pg0 = (Normal v, pg1) -> (2 <= depth)%nat ->
  run_tasks random depth tks pg1 = Some pg2 ->
  tree_order (elements pg0) = true ->
  find_id "myForm" (elements pg0) 0 = Some form ->
  ev_type ev = "submit"%string -> ev_cancelable ev = true ->
  dispatch depth ev (Element form) pg2 = Some (true, log "Form submitted!" pg2).
Proof.
  intros Hnil Hload Hdepth Hrun Ht Hform Hty Hcan.
  destruct (reachable_scripted random depth pg0 v pg1 tks pg2 Hnil Hload Hdepth Hrun)
    as (b & d & i & f & c & Hb & Hd & Hi & Hf & Hc & Hne & Hl & He).
  rewrite Hform in Hf. injection Hf as <-.
  destruct depth as [|[|n]]; try lia.
  change (dispatch (S (S n)) ev (Element form) pg2)
    with (call_listeners (fun l => run_listener (dispatch (S n)) l ev)
            (invocation_list pg2 ev (Element form)) pg2).
  rewrite invocation_list_at.
  - assert (Hon : listeners_on pg2 (ev_type ev) (Element form) = [OnFormSubmit]).
    { unfold listeners_on. rewrite Hl, Hty. unfold script_listeners.
      cbn [List.filter reg_target reg_type target_eqb String.eqb Ascii.eqb Bool.eqb andb].
      rewrite Nat.eqb_refl, !andb_false_r. reflexivity. }
    rewrite Hon. cbn [call_listeners foldl run_listener orb]. rewrite Hcan. reflexivity.
  - rewrite He. exact Ht.
  - intros r Hr Hrt. rewrite Hl in Hr. rewrite Hty in Hrt. unfold script_listeners in Hr.
    repeat (apply elem_of_cons in Hr; destruct Hr as [->|Hr]); try (inversion Hr);
      try discriminate.
    left. reflexivity.
Qed.

Lemma submit_is_always_cancelled_witness :
  dispatch 2 {| ev_type := "submit"; ev_key := None; ev_bubbles := true;
                ev_cancelable := true |} (Element 2)
    (snd (load (fresh_page example_document))) =
  Some (true, log "Form submitted!" (snd (load (fresh_page example_document)))).
Proof.
  apply (submit_is_always_cancelled always_half 2 (fresh_page example_document)
           (VPromise 0) (snd (load (fresh_page example_document))) []).
  - reflexivity.
  - vm_compute. reflexivity.
  - lia.
  - reflexivity.
  - reflexivity.
  - reflexivity.
  - reflexivity.
  - reflexivity.
Defined.



(** *** The script as a whole *)

(** X10.  Without one of the five elements the script throws a TypeError at the
    first use of the missing one.  It has printed its first line by then; the
    retrievals are never started, and the listener of index.js:55 is never
    registered. *)
Theorem script_stops_at_a_missing_element pg s :
  In s looked_up -> find_id s (elements pg) 0 = None ->
  fst (load pg) = Throw VTypeError /\
  host (snd (load pg)) = drain (set_console (fun c => c ++ [Log "working"]) (host pg)) /\
  alerts (snd (load pg)) = alerts pg /\
  exists regs, listeners (snd (load pg)) = listeners pg ++ regs /\
               Forall (fun r => reg_listener r <> OnCustomEvent) regs.
Proof.
  intros Hin Hs.
  destruct (index_js_missing pg) as (Hr & Hh & _ & Ha & _ & Hregs); [exists s; auto|].
  unfold load. destruct (index_js pg) as [r pg'] eqn:Hjs. cbn [fst snd] in *.
  pproj. rewrite Hh. repeat split; assumption.
Qed.

Lemma script_stops_at_a_missing_element_witness :
  fst (load (fresh_page [{| el_id := "myButton"; el_parent := None |}])) = Throw VTypeError.
Proof.
  apply (script_stops_at_a_missing_element
           (fresh_page [{| el_id := "myButton"; el_parent := None |}]) "myDiv").
  - simpl. auto.
  - reflexivity.
Defined.




(** X17.  Events never touch the retrievals: on the page the script leaves, every
    dispatch returns, and all it does to the host is log lines. *)
Theorem events_leave_the_retrievals_alone random depth pg0 v pg1 tks pg2 ev t :
  listeners pg0 = [] -> load pg0 = (Normal v, pg1) -> (2 <= depth)%nat ->
  run_tasks random depth tks pg1 = Some pg2 ->
  exists cancelled pg3 texts,
    dispatch depth ev t pg2 = Some (cancelled, pg3) /\
    host pg3 = set_console (fun c => c ++ (Log <$> texts)) (host pg2).
Proof.
  intros Hnil Hload Hdepth Hrun.
  destruct (reachable_scripted random depth pg0 v pg1 tks pg2 Hnil Hload Hdepth Hrun)
    as (b & d & i & f & c & _ & _ & _ & _ & _ & Hne & Hl & _).
  destruct depth as [|[|n]]; try lia.
  destruct (dispatch_follows n ev t pg2 b d i f c true Hl Hne (or_intror eq_refl))
    as (cancelled & pg3 & Hd & Hf).
  destruct (fo_host _ _ _ _ Hf) as [texts Hh].
  exists cancelled, pg3, texts. split; assumption.
Qed.

Lemma events_leave_the_retrievals_alone_witness :
  exists cancelled pg3 texts,
    dispatch 2 {| ev_type := "keyup"; ev_key := Some "a"%string; ev_bubbles := true;
                  ev_cancelable := true |} (Element 3)
      (snd (load (fresh_page example_document))) = Some (cancelled, pg3) /\
    host pg3 = set_console (fun c => c ++ (Log <$> texts))
                 (host (snd (load (fresh_page example_document)))).
Proof.
  apply (events_leave_the_retrievals_alone always_half 2 (fresh_page example_document)
           (VPromise 0) (snd (load (fresh_page example_document))) []).
  - reflexivity.
  - vm_compute. reflexivity.
  - lia.
  - reflexivity.
Defined.

(** *** Events between the timers *)

Lemma vehicle_lines_app x y : vehicle_lines (x ++ y) = vehicle_lines x ++ vehicle_lines y.
Proof. unfold vehicle_lines. apply omap_app. Qed.

Lemma vehicle_lines_logs texts : vehicle_lines (Log <$> texts) = [].
Proof. induction texts as [|t l IH]; [reflexivity|exact IH]. Qed.

(** The page with events runs alongside the host without them: the two
    differ in the console only, and there only in lines that are not
    vehicle lines. *)
Lemma run_tasks_alongside random n button div input form cbutton c0 tks :
  button <> cbutton ->
  forall pg st x y pg2,
    listeners pg = script_listeners button div input form cbutton ->
    host pg = with_console (c0 ++ x) st -> console st = c0 ++ y ->
    vehicle_lines x = vehicle_lines y ->
    run_tasks random (S (S n)) tks pg = Some pg2 ->
    exists x' y',
      host pg2 = with_console (c0 ++ x') (fire_all random (timer_picks tks) st) /\
      console (fire_all random (timer_picks tks) st) = c0 ++ y' /\
      vehicle_lines x' = vehicle_lines y'.
Proof.
  intros Hne. induction tks as [|tk tks IH]; intros pg st x y pg2 Hl Hh Hc Hv Hrun.
  - injection Hrun as <-. exists x, y. auto.
  - destruct tk as [k|ev t].
    + cbn [run_tasks run_task timer_picks omap list_omap fire_all] in *.
      destruct (fire_with_console random k st) as (out & Hout & Hfire).
      apply (IH (set_host (fire random k) pg) (fire random k st) (x ++ out) (y ++ out) pg2).
      * exact Hl.
      * pproj. rewrite Hh, Hfire, app_assoc. reflexivity.
      * rewrite Hout, Hc, app_assoc. reflexivity.
      * rewrite !vehicle_lines_app, Hv. reflexivity.
      * exact Hrun.
    + cbn [run_tasks run_task timer_picks omap list_omap] in *.
      destruct (dispatch_follows n ev t pg button div input form cbutton true Hl Hne
                  (or_intror eq_refl)) as (cancelled & pg1 & Hd & Hf).
      rewrite Hd in Hrun. cbn [fmap option_fmap option_map snd] in Hrun.
      destruct (fo_host _ _ _ _ Hf) as [texts Ht].
      apply (IH pg1 st (x ++ (Log <$> texts)) y pg2).
      * rewrite (fo_listeners _ _ _ _ Hf). exact Hl.
      * rewrite Ht, Hh. apply State_eq; proj; try reflexivity.
        unfold with_console. proj. rewrite app_assoc. reflexivity.
      * exact Hc.
      * rewrite vehicle_lines_app, vehicle_lines_logs, app_nil_r. exact Hv.
      * exact Hrun.
Qed.

(** X18.  Whatever the user does between the timers, the report is the one the
    same timers give without any event: listeners log lines of their own but
    never a vehicle line, and never touch a retrieval. *)
Theorem user_events_do_not_change_the_report random depth pg0 v pg1 tks pg2 :
  listeners pg0 = [] -> quiescent (host pg0) ->
  load pg0 = (Normal v, pg1) -> (2 <= depth)%nat ->
  run_tasks random depth tks pg1 = Some pg2 ->
  report_of (host pg0) (host pg2) =
  report_of (host pg0) (fire_all random (timer_picks tks) (host pg1)).
Proof.
  intros Hnil [Ht Hj] Hload Hdepth Hrun.
  destruct (load_scripted pg0 v pg1 Hnil Hload)
    as (b & d & i & f & c & _ & _ & _ & _ & _ & Hne & Hl & _ & _ & _ & Hh).
  destruct depth as [|[|n]]; try lia.
  set (st1 := snd (console_log (Log "working") (host pg0))) in *.
  set (st2 := snd (new_array vehicleIds_literal st1)).
  assert (Hcons : console (host pg1) = console (host pg0) ++ [Log "working"]).
  { destruct (Inv_start random no_faults st2 vehicleIds_literal Ht Hj (length (heap st1)))
      as [_ HI].
    { unfold st2, new_array. proj. rewrite lookup_app_r by lia.
      rewrite Nat.sub_diag. reflexivity. }
    pose proof (inv_status _ _ _ _ _ _ _ HI) as Hst.
    rewrite failures_no_faults in Hst. cbn [length seq vehicleIds_literal] in Hst.
    destruct Hst as (_ & _ & Hc & _).
    rewrite Hh. exact Hc. }
  destruct (run_tasks_alongside random n b d i f c (console (host pg0)) tks Hne
              pg1 (host pg1) [Log "working"] [Log "working"] pg2 Hl)
    as (x & y & Hx & Hy & Hxy); try assumption; try reflexivity.
  { rewrite <- Hcons. symmetry. apply with_console_same. }
  unfold report_of, printed. rewrite Hx, Hy. unfold with_console. proj.
  rewrite !drop_app_length. exact Hxy.
Qed.

Lemma user_events_do_not_change_the_report_witness :
  report_of (host (fresh_page example_document))
    (host (default (fresh_page example_document)
       (run_tasks always_half 2
          [TimerFires 0;
           UserEvent {| ev_type := "keyup"; ev_key := Some "a"%string; ev_bubbles := true;
                        ev_cancelable := true |} (Element 3);
           TimerFires 0; TimerFires 0; TimerFires 0; TimerFires 0]
          (snd (load (fresh_page example_document)))))) =
  report_of (host (fresh_page example_document))
    (fire_all always_half [0; 0; 0; 0; 0]%nat
       (host (snd (load (fresh_page example_document))))).
Proof.
  apply (user_events_do_not_change_the_report always_half 2 (fresh_page example_document)
           (VPromise 0) (snd (load (fresh_page example_document)))
           [TimerFires 0;
            UserEvent {| ev_type := "keyup"; ev_key := Some "a"%string; ev_bubbles := true;
                         ev_cancelable := true |} (Element 3);
            TimerFires 0; TimerFires 0; TimerFires 0; TimerFires 0]).
  - reflexivity.
  - split; reflexivity.
  - vm_compute. reflexivity.
  - lia.
  - vm_compute. reflexivity.
Defined.

(** X14.  A key released in the input logs that key, and nothing else happens. *)
Theorem keyup_logs_the_key random depth pg0 v pg1 tks pg2 input ev :
  listeners pg0 = [] -> load pg0 = (Normal v, pg1) -> (2 <= depth)%nat ->
  run_tasks random depth tks pg1 = Some pg2 ->
  tree_order (elements pg0) = true ->
  find_id "myInput" (elements pg0) 0 = Some input ->
  ev_type ev = "keyup"%string ->
  dispatch depth ev (Element input) pg2 =
    Some (false, log (String.append "Key pressed: " (key_text ev)) pg2).
Proof.
  intros Hnil Hload Hdepth Hrun Ht Hinput Hty.
  destruct (reachable_scripted random depth pg0 v pg1 tks pg2 Hnil Hload Hdepth Hrun)
    as (b & d & i & f & c & Hb & Hd & Hi & Hf & Hc & Hne & Hl & He).
  rewrite Hinput in Hi. injection Hi as <-.
  destruct depth as [|[|n]]; try lia.
  change (dispatch (S (S n)) ev (Element input) pg2)
    with (call_listeners (fun l => run_listener (dispatch (S n)) l ev)
            (invocation_list pg2 ev (Element input)) pg2).
  rewrite invocation_list_at.
  - assert (Hon : listeners_on pg2 (ev_type ev) (Element input) = [OnInputKeyup]).
    { unfold listeners_on. rewrite Hl, Hty. unfold script_listeners.
      cbn [List.filter reg_target reg_type target_eqb String.eqb Ascii.eqb Bool.eqb andb].
      rewrite Nat.eqb_refl, !andb_false_r. reflexivity. }
    rewrite Hon. reflexivity.
  - rewrite He. exact Ht.
  - intros r Hr Hrt. rewrite Hl in Hr. rewrite Hty in Hrt. unfold script_listeners in Hr.
    repeat (apply elem_of_cons in Hr; destruct Hr as [->|Hr]); try (inversion Hr);
      try discriminate.
    left. reflexivity.
Qed.

Lemma keyup_logs_the_key_witness :
  dispatch 2 {| ev_type := "keyup"; ev_key := Some "a"%string; ev_bubbles := true;
                ev_cancelable := true |} (Element 3)
    (snd (load (fresh_page example_document))) =
  Some (false, log "Key pressed: a" (snd (load (fresh_page example_document)))).
Proof.
  apply (keyup_logs_the_key always_half 2 (fresh_page example_document)
           (VPromise 0) (snd (load (fresh_page example_document))) []).
  - reflexivity.
  - vm_compute. reflexivity.
  - lia.
  - reflexivity.
  - reflexivity.
  - reflexivity.
  - reflexivity.
Defined.

(** X15.  The pointer entering the element myDiv paints it yellow, the pointer
    leaving it paints it red; the event runs no other listener. *)
Theorem hovering_paints_myDiv random depth pg0 v pg1 tks pg2 div ev colour :
  listeners pg0 = [] -> load pg0 = (Normal v, pg1) -> (2 <= depth)%nat ->
  run_tasks random depth tks pg1 = Some pg2 ->
  tree_order (elements pg0) = true ->
  find_id "myDiv" (elements pg0) 0 = Some div ->
  (ev_type ev = "mouseover"%string /\ colour = "yellow"%string) \/
  (ev_type ev = "mouseout"%string /\ colour = "red"%string) ->
  dispatch depth ev (Element div) pg2 = Some (false, paint div colour pg2).
Proof.
  intros Hnil Hload Hdepth Hrun Ht Hdiv Hty.
  destruct (reachable_scripted random depth pg0 v pg1 tks pg2 Hnil Hload Hdepth Hrun)
    as (b & d & i & f & c & Hb & Hd & Hi & Hf & Hc & Hne & Hl & He).
  rewrite Hdiv in Hd. injection Hd as <-.
  destruct depth as [|[|n]]; try lia.
  change (dispatch (S (S n)) ev (Element div) pg2)
    with (call_listeners (fun l => run_listener (dispatch (S n)) l ev)
            (invocation_list pg2 ev (Element div)) pg2).
  rewrite invocation_list_at.
  - unfold listeners_on. rewrite Hl. unfold script_listeners.
    destruct Hty as [[-> ->]|[-> ->]];
      cbn [List.filter reg_target reg_type target_eqb String.eqb Ascii.eqb Bool.eqb andb];
      rewrite Nat.eqb_refl, !andb_false_r; reflexivity.
  - rewrite He. exact Ht.
  - intros r Hr Hrt. rewrite Hl in Hr. unfold script_listeners in Hr.
    destruct Hty as [[Hty _]|[Hty _]]; rewrite Hty in Hrt;
      repeat (apply elem_of_cons in Hr; destruct Hr as [->|Hr]); try (inversion Hr);
      try discriminate; left; reflexivity.
Qed.

Lemma hovering_paints_myDiv_witness :
  dispatch 2 {| ev_type := "mouseout"; ev_key := None; ev_bubbles := true;
                ev_cancelable := true |} (Element 1)
    (snd (load (fresh_page example_document))) =
  Some (false, paint 1 "red" (snd (load (fresh_page example_document)))).
Proof.
  apply (hovering_paints_myDiv always_half 2 (fresh_page example_document)
           (VPromise 0) (snd (load (fresh_page example_document))) []).
  - reflexivity.
  - vm_compute. reflexivity.
  - lia.
  - reflexivity.
  - reflexivity.
  - reflexivity.
  - right. split; reflexivity.
Defined.



(** X20.  The load event of the window logs the line of index.js:41 and
    nothing else happens. *)
Theorem window_load_logs_page_loaded random depth pg0 v pg1 tks pg2 ev :
  listeners pg0 = [] -> load pg0 = (Normal v, pg1) -> (2 <= depth)%nat ->
  run_tasks random depth tks pg1 = Some pg2 ->
  ev_type ev = "load"%string ->
  dispatch depth ev Window pg2 = Some (false, log "Page loaded!" pg2).
Proof.
  intros Hnil Hload Hdepth Hrun Hty.
  destruct (reachable_scripted random depth pg0 v pg1 tks pg2 Hnil Hload Hdepth Hrun)
    as (b & d & i & f & c & Hb & Hd & Hi & Hf & Hc & Hne & Hl & He).
  destruct depth as [|[|n]]; try lia.
  change (dispatch (S (S n)) ev Window pg2)
    with (call_listeners (fun l => run_listener (dispatch (S n)) l ev)
            (invocation_list pg2 ev Window) pg2).
  assert (Hinv : invocation_list pg2 ev Window = [OnWindowLoad]).
  { unfold invocation_list. cbn [path].
    assert (Hon : [Window] ≫= listeners_on pg2 (ev_type ev) = [OnWindowLoad]).
    { cbn [mbind list_bind]. rewrite app_nil_r.
      unfold listeners_on. rewrite Hl, Hty. unfold script_listeners.
      cbn [List.filter reg_target reg_type target_eqb String.eqb Ascii.eqb Bool.eqb andb].
      reflexivity. }
    destruct (ev_bubbles ev); exact Hon. }
  rewrite Hinv. reflexivity.
Qed.

Lemma window_load_logs_page_loaded_witness :
  dispatch 2 {| ev_type := "load"; ev_key := None; ev_bubbles := false;
                ev_cancelable := false |} Window
    (snd (load (fresh_page example_document))) =
  Some (false, log "Page loaded!" (snd (load (fresh_page example_document)))).
Proof.
  apply (window_load_logs_page_loaded always_half 2 (fresh_page example_document)
           (VPromise 0) (snd (load (fresh_page example_document))) []).
  - reflexivity.
  - vm_compute. reflexivity.
  - lia.
  - reflexivity.
  - reflexivity.
Defined.
